(** * GatherRunner: a shallow embedding of lighthouse-core/gather/gather-runner.js

    The development follows the source file function by function.  Data is
    modelled as the JavaScript has it: plain objects used as dictionaries are
    association lists in insertion order, settled promises are tagged
    outcomes, and the asynchronous driver calls are threaded through a
    state-and-exception monad over an abstract browser session that also
    keeps a log of every call made and every gatherer hook invoked. *)

From Stdlib Require Import List String Ascii ZArith Bool Lia.
Import ListNotations.
Open Scope string_scope.
Open Scope list_scope.

Set Implicit Arguments.

(* ================================================================== *)
(** * JavaScript values, errors and plain objects *)

Module Js.

(** The four page-load error definitions of [LHError.errors] used by the
    runner. *)
Inductive LHErrorCode :=
| NO_DOCUMENT_REQUEST
| DNS_FAILURE
| FAILED_DOCUMENT_REQUEST
| ERRORED_DOCUMENT_REQUEST.

(** [new LHError(definition, properties)]: the definition's code and the
    properties object handed to the constructor. *)
Record LHError := mkLHError {
  code : LHErrorCode;
  properties : list (string * string)
}.

(** The values that flow through gatherer results: [undefined], primitive
    values, opaque artifact objects, plain [Error]s and [LHError]s. *)
Inductive Value :=
| Undefined
| Null
| Bool (b : bool)
| Number (z : Z)
| Str (s : string)
| Object (ref : nat)
| Error (message : string)
| LHErr (e : LHError).

(** [v !== undefined] *)
Definition defined (v : Value) : bool :=
  match v with Undefined => false | _ => true end.

(** A plain object used as a dictionary: its own properties in insertion
    order, which is the order of [Object.entries] when no key is an array
    index.  [get] and [set] read and write own properties. *)
Definition Obj (V : Type) := list (string * V).

(** [o[k]] *)
Fixpoint get {V} (k : string) (o : Obj V) : option V :=
  match o with
  | [] => None
  | (k', v) :: o' => if String.eqb k k' then Some v else get k o'
  end.

(** [o[k] = v]: an existing key keeps its position. *)
Fixpoint set {V} (k : string) (v : V) (o : Obj V) : Obj V :=
  match o with
  | [] => [(k, v)]
  | (k', v') :: o' =>
      if String.eqb k k' then (k', v) :: o' else (k', v') :: set k v o'
  end.

(** [Object.assign(target, source)] *)
Definition assign {V} (target source : Obj V) : Obj V :=
  fold_left (fun t kv => set (fst kv) (snd kv) t) source target.

(** [s.includes(needle)] *)
Fixpoint includes (needle s : string) : bool :=
  String.prefix needle s ||
  match s with
  | EmptyString => false
  | String _ s' => includes needle s'
  end.

(** The names of the properties that every object created as [{}]
    inherits from [Object.prototype]. *)
Definition prototypeNames : list string :=
  ["constructor"; "hasOwnProperty"; "isPrototypeOf"; "propertyIsEnumerable";
   "toLocaleString"; "toString"; "valueOf"; "__proto__";
   "__defineGetter__"; "__defineSetter__";
   "__lookupGetter__"; "__lookupSetter__"].

Definition inherited (k : string) : bool :=
  existsb (String.eqb k) prototypeNames.

(** The character of a decimal digit. *)
Definition digitChar (d : Z) : ascii := ascii_of_nat (48 + Z.to_nat d).

(** The decimal digits of a natural number, most significant first. *)
Fixpoint digitsOf (fuel : nat) (n : Z) : string :=
  match fuel with
  | O => String (digitChar (n mod 10)) EmptyString
  | S fuel' =>
      if (n <? 10)%Z then String (digitChar n) EmptyString
      else digitsOf fuel' (n / 10) ++ String (digitChar (n mod 10)) EmptyString
  end.

Definition decimal (n : Z) : string := digitsOf (Z.to_nat (Z.log2 n)) n.

(** A JavaScript number is a double.  The integer nearest to [n] that is
    one, ties going to the even significand, for [n] of at least 2^53. *)
Definition toDouble (n : Z) : Z :=
  let ulp := (2 ^ (Z.log2 n - 52))%Z in
  let m := (n / ulp)%Z in
  let r := (n mod ulp)%Z in
  let m := if (2 * r <? ulp)%Z then m
           else if (ulp <? 2 * r)%Z then (m + 1)%Z
           else if Z.even m then m else (m + 1)%Z in
  (m * ulp)%Z.

(** Whether the integer [v] is read back as the double [x], for [x] of at
    least 2^53: [v] lies within half a gap of [x], the ends included when
    the significand of [x] is even. *)
Definition readsAs (x v : Z) : bool :=
  let ulp := (2 ^ (Z.log2 x - 52))%Z in
  let m := (x / ulp)%Z in
  let below := if (m =? 2 ^ 52)%Z then (ulp / 2)%Z else ulp in
  if Z.even m
  then ((2 * x - below <=? 2 * v) && (2 * v <=? 2 * x + ulp))%Z
  else ((2 * x - below <? 2 * v) && (2 * v <? 2 * x + ulp))%Z.

(** The shortest decimal that is read back as [x]: digits [s] followed by
    [j] zeros, the nearest to [x] when two are as short. *)
Fixpoint shortest (j : nat) (x : Z) : Z * Z :=
  match j with
  | O => (x, 0%Z)
  | S j' =>
      let p := (10 ^ Z.of_nat j)%Z in
      let lower := (x / p)%Z in
      let upper := (lower + 1)%Z in
      let lowerOk := (0 <? lower)%Z && readsAs x (lower * p) in
      let upperOk := readsAs x (upper * p) in
      if lowerOk && upperOk then
        if (x - lower * p <? upper * p - x)%Z then (lower, Z.of_nat j)
        else if (upper * p - x <? x - lower * p)%Z then (upper, Z.of_nat j)
        else if Z.even lower then (lower, Z.of_nat j) else (upper, Z.of_nat j)
      else if lowerOk then (lower, Z.of_nat j)
      else if upperOk then (upper, Z.of_nat j)
      else shortest j' x
  end.

(** Trailing zeros moved from the digits to the count of zeros. *)
Fixpoint stripZeros (fuel : nat) (s j : Z) : Z * Z :=
  match fuel with
  | O => (s, j)
  | S fuel' =>
      if ((0 <? s) && (s mod 10 =? 0))%Z
      then stripZeros fuel' (s / 10) (j + 1)
      else (s, j)
  end.

Fixpoint zeros (n : nat) : string :=
  match n with
  | O => EmptyString
  | S n' => String "0" (zeros n')
  end.

(** [Number::toString] on a non-negative integer: all the digits below
    2^53; above, the shortest digits that identify the double, followed by
    zeros up to 21 digits and in exponent notation beyond. *)
Definition unsignedToString (n : Z) : string :=
  if (n <? 2 ^ 53)%Z then decimal n
  else
    let x := toDouble n in
    if (2 ^ 1024 <=? x)%Z then "Infinity"
    else
      let digitsOfX := String.length (decimal x) in
      let (s, j) := shortest digitsOfX x in
      let (s, j) := stripZeros digitsOfX s j in
      let digits := decimal s in
      let k := Z.of_nat (String.length digits) in
      let n := (k + j)%Z in
      if (n <=? 21)%Z then digits ++ zeros (Z.to_nat j)
      else
        match digits with
        | String first EmptyString =>
            String first ("e+" ++ decimal (n - 1))
        | String first rest =>
            String first ("." ++ rest ++ "e+" ++ decimal (n - 1))
        | EmptyString => EmptyString
        end.

(** [`${n}`] for an integer [n]. *)
Definition numberToString (n : Z) : string :=
  if (n <? 0)%Z then String "-" (unsignedToString (- n))
  else unsignedToString n.

(** The digit a character stands for. *)
Definition digitValue (c : ascii) : option Z :=
  let n := Z.of_nat (nat_of_ascii c) in
  if ((48 <=? n) && (n <=? 57))%Z then Some (n - 48)%Z else None.

(** The number a string of decimal digits stands for. *)
Fixpoint digitsValue (acc : Z) (digits : string) : option Z :=
  match digits with
  | EmptyString => Some acc
  | String c rest =>
      match digitValue c with
      | Some d => digitsValue (10 * acc + d) rest
      | None => None
      end
  end.

(** An array index: the canonical numeric string of an integer below
    2^32 - 1.  Such keys come first in [Object.entries]. *)
Definition arrayIndex (k : string) : bool :=
  match digitsValue 0 k with
  | Some n => (numberToString n =? k) && (n <? 2 ^ 32 - 1)%Z
  | None => false
  end.

(** A key that is neither an array index nor the name of a property
    inherited from [Object.prototype]. *)
Definition ordinary (k : string) : bool :=
  negb (inherited k) && negb (arrayIndex k).

(** The [TypeError] of reading the property [name] of [undefined] or
    [null]. *)
Definition propertyOfNothing (name : string) (v : Value) : Value :=
  Error ("Cannot read property '" ++ name ++ "' of "
         ++ match v with Null => "null" | _ => "undefined" end).

(** A promise that has settled. *)
Inductive Settled :=
| Resolved (v : Value)
| Rejected (reason : Value).

(** The outcome of an awaited computation. *)
Inductive result (A : Type) :=
| Ok (a : A)
| Throw (err : Value).
Arguments Ok {A} a.
Arguments Throw {A} err.

(** [await Promise.all(promises)] on promises that have all settled: the
    reactions run in index order, so the first rejection wins. *)
Fixpoint promiseAll (promises : list Settled) : result (list Value) :=
  match promises with
  | [] => Ok []
  | Rejected reason :: _ => Throw reason
  | Resolved v :: rest =>
      match promiseAll rest with
      | Ok vs => Ok (v :: vs)
      | Throw reason => Throw reason
      end
  end.

(** [Array.from(new Set(xs))]: first occurrences, in order. *)
Fixpoint unique (seen xs : list string) : list string :=
  match xs with
  | [] => []
  | x :: xs' =>
      if existsb (String.eqb x) seen then unique seen xs'
      else x :: unique (x :: seen) xs'
  end.

End Js.
Import Js.

(* ================================================================== *)
(** * Data model *)

(** [LH.Config.Settings], the fields the runner reads. *)
Module Settings.
Record t := mk {
  emulatedFormFactor : option string;   (* [None] is an unset field *)
  disableStorageReset : bool;
  blockedUrlPatterns : option (list string);
  extraHeaders : option (Obj string)
}.
End Settings.

(** A gatherer instance: its [name] and the identity of the object. *)
Module Gatherer.
Record t := mk {
  name : string;
  ident : nat
}.
End Gatherer.

(** An entry of [passConfig.gatherers]. *)
Module GathererDefn.
Record t := mk {
  instance : Gatherer.t;
  options : option (Obj Value)
}.
End GathererDefn.

(** [LH.Config.Pass] *)
Module PassConfig.
Record t := mk {
  passName : string;
  gatherers : list GathererDefn.t;
  recordTrace : bool;
  useThrottling : bool;
  blockedUrlPatterns : option (list string);
  blankPage : option string
}.
End PassConfig.

(** [LH.Artifacts.NetworkRequest], the fields the classifier reads. *)
Module NetworkRequest.
Record t := mk {
  url : string;
  failed : bool;
  localizedFailDescription : string;
  statusCode : Z
}.
End NetworkRequest.

(** A devtools log entry: its [method] and, for a request event, the
    [params.request.headers] object. *)
Module LogEntry.
Record t := mk {
  method : string;
  headers : Obj string
}.
End LogEntry.

Definition DevtoolsLog := list LogEntry.t.

Module Trace.
Record t := mk { traceEvents : list Value }.
End Trace.

(** [LH.Gatherer.LoadData] *)
Module LoadData.
Record t := mk {
  networkRecords : list NetworkRequest.t;
  devtoolsLog : DevtoolsLog;
  trace : option Trace.t
}.
End LoadData.

Module ArtifactsURL.
Record t := mk {
  requestedUrl : string;
  finalUrl : string
}.
End ArtifactsURL.

(** [LH.BaseArtifacts] *)
Module BaseArtifacts.
Record t := mk {
  fetchTime : string;
  LighthouseRunWarnings : list string;
  TestedAsMobileDevice : bool;
  HostUserAgent : string;
  NetworkUserAgent : string;
  BenchmarkIndex : Z;
  WebAppManifest : option Value;
  Stacks : list Value;
  traces : Obj Trace.t;
  devtoolsLogs : Obj DevtoolsLog;
  settings : Settings.t;
  URL : ArtifactsURL.t;
  Timing : list Value
}.

Definition with_warnings (ws : list string) (b : t) : t :=
  mk (fetchTime b) ws (TestedAsMobileDevice b) (HostUserAgent b)
     (NetworkUserAgent b) (BenchmarkIndex b) (WebAppManifest b) (Stacks b)
     (traces b) (devtoolsLogs b) (settings b) (URL b) (Timing b).

Definition with_NetworkUserAgent (ua : string) (b : t) : t :=
  mk (fetchTime b) (LighthouseRunWarnings b) (TestedAsMobileDevice b)
     (HostUserAgent b) ua (BenchmarkIndex b) (WebAppManifest b) (Stacks b)
     (traces b) (devtoolsLogs b) (settings b) (URL b) (Timing b).

Definition with_BenchmarkIndex (i : Z) (b : t) : t :=
  mk (fetchTime b) (LighthouseRunWarnings b) (TestedAsMobileDevice b)
     (HostUserAgent b) (NetworkUserAgent b) i (WebAppManifest b) (Stacks b)
     (traces b) (devtoolsLogs b) (settings b) (URL b) (Timing b).

Definition with_WebAppManifest (m : option Value) (b : t) : t :=
  mk (fetchTime b) (LighthouseRunWarnings b) (TestedAsMobileDevice b)
     (HostUserAgent b) (NetworkUserAgent b) (BenchmarkIndex b) m (Stacks b)
     (traces b) (devtoolsLogs b) (settings b) (URL b) (Timing b).

Definition with_Stacks (st : list Value) (b : t) : t :=
  mk (fetchTime b) (LighthouseRunWarnings b) (TestedAsMobileDevice b)
     (HostUserAgent b) (NetworkUserAgent b) (BenchmarkIndex b)
     (WebAppManifest b) st (traces b) (devtoolsLogs b) (settings b) (URL b)
     (Timing b).

Definition with_traces (tr : Obj Trace.t) (b : t) : t :=
  mk (fetchTime b) (LighthouseRunWarnings b) (TestedAsMobileDevice b)
     (HostUserAgent b) (NetworkUserAgent b) (BenchmarkIndex b)
     (WebAppManifest b) (Stacks b) tr (devtoolsLogs b) (settings b) (URL b)
     (Timing b).

Definition with_devtoolsLogs (dl : Obj DevtoolsLog) (b : t) : t :=
  mk (fetchTime b) (LighthouseRunWarnings b) (TestedAsMobileDevice b)
     (HostUserAgent b) (NetworkUserAgent b) (BenchmarkIndex b)
     (WebAppManifest b) (Stacks b) (traces b) dl (settings b) (URL b)
     (Timing b).

Definition with_finalUrl (u : string) (b : t) : t :=
  mk (fetchTime b) (LighthouseRunWarnings b) (TestedAsMobileDevice b)
     (HostUserAgent b) (NetworkUserAgent b) (BenchmarkIndex b)
     (WebAppManifest b) (Stacks b) (traces b) (devtoolsLogs b) (settings b)
     (ArtifactsURL.mk (ArtifactsURL.requestedUrl (URL b)) u) (Timing b).

Definition with_Timing (tm : list Value) (b : t) : t :=
  mk (fetchTime b) (LighthouseRunWarnings b) (TestedAsMobileDevice b)
     (HostUserAgent b) (NetworkUserAgent b) (BenchmarkIndex b)
     (WebAppManifest b) (Stacks b) (traces b) (devtoolsLogs b) (settings b)
     (URL b) tm.
End BaseArtifacts.

(** [LH.Gatherer.PassContext].  The driver is the session the monad below
    threads.  In [run] the context's [LighthouseRunWarnings] is the very
    array held by its [baseArtifacts], so the model keeps the one copy
    inside [baseArtifacts]; a push through either reference lands there. *)
Module PassContext.
Record t := mk {
  url : string;
  settings : Settings.t;
  passConfig : PassConfig.t;
  baseArtifacts : BaseArtifacts.t;
  options : option (Obj Value)          (* [None] before the first hook *)
}.

Definition with_url (u : string) (c : t) : t :=
  mk u (settings c) (passConfig c) (baseArtifacts c) (options c).

Definition with_options (o : option (Obj Value)) (c : t) : t :=
  mk (url c) (settings c) (passConfig c) (baseArtifacts c) o.

Definition with_baseArtifacts (b : BaseArtifacts.t) (c : t) : t :=
  mk (url c) (settings c) (passConfig c) b (options c).

(** [passContext.LighthouseRunWarnings.push(...ws)] *)
Definition push_warnings (ws : list string) (c : t) : t :=
  with_baseArtifacts
    (BaseArtifacts.with_warnings
       (BaseArtifacts.LighthouseRunWarnings (baseArtifacts c) ++ ws)
       (baseArtifacts c)) c.
End PassContext.

(** Each entry is the output of a gatherer phase, a settled promise. *)
Definition GathererResults := Obj (list Settled).

(** [{...baseArtifacts, ...gathererArtifacts}]: on a shared key the
    spread gives the gatherer artifact; the two parts are kept apart. *)
Module Artifacts.
Record t := mk {
  base : BaseArtifacts.t;
  gathered : Obj Value
}.
End Artifacts.

(* ================================================================== *)
(** * The driver and the session monad *)

(** The option bags handed to [driver.gotoURL]. *)
Inductive GotoOptions :=
| WaitForNavigated                                   (* [loadBlank] *)
| WaitForLoad (waitForFCP : bool) (passContext : PassContext.t).  (* [loadPage] *)

(** The second argument of [driver.setThrottling]. *)
Inductive ThrottlingTarget :=
| ForPass (passConfig : PassConfig.t)
| ThrottlingOff.                                     (* [{useThrottling: false}] *)

Module ManifestResponse.
Record t := mk { data : string; url : string }.
End ManifestResponse.

(** Every call the runner makes on the driver (and [stacksGatherer(driver)],
    which only talks to the driver). *)
Inductive DriverCall :=
| Connect
| Disconnect
| GetBrowserVersion
| GetBenchmarkIndex
| GotoURL (url : string) (opts : GotoOptions)
| AssertNoSameOriginServiceWorkerClients (url : string)
| BeginEmulation (settings : Settings.t)
| EnableRuntimeEvents
| EnableAsyncStacks
| CacheNatives
| RegisterPerformanceObserver
| DismissJavaScriptDialogs
| ClearDataForOrigin (url : string)
| SetThrottling (settings : Settings.t) (target : ThrottlingTarget)
| BlockUrlPatterns (urls : list string)
| SetExtraHTTPHeaders (headers : option (Obj string))
| CleanBrowserCaches
| BeginDevtoolsLog
| BeginTrace (settings : Settings.t)
| EndTrace
| EndDevtoolsLog
| GetAppManifest
| StacksGatherer.

(** What each call resolves to. *)
Definition Response (c : DriverCall) : Type :=
  match c with
  | GetBrowserVersion => string                      (* the [userAgent] field *)
  | GetBenchmarkIndex => Z
  | GotoURL _ _ => string                            (* the final URL *)
  | EndTrace => Trace.t
  | EndDevtoolsLog => DevtoolsLog
  | GetAppManifest => option ManifestResponse.t
  | StacksGatherer => list Value
  | _ => unit
  end.

Inductive Phase := BeforePass | Pass | AfterPass.

(** The log kept beside the session: driver calls with their outcome and
    gatherer hook invocations with the promise they settled to. *)
Inductive Event :=
| Called (c : DriverCall) (r : result (Response c))
| Hooked (phase : Phase) (gatherer : string) (outcome : Settled).

(** What a gatherer hook does: the promise settles, warnings may have been
    pushed to [passContext.LighthouseRunWarnings], the session moves on. *)
Record HookRun (World : Type) := mkHookRun {
  settled : Settled;
  warned : list string;
  after : World
}.

(** Everything the runner is handed or imports: the driver, the gatherer
    instances' hooks and the collaborators from other files. *)
Class Env := mkEnv {
  (** The browser session behind the driver, together with whatever state
      the gatherer instances and the logger keep. *)
  World : Type;
  (** The driver: each call either resolves or throws, and moves the
      session on. *)
  driver : forall c : DriverCall, World -> result (Response c) * World;
  (** [driver.online] *)
  online : World -> bool;
  (** The gatherers' three hooks. *)
  gatherer_beforePass : Gatherer.t -> PassContext.t -> World -> HookRun World;
  gatherer_pass : Gatherer.t -> PassContext.t -> World -> HookRun World;
  gatherer_afterPass :
    Gatherer.t -> PassContext.t -> LoadData.t -> World -> HookRun World;
  (** [URL.equalWithExcludedFragments] of url-shim.js *)
  equalWithExcludedFragments : string -> string -> bool;
  (** [record.hasErrorStatusCode()] of network-request.js *)
  hasErrorStatusCode : NetworkRequest.t -> bool;
  (** [error.friendlyMessage] of lh-error.js *)
  friendlyMessage : LHError -> string;
  (** [NetworkRecorder.recordsFromLogs] *)
  recordsFromLogs : DevtoolsLog -> list NetworkRequest.t;
  (** [manifestParser(data, manifestUrl, documentUrl)] *)
  manifestParser : string -> string -> string -> Value;
  (** [constants.defaultPassConfig.blankPage] *)
  defaultBlankPage : string;
  (** [log.getTimeEntries()] *)
  getTimeEntries : World -> list Value;
  (** [(new Date()).toJSON()] *)
  now : World -> string
}.

Section GatherRunner.

Context {env : Env}.

Record Session := mkSession {
  world : World;
  calls : list Event
}.

(** Computations over the session that return or throw. *)
Definition M (A : Type) := Session -> result A * Session.

Definition ret {A} (a : A) : M A := fun s => (Ok a, s).

Definition throw {A} (err : Value) : M A := fun s => (Throw err, s).

Definition bind {A B} (m : M A) (k : A -> M B) : M B :=
  fun s =>
    match m s with
    | (Ok a, s') => k a s'
    | (Throw err, s') => (Throw err, s')
    end.

Notation "x <- m ;; k" := (bind m (fun x => k))
  (at level 61, m at next level, right associativity).
Notation "' p <- m ;; k" := (bind m (fun x => match x with p => k end))
  (at level 61, p pattern, m at next level, right associativity).
Notation "m ;; k" := (bind m (fun _ => k))
  (at level 61, right associativity).

(** [await driver.method(...)] *)
Definition call (c : DriverCall) : M (Response c) :=
  fun s =>
    let (r, w) := driver c (world s) in
    (r, mkSession w (calls s ++ [Called c r])).

(** [if (cond) await ...] *)
Definition when (cond : bool) (m : M unit) : M unit :=
  if cond then m else ret tt.

(** Reading the session without changing it. *)
Definition ask {A} (f : World -> A) : M A :=
  fun s => (Ok (f (world s)), s).

(** The value or exception of a computation that does not touch the
    session. *)
Definition lift {A} (r : result A) : M A := fun s => (r, s).

(** [run]'s argument, apart from the driver. *)
Record RunOptions := mkRunOptions {
  requestedUrl : string;
  settings : Settings.t
}.

(* ---------------------------------------------------------------- *)
(** ** Session lifecycle *)

(** [loadBlank(driver, url = constants.defaultPassConfig.blankPage)] *)
Definition loadBlank (url : option string) : M unit :=
  let url := match url with Some u => u | None => defaultBlankPage end in
  call (GotoURL url WaitForNavigated) ;;
  ret tt.

(** [loadPage]: the context's [url] becomes the post-redirect URL. *)
Definition loadPage (passContext : PassContext.t) : M PassContext.t :=
  finalUrl <- call (GotoURL (PassContext.url passContext)
                      (WaitForLoad
                         (PassConfig.recordTrace (PassContext.passConfig passContext))
                         passContext)) ;;
  ret (PassContext.with_url finalUrl passContext).

Definition setupDriver (options : RunOptions) : M unit :=
  let resetStorage := negb (Settings.disableStorageReset (settings options)) in
  call (AssertNoSameOriginServiceWorkerClients (requestedUrl options)) ;;
  call (BeginEmulation (settings options)) ;;
  call EnableRuntimeEvents ;;
  call EnableAsyncStacks ;;
  call CacheNatives ;;
  call RegisterPerformanceObserver ;;
  call DismissJavaScriptDialogs ;;
  when resetStorage (call (ClearDataForOrigin (requestedUrl options))).

(** [disposeDriver]: what [driver.disconnect()] throws is caught and at
    most logged.  The handler reads [err.message], which is itself a
    [TypeError] when the rejection is [undefined] or [null]. *)
Definition disposeDriver : M unit :=
  fun s =>
    match call Disconnect s with
    | (Ok _, s') => (Ok tt, s')
    | (Throw err, s') =>
        (* Ignore disconnecting error if browser was already closed. *)
        match err with
        | Undefined | Null => (Throw (propertyOfNothing "message" err), s')
        | _ => (Ok tt, s')
        end
    end.

(* ---------------------------------------------------------------- *)
(** ** Network failure classifier *)

Definition getPageLoadError (url : string)
    (networkRecords : list NetworkRequest.t) : option LHError :=
  let mainRecord :=
    find (fun record =>
            equalWithExcludedFragments (NetworkRequest.url record) url)
         networkRecords in
  match mainRecord with
  | None => Some (mkLHError NO_DOCUMENT_REQUEST [])
  | Some mainRecord =>
      if NetworkRequest.failed mainRecord then
        let netErr := NetworkRequest.localizedFailDescription mainRecord in
        if (netErr =? "net::ERR_NAME_NOT_RESOLVED")
           || (netErr =? "net::ERR_NAME_RESOLUTION_FAILED")
           || String.prefix "net::ERR_DNS_" netErr
        then Some (mkLHError DNS_FAILURE [])
        else Some (mkLHError FAILED_DOCUMENT_REQUEST
                     [("errorDetails", netErr)])
      else if hasErrorStatusCode mainRecord then
        Some (mkLHError ERRORED_DOCUMENT_REQUEST
                [("statusCode",
                  numberToString (NetworkRequest.statusCode mainRecord))])
      else None
  end.

(* ---------------------------------------------------------------- *)
(** ** Pass executor *)

(** The string stored under a key that is known to hold one. *)
Definition orDefault (v : option string) : string :=
  match v with Some s => s | None => "" end.

(** [xs || []] *)
Definition orEmpty {A} (xs : option (list A)) : list A :=
  match xs with Some l => l | None => [] end.

Definition setupPassNetwork (passContext : PassContext.t) : M unit :=
  let passConfig := PassContext.passConfig passContext in
  call (SetThrottling (PassContext.settings passContext) (ForPass passConfig)) ;;
  let blockedUrls :=
    orEmpty (PassConfig.blockedUrlPatterns passConfig)
    ++ orEmpty (Settings.blockedUrlPatterns (PassContext.settings passContext)) in
  call (BlockUrlPatterns blockedUrls) ;;
  call (SetExtraHTTPHeaders
          (Settings.extraHeaders (PassContext.settings passContext))).

Definition beginRecording (passContext : PassContext.t) : M unit :=
  call BeginDevtoolsLog ;;
  when (PassConfig.recordTrace (PassContext.passConfig passContext))
       (call (BeginTrace (PassContext.settings passContext))).

Definition endRecording (passContext : PassContext.t) : M LoadData.t :=
  trace <- (if PassConfig.recordTrace (PassContext.passConfig passContext)
            then t <- call EndTrace ;; ret (Some t)
            else ret None) ;;
  devtoolsLog <- call EndDevtoolsLog ;;
  let networkRecords := recordsFromLogs devtoolsLog in
  ret (LoadData.mk networkRecords devtoolsLog trace).

(** [Promise.resolve().then(_ => hook(...))] followed by
    [await artifactPromise.catch(() => {})]: the hook runs to completion,
    its promise settles either way, and nothing is thrown here. *)
Definition settle (phase : Phase) (gatherer : Gatherer.t)
    (passContext : PassContext.t) (hook : World -> HookRun World)
  : M (Settled * PassContext.t) :=
  fun s =>
    let h := hook (world s) in
    (Ok (settled h, PassContext.push_warnings (warned h) passContext),
     mkSession (after h)
               (calls s ++ [Hooked phase (Gatherer.name gatherer) (settled h)])).

(** [gathererDefn.options || {}] *)
Definition optionsOf (gathererDefn : GathererDefn.t) : option (Obj Value) :=
  Some (orEmpty (GathererDefn.options gathererDefn)).

(** The [for] loop of [beforePass]. *)
Fixpoint beforePass_each (gatherers : list GathererDefn.t)
    (passContext : PassContext.t) (gathererResults : GathererResults)
  : M (PassContext.t * GathererResults) :=
  match gatherers with
  | [] => ret (passContext, gathererResults)
  | gathererDefn :: rest =>
      let gatherer := GathererDefn.instance gathererDefn in
      let passContext :=
        PassContext.with_options (optionsOf gathererDefn) passContext in
      '(artifactPromise, passContext) <-
        settle BeforePass gatherer passContext
               (gatherer_beforePass gatherer passContext) ;;
      let gathererResults :=
        set (Gatherer.name gatherer) [artifactPromise] gathererResults in
      beforePass_each rest passContext gathererResults
  end.

Definition beforePass (passContext : PassContext.t)
    (gathererResults : GathererResults) :=
  beforePass_each (PassConfig.gatherers (PassContext.passConfig passContext))
                  passContext gathererResults.

(** [gathererResults[name] || []], [push], and the write back. *)
Definition pushResult (name : string) (artifactPromise : Settled)
    (gathererResults : GathererResults) : GathererResults :=
  let gathererResult := orEmpty (get name gathererResults) in
  set name (gathererResult ++ [artifactPromise]) gathererResults.

(** The [for] loop of [pass]. *)
Fixpoint pass_each (gatherers : list GathererDefn.t)
    (passContext : PassContext.t) (gathererResults : GathererResults)
  : M (PassContext.t * GathererResults) :=
  match gatherers with
  | [] => ret (passContext, gathererResults)
  | gathererDefn :: rest =>
      let gatherer := GathererDefn.instance gathererDefn in
      let passContext :=
        PassContext.with_options (optionsOf gathererDefn) passContext in
      '(artifactPromise, passContext) <-
        settle Pass gatherer passContext
               (gatherer_pass gatherer passContext) ;;
      pass_each rest passContext
                (pushResult (Gatherer.name gatherer) artifactPromise
                            gathererResults)
  end.

Definition pass (passContext : PassContext.t)
    (gathererResults : GathererResults) :=
  pass_each (PassConfig.gatherers (PassContext.passConfig passContext))
            passContext gathererResults.

(** The [for] loop of [afterPass]. *)
Fixpoint afterPass_each (gatherers : list GathererDefn.t)
    (passContext : PassContext.t) (loadData : LoadData.t)
    (gathererResults : GathererResults)
  : M (PassContext.t * GathererResults) :=
  match gatherers with
  | [] => ret (passContext, gathererResults)
  | gathererDefn :: rest =>
      let gatherer := GathererDefn.instance gathererDefn in
      let passContext :=
        PassContext.with_options (optionsOf gathererDefn) passContext in
      '(artifactPromise, passContext) <-
        settle AfterPass gatherer passContext
               (gatherer_afterPass gatherer passContext loadData) ;;
      afterPass_each rest passContext loadData
                     (pushResult (Gatherer.name gatherer) artifactPromise
                                 gathererResults)
  end.

Definition afterPass (passContext : PassContext.t) (loadData : LoadData.t)
    (gathererResults : GathererResults) :=
  afterPass_each (PassConfig.gatherers (PassContext.passConfig passContext))
                 passContext loadData gathererResults.

(** [fillWithPageLoadErrors]: every gatherer gets [Promise.reject(pageLoadError)]
    pushed onto its results; no hook is called. *)
Fixpoint fillWithPageLoadErrors_each (gatherers : list GathererDefn.t)
    (pageLoadError : LHError) (gathererResults : GathererResults)
  : GathererResults :=
  match gatherers with
  | [] => gathererResults
  | gathererDefn :: rest =>
      let gatherer := GathererDefn.instance gathererDefn in
      let artifactPromise := Rejected (LHErr pageLoadError) in
      fillWithPageLoadErrors_each rest pageLoadError
        (pushResult (Gatherer.name gatherer) artifactPromise gathererResults)
  end.

Definition fillWithPageLoadErrors (passContext : PassContext.t)
    (pageLoadError : LHError) (gathererResults : GathererResults)
  : M GathererResults :=
  ret (fillWithPageLoadErrors_each
         (PassConfig.gatherers (PassContext.passConfig passContext))
         pageLoadError gathererResults).

(* ---------------------------------------------------------------- *)
(** ** Artifact collector *)

(** [o[k] !== undefined] on an object created as [{}]: the own property if
    there is one, else what [Object.prototype] holds under that name. *)
Definition has {V} (isDefined : V -> bool) (k : string) (o : Obj V) : bool :=
  match get k o with Some v => isDefined v | None => inherited k end.

(** The [try]/[catch] of [collectArtifacts]: the value stored for one
    gatherer from its phase results. *)
Definition artifactOf (phaseResultsPromises : list Settled) : Value :=
  match promiseAll phaseResultsPromises with
  | Ok phaseResults =>
      (* Take last defined pass result as artifact. *)
      let definedResults := filter defined phaseResults in
      last definedResults Undefined
  | Throw err =>
      (* Return error to runner to handle turning it into an error audit. *)
      err
  end.

(** The [for] loop of [collectArtifacts] over [Object.entries]. *)
Fixpoint collect_each (resultsEntries : list (string * list Settled))
    (gathererArtifacts : Obj Value) : result (Obj Value) :=
  match resultsEntries with
  | [] => Ok gathererArtifacts
  | (gathererName, phaseResultsPromises) :: rest =>
      if has defined gathererName gathererArtifacts
      then collect_each rest gathererArtifacts          (* [continue] *)
      else
        let gathererArtifacts :=
          set gathererName (artifactOf phaseResultsPromises)
              gathererArtifacts in
        if negb (has defined gathererName gathererArtifacts)
        then Throw (Error (gathererName ++ " failed to provide an artifact."))
        else collect_each rest gathererArtifacts
  end.

Definition collectArtifacts (gathererResults : GathererResults)
    (baseArtifacts : BaseArtifacts.t) : M Artifacts.t :=
  gathererArtifacts <- lift (collect_each gathererResults []) ;;
  (* Take only unique LighthouseRunWarnings. *)
  let baseArtifacts :=
    BaseArtifacts.with_warnings
      (unique [] (BaseArtifacts.LighthouseRunWarnings baseArtifacts))
      baseArtifacts in
  (* Take the timing entries we've gathered so far. *)
  timing <- ask getTimeEntries ;;
  let baseArtifacts := BaseArtifacts.with_Timing timing baseArtifacts in
  ret (Artifacts.mk baseArtifacts gathererArtifacts).

(* ---------------------------------------------------------------- *)
(** ** Base artifacts builder *)

(** [field === literal] for a possibly unset string field. *)
Definition strictEq (field : option string) (literal : string) : bool :=
  match field with Some s => s =? literal | None => false end.

Definition getBaseArtifacts (options : RunOptions) : M BaseArtifacts.t :=
  hostUserAgent <- call GetBrowserVersion ;;
  let emulatedFormFactor := Settings.emulatedFormFactor (settings options) in
  (* Whether Lighthouse was run on a mobile device. *)
  let IsMobileHost :=
    includes "Android" hostUserAgent || includes "Mobile" hostUserAgent in
  let TestedAsMobileDevice :=
    strictEq emulatedFormFactor "mobile"
    || (negb (strictEq emulatedFormFactor "desktop") && IsMobileHost) in
  fetchTime <- ask now ;;
  ret (BaseArtifacts.mk
         fetchTime
         []
         TestedAsMobileDevice
         hostUserAgent
         ""                                   (* updated later *)
         0                                    (* updated later *)
         None                                 (* updated later *)
         []                                   (* updated later *)
         []
         []
         (settings options)
         (ArtifactsURL.mk (requestedUrl options) "")
         []).

Definition getWebAppManifest (passContext : PassContext.t)
  : M (option Value) :=
  response <- call GetAppManifest ;;
  match response with
  | None => ret None
  | Some response =>
      ret (Some (manifestParser (ManifestResponse.data response)
                                (ManifestResponse.url response)
                                (PassContext.url passContext)))
  end.

(* ---------------------------------------------------------------- *)
(** ** Pass executor, continued *)

Definition isPerfPass (passContext : PassContext.t) : bool :=
  negb (Settings.disableStorageReset (PassContext.settings passContext))
  && PassConfig.recordTrace (PassContext.passConfig passContext)
  && PassConfig.useThrottling (PassContext.passConfig passContext).

(** [runPass] up to and including the saving of the devtools log and the
    trace: network setup, [beforePass], navigation, [pass], end of
    recording. *)
Definition runPass_load (passContext : PassContext.t)
  : M (PassContext.t * LoadData.t * GathererResults) :=
  let gathererResults : GathererResults := [] in
  let passConfig := PassContext.passConfig passContext in
  (* On about:blank. *)
  setupPassNetwork passContext ;;
  let isPerfPass := isPerfPass passContext in
  when isPerfPass (call CleanBrowserCaches) ;;
  '(passContext, gathererResults) <- beforePass passContext gathererResults ;;
  (* Navigate. *)
  beginRecording passContext ;;
  passContext <- loadPage passContext ;;
  '(passContext, gathererResults) <- pass passContext gathererResults ;;
  loadData <- endRecording passContext ;;
  (* Disable throttling so the afterPass analysis isn't throttled *)
  call (SetThrottling (PassContext.settings passContext) ThrottlingOff) ;;
  (* Save devtoolsLog and trace (if requested by passConfig). *)
  let baseArtifacts := PassContext.baseArtifacts passContext in
  let baseArtifacts :=
    BaseArtifacts.with_devtoolsLogs
      (set (PassConfig.passName passConfig) (LoadData.devtoolsLog loadData)
           (BaseArtifacts.devtoolsLogs baseArtifacts))
      baseArtifacts in
  let baseArtifacts :=
    match LoadData.trace loadData with
    | Some trace =>
        BaseArtifacts.with_traces
          (set (PassConfig.passName passConfig) trace
               (BaseArtifacts.traces baseArtifacts))
          baseArtifacts
    | None => baseArtifacts
    end in
  ret (PassContext.with_baseArtifacts baseArtifacts passContext,
       loadData, gathererResults).

(** The rest of [runPass]: the check for load errors and the branch on
    it. *)
Definition runPass_finish (passContext : PassContext.t)
    (loadData : LoadData.t) (gathererResults : GathererResults)
  : M (PassContext.t * GathererResults) :=
  (* Check for any load errors (but if the driver was offline, ignore the
     expected error). *)
  let pageLoadError :=
    getPageLoadError (PassContext.url passContext)
                     (LoadData.networkRecords loadData) in
  isOnline <- ask online ;;
  let pageLoadError := if negb isOnline then None else pageLoadError in
  match pageLoadError with
  | None =>
      (* If no error, finish the afterPass and return. *)
      afterPass passContext loadData gathererResults
  | Some pageLoadError =>
      let passContext :=
        PassContext.push_warnings [friendlyMessage pageLoadError]
                                  passContext in
      gathererResults <-
        fillWithPageLoadErrors passContext pageLoadError gathererResults ;;
      ret (passContext, gathererResults)
  end.

(** [runPass]; the context is handed back since the caller reads the
    [url] the pass has left in it. *)
Definition runPass (passContext : PassContext.t)
  : M (PassContext.t * GathererResults) :=
  '(passContext, loadData, gathererResults) <- runPass_load passContext ;;
  runPass_finish passContext loadData gathererResults.

(* ---------------------------------------------------------------- *)
(** ** Top-level orchestrator *)

(** [!!headers['User-Agent']] *)
Definition truthy (v : option string) : bool :=
  match v with Some s => negb (s =? "") | None => false end.

Definition isUserAgentEntry (entry : LogEntry.t) : bool :=
  (LogEntry.method entry =? "Network.requestWillBeSent")
  && truthy (get "User-Agent" (LogEntry.headers entry)).

(** What [run] does on the first pass only, once the pass has run. *)
Definition firstPassExtras (passConfig : PassConfig.t)
    (passContext : PassContext.t) (baseArtifacts : BaseArtifacts.t)
  : M BaseArtifacts.t :=
  (* Copy redirected URL to artifact in the first pass only. *)
  let baseArtifacts :=
    BaseArtifacts.with_finalUrl (PassContext.url passContext) baseArtifacts in
  manifest <- getWebAppManifest passContext ;;
  let baseArtifacts := BaseArtifacts.with_WebAppManifest manifest baseArtifacts in
  stacks <- call StacksGatherer ;;
  let baseArtifacts := BaseArtifacts.with_Stacks stacks baseArtifacts in
  match get (PassConfig.passName passConfig)
            (BaseArtifacts.devtoolsLogs baseArtifacts) with
  | None =>
      (* [devtoolsLog.find] on [undefined] *)
      throw (Error "Cannot read property 'find' of undefined")
  | Some devtoolsLog =>
      let userAgentEntry := find isUserAgentEntry devtoolsLog in
      match userAgentEntry with
      | Some userAgentEntry =>
          ret (BaseArtifacts.with_NetworkUserAgent
                 (orDefault (get "User-Agent" (LogEntry.headers userAgentEntry)))
                 baseArtifacts)
      | None => ret baseArtifacts
      end
  end.

(** The [for] loop of [run] over the passes. *)
Fixpoint run_passes (options : RunOptions) (passes : list PassConfig.t)
    (isFirstPass : bool) (gathererResults : GathererResults)
    (baseArtifacts : BaseArtifacts.t)
  : M (GathererResults * BaseArtifacts.t) :=
  match passes with
  | [] => ret (gathererResults, baseArtifacts)
  | passConfig :: rest =>
      let passContext :=
        PassContext.mk
          (* If the main document redirects, we'll update this to keep track *)
          (requestedUrl options)
          (settings options)
          passConfig
          baseArtifacts
          None in
      (* Already on blank page if driver was just set up. *)
      when (negb isFirstPass) (loadBlank (PassConfig.blankPage passConfig)) ;;
      '(passContext, passResults) <- runPass passContext ;;
      let gathererResults := assign gathererResults passResults in
      let baseArtifacts := PassContext.baseArtifacts passContext in
      baseArtifacts <-
        (if isFirstPass
         then firstPassExtras passConfig passContext baseArtifacts
         else ret baseArtifacts) ;;
      run_passes options rest false gathererResults baseArtifacts
  end.

(** The body of [run]'s [try] up to the disposal of the driver. *)
Definition run_try (passes : list PassConfig.t) (options : RunOptions)
  : M (GathererResults * BaseArtifacts.t) :=
  let gathererResults : GathererResults := [] in
  call Connect ;;
  baseArtifacts <- getBaseArtifacts options ;;
  (* In the devtools/extension case, we can't still be on the site while
     trying to clear state, so we first navigate to about:blank. *)
  loadBlank None ;;
  benchmarkIndex <- call GetBenchmarkIndex ;;
  let baseArtifacts :=
    BaseArtifacts.with_BenchmarkIndex benchmarkIndex baseArtifacts in
  setupDriver options ;;
  '(gathererResults, baseArtifacts) <-
    run_passes options passes true gathererResults baseArtifacts ;;
  let resetStorage := negb (Settings.disableStorageReset (settings options)) in
  when resetStorage (call (ClearDataForOrigin (requestedUrl options))) ;;
  disposeDriver ;;
  ret (gathererResults, baseArtifacts).

(** [run].  The promise of [collectArtifacts] is returned from inside the
    [try] without being awaited, so a rejection of it passes the [catch]
    by and becomes the rejection of [run].  In the [catch] the disposal is
    started but not awaited: the disconnect call is issued, its outcome
    is dropped. *)
Definition run (passes : list PassConfig.t) (options : RunOptions)
  : M Artifacts.t :=
  fun s =>
    match run_try passes options s with
    | (Ok (gathererResults, baseArtifacts), s') =>
        collectArtifacts gathererResults baseArtifacts s'
    | (Throw err, s') =>
        (* cleanup on error *)
        let (_, s'') := disposeDriver s' in
        (Throw err, s'')
    end.

End GatherRunner.

Arguments Session {env}.
Arguments M {env} A.

(* ================================================================== *)
(** * Vocabulary of the specification *)

(** [s] starts with [p]. *)
Definition startsWith (p s : string) : Prop := exists rest, s = (p ++ rest)%string.

(** [s] contains [needle]. *)
Definition contains (needle s : string) : Prop :=
  exists before after, s = (before ++ needle ++ after)%string.

(** The failure reasons that count as a DNS failure. *)
Definition dnsReason (netErr : string) : Prop :=
  netErr = "net::ERR_NAME_NOT_RESOLVED"
  \/ netErr = "net::ERR_NAME_RESOLUTION_FAILED"
  \/ startsWith "net::ERR_DNS_" netErr.

(** [text] is the decimal numeral of the natural number [n]: decimal
    digits only, at least one, the first of them a zero only when it is
    the only one, and they stand for [n]. *)
Definition numeral (text : string) (n : Z) : Prop :=
  digitsValue 0 text = Some n
  /\ text <> ""
  /\ forall rest, text = String "0" rest -> rest = "".

(** [text] is the integer [z] written out: its decimal numeral, after a
    minus sign when it is negative. *)
Definition rendersAs (text : string) (z : Z) : Prop :=
  if (z <? 0)%Z
  then exists digits, text = String "-" digits /\ numeral digits (- z)
  else numeral text z.

Definition isRejected (p : Settled) : Prop :=
  match p with Resolved _ => False | Rejected _ => True end.

(** The error [collectArtifacts] throws for a gatherer without artifact. *)
Definition noArtifact (gathererName : string) : Value :=
  Error (gathererName ++ " failed to provide an artifact.").

(** The events a computation added to the log. *)
Definition logged {env : Env} (s s' : Session) (events : list Event) : Prop :=
  calls s' = calls s ++ events.

Definition isHook (phase : Phase) (e : Event) : Prop :=
  match e, phase with
  | Hooked BeforePass _ _, BeforePass => True
  | Hooked Pass _ _, Pass => True
  | Hooked AfterPass _ _, AfterPass => True
  | _, _ => False
  end.

(** The hook invocations in a log, in order. *)
Fixpoint hooks (events : list Event) : list (Phase * string) :=
  match events with
  | [] => []
  | Hooked phase name _ :: rest => (phase, name) :: hooks rest
  | Called _ _ :: rest => hooks rest
  end.

(** The hooks of one phase for the configured gatherers, in order. *)
Definition phaseHooks (phase : Phase) (gatherers : list GathererDefn.t)
  : list (Phase * string) :=
  map (fun g => (phase, Gatherer.name (GathererDefn.instance g))) gatherers.

Definition isDisconnect (e : Event) : Prop :=
  match e with Called Disconnect _ => True | _ => False end.

(** A driver call that threw, [disconnect] apart (what it throws is
    handled by [disposeDriver]). *)
Definition failedStep (e : Event) : Prop :=
  match e with
  | Called Disconnect _ => False
  | Called _ (Throw _) => True
  | _ => False
  end.

(** The final URL of the first page load (a [gotoURL] that waits for the
    load event) in a log. *)
Fixpoint firstPageLoad (events : list Event) : option string :=
  match events with
  | [] => None
  | Called c r :: rest =>
      match c return result (Response c) -> option string with
      | GotoURL _ (WaitForLoad _ _) =>
          fun r => match r with
                   | Ok finalUrl => Some finalUrl
                   | Throw _ => firstPageLoad rest
                   end
      | _ => fun _ => firstPageLoad rest
      end r
  | Hooked _ _ _ :: rest => firstPageLoad rest
  end.

(** The first devtools log the driver handed over in a log of calls. *)
Fixpoint firstDevtoolsLog (events : list Event) : option DevtoolsLog :=
  match events with
  | [] => None
  | Called c r :: rest =>
      match c return result (Response c) -> option DevtoolsLog with
      | EndDevtoolsLog =>
          fun r => match r with
                   | Ok devtoolsLog => Some devtoolsLog
                   | Throw _ => firstDevtoolsLog rest
                   end
      | _ => fun _ => firstDevtoolsLog rest
      end r
  | Hooked _ _ _ :: rest => firstDevtoolsLog rest
  end.

(* ================================================================== *)
(** * Vocabulary of the proofs *)

(** The kinds of events the properties below tell apart. *)
Inductive Kind :=
| Plain                       (* a driver call other than the three below *)
| PageLoad                    (* [gotoURL] waiting for the load event *)
| LogEnd                      (* [endDevtoolsLog] *)
| Disposal                    (* [disconnect] *)
| HookOf (phase : Phase).

Definition callKind (c : DriverCall) : Kind :=
  match c with
  | GotoURL _ (WaitForLoad _ _) => PageLoad
  | EndDevtoolsLog => LogEnd
  | Disconnect => Disposal
  | _ => Plain
  end.

Definition kind (e : Event) : Kind :=
  match e with
  | Called c _ => callKind c
  | Hooked phase _ _ => HookOf phase
  end.

(** No driver call other than [disconnect] threw. *)
Definition benign (e : Event) : Prop := ~ failedStep e.

(** A driver call that is neither a page load, nor the end of a devtools
    log, nor a disconnect. *)
Definition plain (e : Event) : Prop := kind e = Plain.

(** The log of a pass that got as far as the load-error check: network
    setup, the [beforePass] hooks, the start of the recording, the page
    load, the [pass] hooks, the end of the recording. *)
Definition loadedLog (c loaded : PassContext.t) (loadData : LoadData.t)
    (events : list Event) : Prop :=
  let gatherers := PassConfig.gatherers (PassContext.passConfig c) in
  exists setup before recording loadContext passed ending,
    events
    = setup ++ before ++ recording
      ++ Called (GotoURL (PassContext.url c)
                   (WaitForLoad (PassConfig.recordTrace (PassContext.passConfig c))
                                loadContext))
                (Ok (PassContext.url loaded))
      :: passed ++ ending
      ++ [Called EndDevtoolsLog (Ok (LoadData.devtoolsLog loadData));
          Called (SetThrottling (PassContext.settings c) ThrottlingOff) (Ok tt)]
    /\ PassContext.passConfig loadContext = PassContext.passConfig c
    /\ Forall plain setup
    /\ Forall (isHook BeforePass) before
    /\ hooks before = phaseHooks BeforePass gatherers
    /\ Forall plain recording
    /\ Forall (isHook Pass) passed
    /\ hooks passed = phaseHooks Pass gatherers
    /\ Forall plain ending.

(** The user agent entry [run] looks for in the first devtools log. *)
Definition sendsUserAgent (entry : LogEntry.t) : Prop :=
  LogEntry.method entry = "Network.requestWillBeSent"
  /\ exists userAgent,
      get "User-Agent" (LogEntry.headers entry) = Some userAgent
      /\ userAgent <> "".

(** Neither a page load nor the end of a devtools log. *)
Definition quiet (e : Event) : Prop := kind e <> PageLoad /\ kind e <> LogEnd.

(** What [disposeDriver] makes of the outcome of the disconnect. *)
Definition disposal (r : result unit) : result unit :=
  match r with
  | Throw Undefined => Throw (propertyOfNothing "message" Undefined)
  | Throw Null => Throw (propertyOfNothing "message" Null)
  | _ => Ok tt
  end.

(** A disconnect that rejected with something the handler of
    [disposeDriver] cannot read the message of. *)
Definition failedDisposal (e : Event) : Prop :=
  match e with
  | Called Disconnect (Throw Undefined) => True
  | Called Disconnect (Throw Null) => True
  | _ => False
  end.

(** The log ends with a disconnect that [disposeDriver] got over. *)
Definition disposed (events : list Event) : Prop :=
  exists before disconnected,
    events = before ++ [Called Disconnect disconnected]
    /\ ~ failedDisposal (Called Disconnect disconnected).

(** A computation whose result and added events satisfy [Q]. *)
Definition traced {env : Env} {A} (Q : result A -> list Event -> Prop) (m : M A) : Prop :=
  forall s, exists events, logged s (snd (m s)) events /\ Q (fst (m s)) events.

(** All added events are of one of the given kinds. *)
Definition within {env : Env} {A} (kinds : list Kind) (m : M A) : Prop :=
  traced (fun _ events => Forall (fun e => In (kind e) kinds) events) m.

(** The computation returns after benign events only, or throws what the
    last driver call it made threw. *)
Definition tidyOutcome {A} (r : result A) (events : list Event) : Prop :=
  match r with
  | Ok _ => Forall benign events
  | Throw err =>
      exists before c,
        events = before ++ [Called c (Throw err)]
        /\ failedStep (Called c (Throw err))
        /\ Forall benign before
  end.

Definition tidy {env : Env} {A} (m : M A) : Prop := traced tidyOutcome m.

(** The outcome of the body of [run]'s [try]: it returns after benign
    events that end with the disposal, or throws what the last driver call
    threw, or what the disposal made of the rejection of the disconnect. *)
Definition triedOutcome {A} (r : result A) (events : list Event) : Prop :=
  match r with
  | Ok _ => Forall benign events /\ disposed events
  | Throw err =>
      (exists before c,
          events = before ++ [Called c (Throw err)]
          /\ failedStep (Called c (Throw err))
          /\ Forall benign before)
      \/ (exists before thrown,
             events = before ++ [Called Disconnect (Throw thrown)]
             /\ (thrown = Undefined \/ thrown = Null)
             /\ err = propertyOfNothing "message" thrown
             /\ Forall benign before)
  end.

(** Everything of the base artifacts but the warnings. *)
Definition core (b : BaseArtifacts.t) : BaseArtifacts.t :=
  BaseArtifacts.with_warnings [] b.

(** Two states of a pass context that differ at most in the warnings and in
    the gatherer options. *)
Definition sameButWarnings (c c' : PassContext.t) : Prop :=
  PassContext.url c' = PassContext.url c
  /\ PassContext.settings c' = PassContext.settings c
  /\ PassContext.passConfig c' = PassContext.passConfig c
  /\ core (PassContext.baseArtifacts c') = core (PassContext.baseArtifacts c).

(** Every history is continued, none is lost or rewritten. *)
Definition continues (results results' : GathererResults) : Prop :=
  forall name history,
    get name results = Some history ->
    exists more, get name results' = Some (history ++ more).

(** A hook phase has run to its end: one hook event per configured
    gatherer, in order, and nothing else. *)
Definition phaseRan {env : Env} (phase : Phase) (gatherers : list GathererDefn.t)
    (c c' : PassContext.t) (s s' : Session) (events : list Event) : Prop :=
  logged s s' events
  /\ hooks events = phaseHooks phase gatherers
  /\ Forall (isHook phase) events
  /\ sameButWarnings c c'.

(** The names of the configured gatherers. *)
Definition names (gatherers : list GathererDefn.t) : list string :=
  map (fun g => Gatherer.name (GathererDefn.instance g)) gatherers.

(** What the loop does with the result of a seen gatherer and with the
    first entry of an unseen one. *)
Definition collected (name : string) (v : Value)
    (entries : list (string * list Settled)) (r : result (Obj Value)) : Prop :=
  match r with
  | Ok final => get name final = Some v
  | Throw err =>
      exists other,
        other <> name /\ In other (map fst entries) /\ err = noArtifact other
  end.

(** The outcome of [collectArtifacts] for a gatherer whose stored value is
    [v]: the bundle holds [v] under its name, unless another gatherer
    failed to provide an artifact; and there is a bundle when every
    gatherer provides one. *)
Definition assembles {env : Env} (name : string) (v : Value)
    (gathererResults : GathererResults) (baseArtifacts : BaseArtifacts.t)
    (s : Session) : Prop :=
  match collectArtifacts gathererResults baseArtifacts s with
  | (Ok artifacts, _) => get name (Artifacts.gathered artifacts) = Some v
  | (Throw err, _) =>
      exists other,
        other <> name /\ In other (map fst gathererResults)
        /\ err = noArtifact other
  end
  /\ (Forall (fun entry => artifactOf (snd entry) <> Undefined) gathererResults ->
      exists artifacts s',
        collectArtifacts gathererResults baseArtifacts s = (Ok artifacts, s')).

(** The base artifacts with some warnings pushed, nothing else changed. *)
Definition appended (b b' : BaseArtifacts.t) : Prop :=
  exists pushed,
    b' = BaseArtifacts.with_warnings
           (BaseArtifacts.LighthouseRunWarnings b ++ pushed) b.

(** A pass context after hooks have run on it: the same pass, the same URL,
    possibly more warnings. *)
Definition grown (c c' : PassContext.t) : Prop :=
  PassContext.url c' = PassContext.url c
  /\ PassContext.settings c' = PassContext.settings c
  /\ PassContext.passConfig c' = PassContext.passConfig c
  /\ appended (PassContext.baseArtifacts c) (PassContext.baseArtifacts c').

(** What a pushing phase ([pass], [afterPass]) leaves in the results. *)
Definition pushed (phase : Phase) (gatherers : list GathererDefn.t)
    (results results' : GathererResults) (events : list Event) : Prop :=
  (forall name, ~ In name (names gatherers) ->
     get name results' = get name results)
  /\ ((forall name, In name (names gatherers) -> In name (map fst results)) ->
      map fst results' = map fst results)
  /\ (NoDup (names gatherers) ->
      forall name, In name (names gatherers) ->
      exists outcome,
        In (Hooked phase name outcome) events
        /\ get name results'
           = Some (orEmpty (get name results) ++ [outcome])).

(** The saving of a pass's devtools log and trace into the base artifacts,
    as [runPass] does it. *)
Definition recorded (passName : string) (loadData : LoadData.t)
    (b : BaseArtifacts.t) : BaseArtifacts.t :=
  let b :=
    BaseArtifacts.with_devtoolsLogs
      (set passName (LoadData.devtoolsLog loadData) (BaseArtifacts.devtoolsLogs b))
      b in
  match LoadData.trace loadData with
  | Some trace =>
      BaseArtifacts.with_traces (set passName trace (BaseArtifacts.traces b)) b
  | None => b
  end.

(** An event that is not one of the driver calls picked out by [bad]. *)
Definition never (bad : DriverCall -> bool) (e : Event) : Prop :=
  match e with
  | Called c _ => bad c = false
  | Hooked _ _ _ => True
  end.

(** The driver calls the runner makes only under a condition, and the
    disconnect. *)
Definition conditional (c : DriverCall) : bool :=
  match c with
  | ClearDataForOrigin _ | CleanBrowserCaches | BeginTrace _ | EndTrace
  | Disconnect => true
  | _ => false
  end.

(** [clearDataForOrigin] and [cleanBrowserCaches] *)
Definition clearsStorage (c : DriverCall) : bool :=
  match c with
  | ClearDataForOrigin _ | CleanBrowserCaches => true
  | _ => false
  end.

(** [beginTrace] and [endTrace] *)
Definition tracing (c : DriverCall) : bool :=
  match c with
  | BeginTrace _ | EndTrace => true
  | _ => false
  end.

(** [disconnect] *)
Definition disconnects (c : DriverCall) : bool :=
  match c with
  | Disconnect => true
  | _ => false
  end.

(** All added events satisfy [P], whatever the outcome. *)
Definition only {env : Env} {A} (P : Event -> Prop) (m : M A) : Prop :=
  traced (fun _ events => Forall P events) m.

(** The calls a pass makes under a condition are not among the [bad]
    ones. *)
Definition passAvoids (bad : DriverCall -> bool) (settings : Settings.t)
    (passConfig : PassConfig.t) : Prop :=
  (negb (Settings.disableStorageReset settings)
   && PassConfig.recordTrace passConfig
   && PassConfig.useThrottling passConfig = true ->
   bad CleanBrowserCaches = false)
  /\ (PassConfig.recordTrace passConfig = true ->
      bad (BeginTrace settings) = false /\ bad EndTrace = false).

(** The log of a run ends with the one disconnect of the run. *)
Definition disconnectedOnce (events : list Event) : Prop :=
  exists before outcome,
    events = before ++ [Called Disconnect outcome]
    /\ Forall (never disconnects) before.

(** The log ends with a disconnect that rejected with [undefined] or
    [null], of which the disposal made the error [err]; there is no other
    disconnect before it. *)
Definition disposalFailed (err : Value) (events : list Event) : Prop :=
  exists before thrown,
    events = before ++ [Called Disconnect (Throw thrown)]
    /\ (thrown = Undefined \/ thrown = Null)
    /\ err = propertyOfNothing "message" thrown
    /\ Forall (never disconnects) before.

(** The body of [run]'s [try]: it returns having disconnected once, at the
    very end; it throws without having disconnected, or because the
    disposal at its very end failed. *)
Definition disconnectsOnReturn {A} (r : result A) (events : list Event) : Prop :=
  match r with
  | Ok _ => disconnectedOnce events
  | Throw err => Forall (never disconnects) events \/ disposalFailed err events
  end.

(** The log of a run whose disposal failed: the disconnect that failed,
    then the one of the clean-up, and none before. *)
Definition disconnectedTwice (err : Value) (events : list Event) : Prop :=
  exists before thrown disconnected,
    events = before ++ [Called Disconnect (Throw thrown);
                        Called Disconnect disconnected]
    /\ (thrown = Undefined \/ thrown = Null)
    /\ err = propertyOfNothing "message" thrown
    /\ Forall (never disconnects) before.

(** The hooks of one pass, in the order they are invoked; the [afterPass]
    hooks are left out when the pass ended in a page-load error. *)
Definition passHooks (afterPassRan : bool) (passConfig : PassConfig.t)
  : list (Phase * string) :=
  let gatherers := PassConfig.gatherers passConfig in
  phaseHooks BeforePass gatherers
  ++ phaseHooks Pass gatherers
  ++ (if afterPassRan then phaseHooks AfterPass gatherers else []).

(** The hooks of a run, pass after pass. *)
Definition runHooks (afterPassRan : list bool) (passes : list PassConfig.t)
  : list (Phase * string) :=
  List.concat (map (fun pass => passHooks (fst pass) (snd pass))
              (combine afterPassRan passes)).

(** What the first pass adds to the base artifacts, given the devtools log
    of the pass, the final URL, the manifest and the stacks. *)
Definition firstPassBase (devtoolsLog : DevtoolsLog) (finalUrl : string)
    (manifest : option Value) (stacks : list Value) (b : BaseArtifacts.t)
  : BaseArtifacts.t :=
  (match find isUserAgentEntry devtoolsLog with
   | Some entry =>
       BaseArtifacts.with_NetworkUserAgent
         (orDefault (get "User-Agent" (LogEntry.headers entry)))
   | None => fun base => base
   end)
    (BaseArtifacts.with_Stacks stacks
       (BaseArtifacts.with_WebAppManifest manifest
          (BaseArtifacts.with_finalUrl finalUrl b))).

(** The fields of the base artifacts that [run] settles before the first
    pass. *)
Definition sameHost (b b' : BaseArtifacts.t) : Prop :=
  BaseArtifacts.fetchTime b' = BaseArtifacts.fetchTime b
  /\ BaseArtifacts.TestedAsMobileDevice b' = BaseArtifacts.TestedAsMobileDevice b
  /\ BaseArtifacts.HostUserAgent b' = BaseArtifacts.HostUserAgent b
  /\ BaseArtifacts.BenchmarkIndex b' = BaseArtifacts.BenchmarkIndex b
  /\ BaseArtifacts.settings b' = BaseArtifacts.settings b.

(** Where the devtools logs of the base artifacts come from: each was
    there before, or is what the driver handed over in one of the given
    passes; and no pass is without a log. *)
Definition logsFrom (passes : list PassConfig.t) (events : list Event)
    (before after : Obj DevtoolsLog) : Prop :=
  forall name,
    match get name after with
    | Some devtoolsLog =>
        get name before = Some devtoolsLog
        \/ (In name (map PassConfig.passName passes)
            /\ In (Called EndDevtoolsLog (Ok devtoolsLog)) events)
    | None =>
        get name before = None
        /\ ~ In name (map PassConfig.passName passes)
    end.

(** The same for the traces, which only the passes that record one leave. *)
Definition tracesFrom (passes : list PassConfig.t) (events : list Event)
    (before after : Obj Trace.t) : Prop :=
  forall name,
    match get name after with
    | Some trace =>
        get name before = Some trace
        \/ exists passConfig,
            In passConfig passes
            /\ PassConfig.passName passConfig = name
            /\ PassConfig.recordTrace passConfig = true
            /\ In (Called EndTrace (Ok trace)) events
    | None =>
        get name before = None
        /\ forall passConfig,
            In passConfig passes ->
            PassConfig.passName passConfig = name ->
            PassConfig.recordTrace passConfig = false
    end.


(** [gotoURL] *)
Definition navigates (c : DriverCall) : bool :=
  match c with
  | GotoURL _ _ => true
  | _ => false
  end.

(** The navigations in a log, in order: the URL the driver was sent to,
    and whether this was a page load (waiting for the load event) or the
    move to a blank page. *)
Fixpoint navigations (events : list Event) : list (string * bool) :=
  match events with
  | [] => []
  | Called (GotoURL url (WaitForLoad _ _)) _ :: rest =>
      (url, true) :: navigations rest
  | Called (GotoURL url WaitForNavigated) _ :: rest =>
      (url, false) :: navigations rest
  | _ :: rest => navigations rest
  end.

(** The navigations of a run's passes: every pass but the first starts
    from its blank page, and every pass loads the requested URL. *)
Fixpoint runNavigations {env : Env} (options : RunOptions) (isFirstPass : bool)
    (passes : list PassConfig.t) : list (string * bool) :=
  match passes with
  | [] => []
  | passConfig :: rest =>
      (if isFirstPass then []
       else [(match PassConfig.blankPage passConfig with
              | Some url => url
              | None => defaultBlankPage
              end, false)])
      ++ (requestedUrl options, true)
      :: runNavigations options false rest
  end.

(** [cleanBrowserCaches] *)
Definition cleansCaches (c : DriverCall) : bool :=
  match c with
  | CleanBrowserCaches => true
  | _ => false
  end.

(** What [getWebAppManifest] makes of the driver's answer. *)
Definition parsedManifest {env : Env} (response : option ManifestResponse.t)
    (documentUrl : string) : option Value :=
  match response with
  | None => None
  | Some response =>
      Some (manifestParser (ManifestResponse.data response)
                           (ManifestResponse.url response)
                           documentUrl)
  end.

(** The artifact of a history of phase results, in the words of the
    runner's documentation: the error of the first phase that rejected;
    with no rejection, the last defined value, and [undefined] when no
    phase produced one. *)
Inductive isArtifactOf : list Settled -> Value -> Prop :=
| artifact_rejection (values : list Value) (reason : Value)
    (later : list Settled) :
    isArtifactOf (map Resolved values ++ Rejected reason :: later) reason
| artifact_last_defined (before after : list Value) (v : Value) :
    v <> Undefined ->
    Forall (fun later => later = Undefined) after ->
    isArtifactOf (map Resolved (before ++ v :: after)) v
| artifact_none (values : list Value) :
    Forall (fun v => v = Undefined) values ->
    isArtifactOf (map Resolved values) Undefined.



(** The context and the session with which the loop of [run] starts each
    of its passes, for as long as the passes return. *)
Fixpoint passStarts {env : Env} (options : RunOptions)
    (passes : list PassConfig.t) (isFirstPass : bool)
    (gathererResults : GathererResults) (baseArtifacts : BaseArtifacts.t)
    (s : Session) : list (PassContext.t * Session) :=
  match passes with
  | [] => []
  | passConfig :: rest =>
      let passContext :=
        PassContext.mk (requestedUrl options) (settings options) passConfig
                       baseArtifacts None in
      match when (negb isFirstPass)
                 (loadBlank (PassConfig.blankPage passConfig)) s with
      | (Ok _, started) =>
          (passContext, started)
          :: match runPass passContext started with
             | (Ok (passContext, passResults), s) =>
                 match (if isFirstPass
                        then firstPassExtras passConfig passContext
                               (PassContext.baseArtifacts passContext)
                        else ret (PassContext.baseArtifacts passContext)) s with
                 | (Ok baseArtifacts, s) =>
                     passStarts options rest false
                       (assign gathererResults passResults) baseArtifacts s
                 | (Throw _, _) => []
                 end
             | (Throw _, _) => []
             end
      | (Throw _, _) => []
      end
  end.

(** The same from the start of [run]: the driver is connected, the base
    artifacts are built and the driver is set up before the first pass. *)
Definition runStarts {env : Env} (passes : list PassConfig.t)
    (options : RunOptions) (s : Session) : list (PassContext.t * Session) :=
  match bind (call Connect) (fun _ =>
        bind (getBaseArtifacts options) (fun baseArtifacts =>
        bind (loadBlank None) (fun _ =>
        bind (call GetBenchmarkIndex) (fun benchmarkIndex =>
        bind (setupDriver options) (fun _ =>
        ret (BaseArtifacts.with_BenchmarkIndex benchmarkIndex
                                               baseArtifacts)))))) s with
  | (Ok baseArtifacts, s) => passStarts options passes true [] baseArtifacts s
  | (Throw _, _) => []
  end.

(* ================================================================== *)
(** * A small concrete environment, for running the model *)

Module Sample.

(** The session: where the page load ends up, the devtools log of the
    pass, whether the driver is online, whether connecting fails. *)
Record world := mkWorld {
  redirectTo : string;
  requests : DevtoolsLog;
  isOnline : bool;
  connectFails : bool
}.

Definition driver (c : DriverCall) (w : world)
  : result (Response c) * world :=
  match c return result (Response c) * world with
  | Connect =>
      if connectFails w then (Throw (Error "connect failed"), w)
      else (Ok tt, w)
  | GetBrowserVersion =>
      (Ok "Mozilla/5.0 (Linux; Android 6.0.1; Nexus 5) Mobile Safari/537.36", w)
  | GetBenchmarkIndex => (Ok 1000%Z, w)
  | GotoURL url WaitForNavigated => (Ok url, w)
  | GotoURL _ (WaitForLoad _ _) => (Ok (redirectTo w), w)
  | EndTrace => (Ok (Trace.mk []), w)
  | EndDevtoolsLog => (Ok (requests w), w)
  | GetAppManifest => (Ok None, w)
  | StacksGatherer => (Ok [], w)
  | _ => (Ok tt, w)
  end.

(** Gatherer 1 fails in [beforePass] and produces values afterwards; any
    other gatherer only produces a value in [afterPass]. *)
Definition beforePass (g : Gatherer.t) (_ : PassContext.t) (w : world)
  : HookRun world :=
  match Gatherer.ident g with
  | 1 => mkHookRun (Rejected (Error "beforePass failed")) [] w
  | _ => mkHookRun (Resolved Undefined) [] w
  end.

Definition pass (g : Gatherer.t) (_ : PassContext.t) (w : world)
  : HookRun world :=
  match Gatherer.ident g with
  | 1 => mkHookRun (Resolved (Object 2)) [] w
  | _ => mkHookRun (Resolved Undefined) [] w
  end.

Definition afterPass (g : Gatherer.t) (_ : PassContext.t) (_ : LoadData.t)
    (w : world) : HookRun world :=
  match Gatherer.ident g with
  | 0 => mkHookRun (Resolved (Object 1)) [] w
  | 1 => mkHookRun (Resolved (Object 3)) [] w
  | _ => mkHookRun (Resolved (Object 4)) [] w
  end.

(** The URL up to its fragment. *)
Fixpoint stripFragment (u : string) : string :=
  match u with
  | EmptyString => EmptyString
  | String c rest =>
      if Ascii.eqb c "#"%char then EmptyString
      else String c (stripFragment rest)
  end.

Definition equalWithExcludedFragments (a b : string) : bool :=
  stripFragment a =? stripFragment b.

Definition hasErrorStatusCode (r : NetworkRequest.t) : bool :=
  (400 <=? NetworkRequest.statusCode r)%Z.

Definition friendlyMessage (e : LHError) : string :=
  match code e with
  | NO_DOCUMENT_REQUEST => "No document request"
  | DNS_FAILURE => "DNS servers could not resolve the provided domain."
  | FAILED_DOCUMENT_REQUEST => "The document request failed"
  | ERRORED_DOCUMENT_REQUEST => "Unable to reliably load the page"
  end.

(** One record per logged request: its URL, the failure text if any, and
    the status. *)
Definition recordsFromLogs (log : DevtoolsLog) : list NetworkRequest.t :=
  map (fun entry =>
         let h := LogEntry.headers entry in
         NetworkRequest.mk
           (orDefault (get "url" h))
           (truthy (get "failed" h))
           (orDefault (get "failed" h))
           (if truthy (get "notFound" h) then 404%Z else 200%Z))
      log.

Definition env : Env :=
  @mkEnv world driver isOnline beforePass pass afterPass
         equalWithExcludedFragments hasErrorStatusCode friendlyMessage
         recordsFromLogs (fun _ _ _ => Null) "about:blank"
         (fun _ => []) (fun _ => "2019-06-01T00:00:00.000Z").

Definition settings : Settings.t :=
  Settings.mk None false None None.

Definition options : RunOptions :=
  mkRunOptions "http://a.test/" settings.

Definition gatherer (name : string) (ident : nat) : GathererDefn.t :=
  GathererDefn.mk (Gatherer.mk name ident) None.

Definition defaultPass : PassConfig.t :=
  PassConfig.mk "defaultPass" [gatherer "A" 0; gatherer "B" 1]
                true true None None.

Definition offlinePass : PassConfig.t :=
  PassConfig.mk "offlinePass" [gatherer "C" 2] false false None None.

Definition request (url : string) : LogEntry.t :=
  LogEntry.mk "Network.requestWillBeSent"
              [("url", url); ("User-Agent", "Chrome-Lighthouse")].

Definition failedRequest (url reason : string) : LogEntry.t :=
  LogEntry.mk "Network.requestWillBeSent" [("url", url); ("failed", reason)].

(** A session in which [http://a.test/] redirects to [http://a.test/b]. *)
Definition redirecting : @Session env :=
  @mkSession env (mkWorld "http://a.test/b" [request "http://a.test/b"] true false) [].

(** A session in which the page does not resolve. *)
Definition unresolvable : @Session env :=
  @mkSession env
    (mkWorld "http://a.test/"
             [failedRequest "http://a.test/" "net::ERR_NAME_NOT_RESOLVED"]
             true false) [].

(** A session whose driver cannot connect. *)
Definition unreachable : @Session env :=
  @mkSession env (mkWorld "http://a.test/" [] true true) [].

Definition baseArtifacts : BaseArtifacts.t :=
  BaseArtifacts.mk "2019-06-01T00:00:00.000Z" [] true "" "" 0 None [] [] []
                   settings (ArtifactsURL.mk "http://a.test/" "") [].

Definition passContext : PassContext.t :=
  PassContext.mk "http://a.test/" settings defaultPass baseArtifacts None.


(** Options that keep the storage of the origin. *)
Definition keepStorage : RunOptions :=
  mkRunOptions "http://a.test/" (Settings.mk None true None None).

(** The context of a pass that records no trace. *)
Definition offlineContext : PassContext.t :=
  PassContext.mk "http://a.test/" settings offlinePass baseArtifacts None.

(** A driver whose [disconnect] rejects with [undefined]. *)
Definition stuckDriver (c : DriverCall) (w : world)
  : result (Response c) * world :=
  match c return result (Response c) * world with
  | Disconnect => (Throw Undefined, w)
  | c => driver c w
  end.

Definition stuckEnv : Env :=
  @mkEnv world stuckDriver isOnline beforePass pass afterPass
         equalWithExcludedFragments hasErrorStatusCode friendlyMessage
         recordsFromLogs (fun _ _ _ => Null) "about:blank"
         (fun _ => []) (fun _ => "2019-06-01T00:00:00.000Z").

(** A session with that driver. *)
Definition stuck : @Session stuckEnv :=
  @mkSession stuckEnv
    (mkWorld "http://a.test/b" [request "http://a.test/b"] true false) [].

End Sample.

Unset Implicit Arguments.

Example numberToString_404 : numberToString 404 = "404".
Proof. reflexivity. Qed.

Example numberToString_0 : numberToString 0 = "0".
Proof. reflexivity. Qed.

Example numberToString_negative : numberToString (-1) = "-1".
Proof. reflexivity. Qed.

(** Beyond 2^53 the digits are those of the nearest double, the shortest
    that identify it. *)
Example numberToString_2_64 :
  numberToString (2 ^ 64) = "18446744073709552000".
Proof. vm_compute. reflexivity. Qed.

Example numberToString_21_digits :
  numberToString (10 ^ 21 - 1) = "1e+21"
  /\ numberToString (10 ^ 20) = "100000000000000000000".
Proof. split; vm_compute; reflexivity. Qed.

(** From 1e21 the notation is the one with an exponent. *)
Example numberToString_1e21 :
  numberToString (10 ^ 21) = "1e+21"
  /\ numberToString (2 ^ 70) = "1.1805916207174113e+21".
Proof. split; vm_compute; reflexivity. Qed.

Example numberToString_overflow : numberToString (2 ^ 1024) = "Infinity".
Proof. vm_compute. reflexivity. Qed.

Example includes_android :
  includes "Android" "Mozilla/5.0 (Linux; Android 6.0.1; Nexus 5)" = true.
Proof. reflexivity. Qed.

(* ================================================================== *)
(** * Strings *)

Lemma prefix_startsWith (p s : string) :
  String.prefix p s = true <-> startsWith p s.
Proof.
  unfold startsWith. revert s.
  induction p as [|a p IH]; intros s.
  - destruct s; simpl; (split; [intros _; eexists; reflexivity | reflexivity]).
  - destruct s as [|b s]; simpl.
    + split; [discriminate | intros [rest E]; discriminate].
    + destruct (Ascii.ascii_dec a b) as [->|Hne].
      * rewrite IH. split; intros [rest E]; exists rest.
        -- now rewrite E.
        -- now inversion E.
      * split; [discriminate | intros [rest E]; inversion E; congruence].
Qed.

Lemma includes_contains (needle s : string) :
  includes needle s = true <-> contains needle s.
Proof.
  unfold contains.
  induction s as [|c s IH]; cbn [includes].
  - rewrite orb_false_r, prefix_startsWith. unfold startsWith. split.
    + intros [rest E]. now exists EmptyString, rest.
    + intros [before [after E]].
      destruct before; [now exists after | discriminate].
  - rewrite orb_true_iff, prefix_startsWith, IH. unfold startsWith. split.
    + intros [[rest E] | [before [after E]]].
      * now exists EmptyString, rest.
      * exists (String c before), after. simpl. now rewrite E.
    + intros [before [after E]]. destruct before as [|b before].
      * left. now exists after.
      * right. exists before, after. simpl in E. now inversion E.
Qed.

Lemma strictEq_iff (field : option string) (literal : string) :
  strictEq field literal = true <-> field = Some literal.
Proof.
  destruct field as [s|]; simpl.
  - rewrite String.eqb_eq. split; [now intros -> | now intros [= ->]].
  - split; discriminate.
Qed.

(* ================================================================== *)
(** * Numbers as text *)

Lemma digitValue_digitChar (d : Z) :
  (0 <= d <= 9)%Z -> digitValue (digitChar d) = Some d.
Proof.
  intros H.
  assert (E : (d = 0 \/ d = 1 \/ d = 2 \/ d = 3 \/ d = 4 \/ d = 5 \/ d = 6
               \/ d = 7 \/ d = 8 \/ d = 9)%Z) by lia.
  repeat (destruct E as [-> | E]; [reflexivity|]). now subst.
Qed.

Lemma digitValue_inv (c : ascii) (d : Z) :
  digitValue c = Some d -> (0 <= d <= 9)%Z /\ c = digitChar d.
Proof.
  unfold digitValue. cbv zeta.
  destruct ((48 <=? Z.of_nat (nat_of_ascii c)) && (Z.of_nat (nat_of_ascii c) <=? 57))%Z
    eqn:E; [|discriminate].
  apply andb_true_iff in E. destruct E as [E1 E2].
  apply Z.leb_le in E1, E2. intros [= <-]. split; [lia|].
  unfold digitChar.
  replace (48 + Z.to_nat (Z.of_nat (nat_of_ascii c) - 48))%nat
    with (nat_of_ascii c) by lia.
  now rewrite ascii_nat_embedding.
Qed.

Lemma digitsValue_app (a b : string) :
  forall acc,
    digitsValue acc (a ++ b)%string
    = match digitsValue acc a with
      | Some v => digitsValue v b
      | None => None
      end.
Proof.
  induction a as [|c a IH]; intros acc; simpl; [reflexivity|].
  destruct (digitValue c); [apply IH | reflexivity].
Qed.

Lemma tenth_fits (fuel : nat) (n : Z) :
  (10 <= n < 2 ^ (Z.of_nat (S fuel) + 1))%Z ->
  (0 <= n / 10 < 2 ^ (Z.of_nat fuel + 1))%Z.
Proof.
  intros H. split; [apply Z.div_pos; lia|].
  apply Z.div_lt_upper_bound; [lia|].
  replace (Z.of_nat (S fuel) + 1)%Z with (Z.succ (Z.of_nat fuel + 1)) in H by lia.
  rewrite Z.pow_succ_r in H by lia. lia.
Qed.

Lemma digitsOf_value (fuel : nat) :
  forall n,
    (0 <= n < 2 ^ (Z.of_nat fuel + 1))%Z ->
    digitsValue 0 (digitsOf fuel n) = Some n.
Proof.
  induction fuel as [|fuel IH]; intros n H.
  - change (2 ^ (Z.of_nat 0 + 1))%Z with 2%Z in H.
    cbn [digitsOf digitsValue]. rewrite Z.mod_small by lia.
    rewrite digitValue_digitChar by lia. f_equal.
  - cbn [digitsOf]. destruct (n <? 10)%Z eqn:E.
    + apply Z.ltb_lt in E. cbn [digitsValue].
      rewrite digitValue_digitChar by lia. f_equal.
    + apply Z.ltb_ge in E. rewrite digitsValue_app.
      rewrite IH by (apply tenth_fits; lia).
      cbn [digitsValue].
      pose proof (Z.mod_pos_bound n 10 ltac:(lia)) as Hm.
      rewrite digitValue_digitChar by lia.
      f_equal. pose proof (Z.div_mod n 10). lia.
Qed.

Lemma digitsOf_last (fuel : nat) (n : Z) : digitsOf fuel n <> "".
Proof.
  destruct fuel; cbn [digitsOf]; [discriminate|].
  destruct (n <? 10)%Z; [discriminate|].
  destruct (digitsOf fuel (n / 10)); discriminate.
Qed.

Lemma digitsOf_first (fuel : nat) :
  forall n rest,
    (0 <= n < 2 ^ (Z.of_nat fuel + 1))%Z ->
    digitsOf fuel n = String "0" rest -> rest = "".
Proof.
  induction fuel as [|fuel IH]; intros n rest H.
  - cbn [digitsOf]. now intros [= _ <-].
  - cbn [digitsOf]. destruct (n <? 10)%Z eqn:E; [now intros [= _ <-]|].
    apply Z.ltb_ge in E.
    assert (Hfits := tenth_fits fuel n (conj E (proj2 H))).
    pose proof (digitsOf_value fuel _ Hfits) as Hv.
    pose proof (digitsOf_last fuel (n / 10)) as Hl.
    destruct (digitsOf fuel (n / 10)) as [|c r] eqn:Ed; [congruence|].
    cbn [append]. intros [= -> _].
    rewrite (IH _ r Hfits Ed) in Hv.
    change (digitsValue 0 "0") with (Some 0%Z) in Hv.
    injection Hv as Hv.
    assert (1 <= n / 10)%Z by (apply Z.div_le_lower_bound; lia). lia.
Qed.

Lemma log2_fits (n : Z) :
  (0 <= n)%Z -> (0 <= n < 2 ^ (Z.of_nat (Z.to_nat (Z.log2 n)) + 1))%Z.
Proof.
  intros H. split; [exact H|].
  rewrite Z2Nat.id by apply Z.log2_nonneg.
  destruct (Z.eq_dec n 0) as [->|Hn]; [reflexivity|].
  replace (Z.log2 n + 1)%Z with (Z.succ (Z.log2 n)) by lia.
  apply Z.log2_spec. lia.
Qed.

Lemma decimal_numeral (n : Z) : (0 <= n)%Z -> numeral (decimal n) n.
Proof.
  intros H. pose proof (log2_fits n H) as Hf. unfold decimal.
  split; [now apply digitsOf_value|].
  split; [apply digitsOf_last|].
  intros rest. now apply digitsOf_first.
Qed.

Lemma numberToString_decimal (n : Z) :
  (- 2 ^ 53 < n < 2 ^ 53)%Z -> rendersAs (numberToString n) n.
Proof.
  intros H. unfold rendersAs, numberToString, unsignedToString.
  destruct (n <? 0)%Z eqn:E.
  - apply Z.ltb_lt in E.
    assert (E' : (- n <? 2 ^ 53)%Z = true) by (apply Z.ltb_lt; lia).
    rewrite E'. eexists. split; [reflexivity|]. apply decimal_numeral. lia.
  - apply Z.ltb_ge in E.
    assert (E' : (n <? 2 ^ 53)%Z = true) by (apply Z.ltb_lt; lia).
    rewrite E'. now apply decimal_numeral.
Qed.

Lemma digitsOf_fuel (f1 : nat) :
  forall f2 n,
    (0 <= n < 2 ^ (Z.of_nat f1 + 1))%Z ->
    (0 <= n < 2 ^ (Z.of_nat f2 + 1))%Z ->
    digitsOf f1 n = digitsOf f2 n.
Proof.
  induction f1 as [|f1 IH]; intros f2 n H1 H2.
  - change (2 ^ (Z.of_nat 0 + 1))%Z with 2%Z in H1.
    cbn [digitsOf]. rewrite Z.mod_small by lia.
    destruct f2; cbn [digitsOf]; [now rewrite Z.mod_small by lia|].
    assert (E : (n <? 10)%Z = true) by (apply Z.ltb_lt; lia). now rewrite E.
  - cbn [digitsOf]. destruct (n <? 10)%Z eqn:E.
    + destruct f2; cbn [digitsOf]; [|now rewrite E].
      apply Z.ltb_lt in E. now rewrite Z.mod_small by lia.
    + destruct f2; cbn [digitsOf].
      * change (2 ^ (Z.of_nat 0 + 1))%Z with 2%Z in H2.
        apply Z.ltb_ge in E. lia.
      * rewrite E. apply Z.ltb_ge in E. f_equal.
        apply IH; apply tenth_fits; lia.
Qed.

Lemma decimal_small (n : Z) :
  (0 <= n < 10)%Z -> decimal n = String (digitChar n) "".
Proof.
  intros H. unfold decimal. destruct (Z.to_nat (Z.log2 n)) eqn:Ef; cbn [digitsOf].
  - now rewrite Z.mod_small by lia.
  - assert (E : (n <? 10)%Z = true) by (apply Z.ltb_lt; lia). now rewrite E.
Qed.

Lemma decimal_large (n : Z) :
  (10 <= n)%Z ->
  decimal n = (decimal (n / 10) ++ String (digitChar (n mod 10)) "")%string.
Proof.
  intros H. unfold decimal.
  pose proof (log2_fits n ltac:(lia)) as Hf.
  destruct (Z.to_nat (Z.log2 n)) as [|fuel] eqn:Ef.
  - change (2 ^ (Z.of_nat 0 + 1))%Z with 2%Z in Hf. lia.
  - cbn [digitsOf].
    assert (E : (n <? 10)%Z = false) by (apply Z.ltb_ge; lia). rewrite E.
    f_equal. apply digitsOf_fuel.
    + apply tenth_fits. lia.
    + apply log2_fits. apply Z.div_pos; lia.
Qed.

Lemma digitsValue_decimal (text : string) :
  forall acc n,
    (0 < acc)%Z ->
    digitsValue acc text = Some n ->
    decimal n = (decimal acc ++ text)%string.
Proof.
  induction text as [|c rest IH]; intros acc n Hacc H; cbn [digitsValue] in H.
  - injection H as <-.
    clear. induction (decimal acc) as [|c r IHr]; simpl; congruence.
  - destruct (digitValue c) as [d|] eqn:Ed; [|discriminate].
    apply digitValue_inv in Ed. destruct Ed as [Hd ->].
    rewrite (IH (10 * acc + d)%Z n ltac:(lia) H).
    rewrite decimal_large by lia.
    replace ((10 * acc + d) / 10)%Z with acc
      by (apply (Z.div_unique _ 10 acc d); lia).
    replace ((10 * acc + d) mod 10)%Z with d
      by (apply (Z.mod_unique _ 10 acc d); lia).
    clear. induction (decimal acc) as [|c r IHr]; simpl; congruence.
Qed.

Lemma numeral_decimal (text : string) (n : Z) :
  numeral text n -> text = decimal n.
Proof.
  intros (Hv & Hne & Hzero).
  destruct text as [|c rest]; [congruence|].
  cbn [digitsValue] in Hv.
  destruct (digitValue c) as [d|] eqn:Ed; [|discriminate].
  apply digitValue_inv in Ed. destruct Ed as [Hd ->].
  replace (10 * 0 + d)%Z with d in Hv by lia.
  destruct (Z.eq_dec d 0) as [->|Hpos].
  - rewrite (Hzero rest eq_refl) in *. now injection Hv as <-.
  - rewrite (digitsValue_decimal rest d n ltac:(lia) Hv).
    now rewrite decimal_small by lia.
Qed.

Lemma rendersAs_unique (text text' : string) (z : Z) :
  rendersAs text z -> rendersAs text' z -> text = text'.
Proof.
  unfold rendersAs. destruct (z <? 0)%Z.
  - intros (digits & -> & H) (digits' & -> & H').
    now rewrite (numeral_decimal _ _ H), (numeral_decimal _ _ H').
  - intros H H'. now rewrite (numeral_decimal _ _ H), (numeral_decimal _ _ H').
Qed.

(* ================================================================== *)
(** * The network failure classifier *)

Section Classifier.

Context {env : Env}.

Lemma find_none_Forall (url : string) (records : list NetworkRequest.t) :
  Forall (fun r => equalWithExcludedFragments (NetworkRequest.url r) url = false)
         records ->
  find (fun r => equalWithExcludedFragments (NetworkRequest.url r) url) records
  = None.
Proof.
  induction 1 as [|r rs Hr _ IH]; simpl; [reflexivity|].
  now rewrite Hr.
Qed.

Lemma find_first_match (url : string) (before after : list NetworkRequest.t)
    (mainRecord : NetworkRequest.t) :
  Forall (fun r => equalWithExcludedFragments (NetworkRequest.url r) url = false)
         before ->
  equalWithExcludedFragments (NetworkRequest.url mainRecord) url = true ->
  find (fun r => equalWithExcludedFragments (NetworkRequest.url r) url)
       (before ++ mainRecord :: after)
  = Some mainRecord.
Proof.
  intros Hb Hm. induction Hb as [|r rs Hr _ IH]; simpl.
  - now rewrite Hm.
  - now rewrite Hr.
Qed.

Lemma dnsReason_test (netErr : string) :
  (netErr =? "net::ERR_NAME_NOT_RESOLVED")
  || (netErr =? "net::ERR_NAME_RESOLUTION_FAILED")
  || String.prefix "net::ERR_DNS_" netErr = true
  <-> dnsReason netErr.
Proof.
  unfold dnsReason.
  rewrite !orb_true_iff, !String.eqb_eq, prefix_startsWith. tauto.
Qed.

(** C1. [getPageLoadError] on any list of records and any URL: with no
    record whose URL equals the target ignoring the fragment it returns
    NO_DOCUMENT_REQUEST; otherwise, on the first such record, DNS_FAILURE
    when the record failed with one of the two resolution reasons or a
    reason starting with net::ERR_DNS_, FAILED_DOCUMENT_REQUEST with the
    raw reason when it failed otherwise, ERRORED_DOCUMENT_REQUEST with the
    status code as text when it did not fail but has an error status
    code, and no error in the remaining case.  The text of the status
    code is what a template literal makes of the number: for every code
    that JavaScript holds exactly (below 2^53 in absolute value), its
    decimal numeral without leading zeros, after a minus sign when it is
    negative. *)
Theorem getPageLoadError_truth_table
    (url : string) (networkRecords : list NetworkRequest.t) :
  (Forall (fun r => equalWithExcludedFragments (NetworkRequest.url r) url = false)
          networkRecords ->
   getPageLoadError url networkRecords
   = Some (mkLHError NO_DOCUMENT_REQUEST []))
  /\
  (forall before mainRecord after,
      networkRecords = before ++ mainRecord :: after ->
      Forall (fun r => equalWithExcludedFragments (NetworkRequest.url r) url = false)
             before ->
      equalWithExcludedFragments (NetworkRequest.url mainRecord) url = true ->
      let netErr := NetworkRequest.localizedFailDescription mainRecord in
      (NetworkRequest.failed mainRecord = true -> dnsReason netErr ->
       getPageLoadError url networkRecords = Some (mkLHError DNS_FAILURE []))
      /\
      (NetworkRequest.failed mainRecord = true -> ~ dnsReason netErr ->
       getPageLoadError url networkRecords
       = Some (mkLHError FAILED_DOCUMENT_REQUEST [("errorDetails", netErr)]))
      /\
      (NetworkRequest.failed mainRecord = false ->
       hasErrorStatusCode mainRecord = true ->
       let statusCode := NetworkRequest.statusCode mainRecord in
       getPageLoadError url networkRecords
       = Some (mkLHError ERRORED_DOCUMENT_REQUEST
                 [("statusCode", numberToString statusCode)])
       /\ ((- 2 ^ 53 < statusCode < 2 ^ 53)%Z ->
           rendersAs (numberToString statusCode) statusCode))
      /\
      (NetworkRequest.failed mainRecord = false ->
       hasErrorStatusCode mainRecord = false ->
       getPageLoadError url networkRecords = None)).
Proof.
  split.
  - intros Hnone. unfold getPageLoadError.
    now rewrite (find_none_Forall url networkRecords Hnone).
  - intros before mainRecord after -> Hbefore Hmain netErr.
    unfold getPageLoadError.
    rewrite (find_first_match url before after mainRecord Hbefore Hmain).
    fold netErr.
    pose proof (dnsReason_test netErr) as Hdns.
    destruct (NetworkRequest.failed mainRecord);
      destruct (hasErrorStatusCode mainRecord);
      destruct ((netErr =? "net::ERR_NAME_NOT_RESOLVED")
                || (netErr =? "net::ERR_NAME_RESOLUTION_FAILED")
                || String.prefix "net::ERR_DNS_" netErr) eqn:Htest;
      repeat split; intros; try reflexivity; try discriminate;
      try (now apply numberToString_decimal);
      try (exfalso; match goal with
                    | H : ~ dnsReason _ |- _ => apply H; now apply Hdns
                    | H : dnsReason _ |- _ => apply Hdns in H; discriminate
                    end).
Qed.

End Classifier.

(* ================================================================== *)
(** * The base artifacts builder *)

Section BaseArtifactsBuilder.

Context {env : Env}.

(** C7. Once the driver has reported the host user agent,
    [getBaseArtifacts] sets TestedAsMobileDevice to true exactly when
    emulatedFormFactor is 'mobile', or it is neither 'mobile' nor
    'desktop' and the host user agent contains "Android" or "Mobile"; a
    'desktop' setting gives false whatever the host user agent. *)
Theorem TestedAsMobileDevice_truth_table
    (options : RunOptions) (s : Session) (hostUserAgent : string) (w : World) :
  driver GetBrowserVersion (world s) = (Ok hostUserAgent, w) ->
  exists baseArtifacts s',
    getBaseArtifacts options s = (Ok baseArtifacts, s')
    /\ BaseArtifacts.HostUserAgent baseArtifacts = hostUserAgent
    /\ (let emulatedFormFactor := Settings.emulatedFormFactor (settings options) in
        (BaseArtifacts.TestedAsMobileDevice baseArtifacts = true <->
         emulatedFormFactor = Some "mobile"
         \/ (emulatedFormFactor <> Some "mobile"
             /\ emulatedFormFactor <> Some "desktop"
             /\ (contains "Android" hostUserAgent
                 \/ contains "Mobile" hostUserAgent)))
        /\ (emulatedFormFactor = Some "desktop" ->
            BaseArtifacts.TestedAsMobileDevice baseArtifacts = false)).
Proof.
  intros Hua.
  unfold getBaseArtifacts, bind, call, ask, ret. rewrite Hua.
  eexists. eexists. split; [reflexivity|].
  cbn [BaseArtifacts.HostUserAgent BaseArtifacts.TestedAsMobileDevice].
  split; [reflexivity|].
  set (emulatedFormFactor := Settings.emulatedFormFactor (settings options)).
  pose proof (strictEq_iff emulatedFormFactor "mobile") as Hm.
  pose proof (strictEq_iff emulatedFormFactor "desktop") as Hd.
  pose proof (includes_contains "Android" hostUserAgent) as Ha.
  pose proof (includes_contains "Mobile" hostUserAgent) as Hb.
  split.
  - rewrite orb_true_iff, andb_true_iff, negb_true_iff, orb_true_iff.
    rewrite Ha, Hb, Hm.
    destruct (strictEq emulatedFormFactor "desktop") eqn:Ed.
    + assert (Hdesk : emulatedFormFactor = Some "desktop") by now apply Hd.
      split.
      * intros [Hmob | [Hf _]]; [now left | discriminate].
      * intros [Hmob | (_ & Hnd & _)]; [now left | contradiction].
    + assert (Hnd : emulatedFormFactor <> Some "desktop").
      { intros E. apply Hd in E. discriminate. }
      split.
      * intros [Hmob | [_ Hhost]]; [now left|].
        destruct (strictEq emulatedFormFactor "mobile") eqn:Em.
        -- left. now apply Hm.
        -- right. repeat split; try assumption.
           intros E. apply Hm in E. discriminate.
      * intros [Hmob | (_ & _ & Hhost)]; [now left | right; now split].
  - intros Hdesk. rewrite Hdesk. reflexivity.
Qed.

End BaseArtifactsBuilder.

(* ================================================================== *)
(** * Plain objects *)

Section Objects.

Context {V : Type}.

Lemma get_set_same (k : string) (v : V) (o : Obj V) :
  get k (set k v o) = Some v.
Proof.
  induction o as [|[k' v'] o IH]; simpl.
  - now rewrite String.eqb_refl.
  - destruct (String.eqb k k') eqn:E; simpl; rewrite E; [reflexivity | exact IH].
Qed.

Lemma get_set_other (k k' : string) (v : V) (o : Obj V) :
  k <> k' -> get k (set k' v o) = get k o.
Proof.
  intros Hne. induction o as [|[k0 v0] o IH]; simpl.
  - apply String.eqb_neq in Hne. now rewrite Hne.
  - destruct (String.eqb k' k0) eqn:E; simpl.
    + apply String.eqb_eq in E. subst k0.
      apply String.eqb_neq in Hne. now rewrite Hne.
    + now rewrite IH.
Qed.

Lemma has_set_same (isDefined : V -> bool) (k : string) (v : V) (o : Obj V) :
  has isDefined k (set k v o) = isDefined v.
Proof. unfold has. now rewrite get_set_same. Qed.

Lemma has_set_other (isDefined : V -> bool) (k k' : string) (v : V) (o : Obj V) :
  k <> k' -> has isDefined k (set k' v o) = has isDefined k o.
Proof. intros Hne. unfold has. now rewrite get_set_other. Qed.

End Objects.

(* ================================================================== *)
(** * The artifact collector *)

Section Collector.

Context {env : Env}.

Lemma defined_true (v : Value) : defined v = true <-> v <> Undefined.
Proof. destruct v; simpl; split; congruence. Qed.

Lemma promiseAll_resolved (values : list Value) :
  promiseAll (map Resolved values) = Ok values.
Proof.
  induction values as [|v vs IH]; simpl; [reflexivity|]. now rewrite IH.
Qed.

(** With a rejection first, [Promise.all] rejects with its reason. *)
Lemma promiseAll_first_rejection (values : list Value) (reason : Value)
    (rest : list Settled) :
  promiseAll (map Resolved values ++ Rejected reason :: rest) = Throw reason.
Proof.
  induction values as [|v vs IH]; simpl; [reflexivity|]. now rewrite IH.
Qed.

Lemma filter_undefined (values : list Value) :
  Forall (fun v => v = Undefined) values -> filter defined values = [].
Proof.
  induction 1 as [|v vs Hv _ IH]; simpl; [reflexivity|]. now rewrite Hv.
Qed.

Lemma artifactOf_last_defined (before after : list Value) (v : Value) :
  defined v = true ->
  Forall (fun x => x = Undefined) after ->
  artifactOf (map Resolved (before ++ v :: after)) = v.
Proof.
  intros Hv Hafter. unfold artifactOf.
  rewrite promiseAll_resolved, filter_app. simpl. rewrite Hv.
  rewrite (filter_undefined after Hafter).
  now rewrite last_last.
Qed.

Lemma artifactOf_first_rejection (values : list Value) (reason : Value)
    (rest : list Settled) :
  artifactOf (map Resolved values ++ Rejected reason :: rest) = reason.
Proof. unfold artifactOf. now rewrite promiseAll_first_rejection. Qed.

Lemma collected_tail (name : string) (v : Value) (entry : string * list Settled)
    (entries : list (string * list Settled)) (r : result (Obj Value)) :
  collected name v entries r -> collected name v (entry :: entries) r.
Proof.
  destruct r as [final|err]; simpl; [auto|].
  intros (other & Hne & Hin & E). exists other. auto.
Qed.

Lemma collect_each_keeps (name : string) (v : Value) :
  defined v = true ->
  forall entries acc,
    get name acc = Some v ->
    collected name v entries (collect_each entries acc).
Proof.
  intros Hv. induction entries as [|[n h] entries IH]; intros acc Hacc.
  - exact Hacc.
  - cbn [collect_each].
    destruct (has defined n acc) eqn:Hseen.
    + apply collected_tail, IH, Hacc.
    + assert (Hne : name <> n).
      { intros ->. unfold has in Hseen. rewrite Hacc, Hv in Hseen. discriminate. }
      destruct (has defined n (set n (artifactOf h) acc)) eqn:Hnew; simpl.
      * apply collected_tail, IH. now rewrite get_set_other.
      * exists n. split; [congruence|]. split; [now left | reflexivity].
Qed.

Lemma collect_each_first (name : string) (history : list Settled) :
  defined (artifactOf history) = true ->
  forall entries acc,
    get name entries = Some history ->
    has defined name acc = false ->
    collected name (artifactOf history) entries (collect_each entries acc).
Proof.
  intros Hv. induction entries as [|[n h] entries IH]; intros acc Hget Hacc.
  - discriminate.
  - cbn [collect_each]. simpl in Hget.
    destruct (String.eqb name n) eqn:En.
    + apply String.eqb_eq in En. subst n. injection Hget as ->.
      rewrite Hacc, has_set_same, Hv. simpl.
      apply collected_tail, collect_each_keeps; [exact Hv|].
      apply get_set_same.
    + apply String.eqb_neq in En.
      destruct (has defined n acc) eqn:Hseen.
      * apply collected_tail, IH; assumption.
      * destruct (has defined n (set n (artifactOf h) acc)) eqn:Hnew; simpl.
        -- apply collected_tail, IH; [assumption|].
           now rewrite has_set_other.
        -- exists n. split; [congruence|]. split; [now left | reflexivity].
Qed.

Lemma collect_each_total (entries : list (string * list Settled)) :
  Forall (fun entry => artifactOf (snd entry) <> Undefined) entries ->
  forall acc, exists final, collect_each entries acc = Ok final.
Proof.
  induction 1 as [|[n h] entries Hh _ IH]; intros acc.
  - now exists acc.
  - cbn [collect_each]. destruct (has defined n acc); [apply IH|].
    rewrite has_set_same. apply defined_true in Hh. simpl in Hh.
    rewrite Hh. simpl. apply IH.
Qed.

(** [collectArtifacts] in terms of its loop. *)
Lemma collectArtifacts_unfold (gathererResults : GathererResults)
    (baseArtifacts : BaseArtifacts.t) (s : Session) :
  collectArtifacts gathererResults baseArtifacts s
  = match collect_each gathererResults [] with
    | Ok gathererArtifacts =>
        (Ok (Artifacts.mk
               (BaseArtifacts.with_Timing (getTimeEntries (world s))
                  (BaseArtifacts.with_warnings
                     (unique [] (BaseArtifacts.LighthouseRunWarnings baseArtifacts))
                     baseArtifacts))
               gathererArtifacts), s)
    | Throw err => (Throw err, s)
    end.
Proof.
  unfold collectArtifacts, bind, lift, ask, ret.
  destruct (collect_each gathererResults []); reflexivity.
Qed.

Lemma collectArtifacts_assembles (name : string) (history : list Settled)
    (gathererResults : GathererResults) (baseArtifacts : BaseArtifacts.t)
    (s : Session) :
  get name gathererResults = Some history ->
  inherited name = false ->
  defined (artifactOf history) = true ->
  assembles name (artifactOf history) gathererResults baseArtifacts s.
Proof.
  intros Hget Hown Hdef. unfold assembles.
  rewrite collectArtifacts_unfold. split.
  - pose proof (collect_each_first name history Hdef gathererResults []
                  Hget Hown) as H.
    destruct (collect_each gathererResults []); exact H.
  - intros Hall.
    destruct (collect_each_total gathererResults Hall []) as [final ->].
    eexists. eexists. reflexivity.
Qed.

(** C3. For a gatherer whose phase results all resolved, with [v] the last
    defined value among them (everything after it is [undefined]), and
    whose name is not that of a property inherited from
    [Object.prototype], [collectArtifacts] stores [v] as its artifact: the
    bundle holds [v] under its name, and the only way not to get a bundle
    is another gatherer without artifact; when every gatherer provides one
    there is a bundle. *)
Theorem collectArtifacts_last_defined_value
    (name : string) (before after : list Value) (v : Value)
    (gathererResults : GathererResults) (baseArtifacts : BaseArtifacts.t)
    (s : Session) :
  get name gathererResults = Some (map Resolved (before ++ v :: after)) ->
  inherited name = false ->
  defined v = true ->
  Forall (fun later => later = Undefined) after ->
  match collectArtifacts gathererResults baseArtifacts s with
  | (Ok artifacts, _) => get name (Artifacts.gathered artifacts) = Some v
  | (Throw err, _) =>
      exists other,
        other <> name /\ In other (map fst gathererResults)
        /\ err = noArtifact other
  end
  /\ (Forall (fun entry => artifactOf (snd entry) <> Undefined) gathererResults ->
      exists artifacts s',
        collectArtifacts gathererResults baseArtifacts s = (Ok artifacts, s')).
Proof.
  intros Hget Hown Hv Hafter.
  pose proof (artifactOf_last_defined before after v Hv Hafter) as E.
  pose proof (collectArtifacts_assembles name _ gathererResults baseArtifacts s
                Hget Hown) as H.
  rewrite E in H. exact (H Hv).
Qed.

(** C4, as the code has it. For a gatherer whose [beforePass] and
    [afterPass] resolved to defined values and whose [pass] rejected with
    a reason that is not [undefined], and whose name is not that of a
    property inherited from [Object.prototype], the artifact in the bundle
    is the rejection reason of [pass]; the two values are dropped. *)
Theorem collectArtifacts_pass_rejection_surfaces
    (name : string) (beforeValue afterValue reason : Value)
    (gathererResults : GathererResults) (baseArtifacts : BaseArtifacts.t)
    (s : Session) :
  get name gathererResults
  = Some [Resolved beforeValue; Rejected reason; Resolved afterValue] ->
  inherited name = false ->
  defined beforeValue = true ->
  defined afterValue = true ->
  defined reason = true ->
  match collectArtifacts gathererResults baseArtifacts s with
  | (Ok artifacts, _) => get name (Artifacts.gathered artifacts) = Some reason
  | (Throw err, _) =>
      exists other,
        other <> name /\ In other (map fst gathererResults)
        /\ err = noArtifact other
  end
  /\ (Forall (fun entry => artifactOf (snd entry) <> Undefined) gathererResults ->
      exists artifacts s',
        collectArtifacts gathererResults baseArtifacts s = (Ok artifacts, s')).
Proof.
  intros Hget Hown _ _ Hreason.
  exact (collectArtifacts_assembles name _ gathererResults baseArtifacts s
           Hget Hown Hreason).
Qed.

(** C5, as the code has it. For a gatherer with at least one phase result,
    all of them rejections, the first of which has a reason that is not
    [undefined], and whose name is not that of a property inherited from
    [Object.prototype], [collectArtifacts] does not throw on its account
    and the artifact in the bundle is the reason of the first rejection in
    phase order. *)
Theorem collectArtifacts_first_rejection_surfaces
    (name : string) (history rest : list Settled) (reason : Value)
    (gathererResults : GathererResults) (baseArtifacts : BaseArtifacts.t)
    (s : Session) :
  get name gathererResults = Some history ->
  inherited name = false ->
  Forall isRejected history ->
  history = Rejected reason :: rest ->
  defined reason = true ->
  match collectArtifacts gathererResults baseArtifacts s with
  | (Ok artifacts, _) => get name (Artifacts.gathered artifacts) = Some reason
  | (Throw err, _) =>
      exists other,
        other <> name /\ In other (map fst gathererResults)
        /\ err = noArtifact other
  end
  /\ (Forall (fun entry => artifactOf (snd entry) <> Undefined) gathererResults ->
      exists artifacts s',
        collectArtifacts gathererResults baseArtifacts s = (Ok artifacts, s')).
Proof.
  intros Hget Hown _ -> Hreason.
  exact (collectArtifacts_assembles name _ gathererResults baseArtifacts s
           Hget Hown Hreason).
Qed.

End Collector.

(* ================================================================== *)
(** * Reasoning about the session monad *)

Section Monad.

Context {env : Env}.

Lemma logged_refl (s : Session) : logged s s [].
Proof. unfold logged. now rewrite app_nil_r. Qed.

Lemma logged_trans (s s1 s2 : Session) (e1 e2 : list Event) :
  logged s s1 e1 -> logged s1 s2 e2 -> logged s s2 (e1 ++ e2).
Proof. unfold logged. intros H1 H2. now rewrite H2, H1, app_assoc. Qed.

Lemma logged_inj (s s' : Session) (e1 e2 : list Event) :
  logged s s' e1 -> logged s s' e2 -> e1 = e2.
Proof. unfold logged. intros H1 H2. rewrite H1 in H2. now apply app_inv_head in H2. Qed.

Lemma traced_bind {A B} (Q1 : result A -> list Event -> Prop)
    (Q2 : result B -> list Event -> Prop) (Q : result B -> list Event -> Prop)
    (m : M A) (k : A -> M B) :
  traced Q1 m ->
  (forall a, traced Q2 (k a)) ->
  (forall a e1 r e2, Q1 (Ok a) e1 -> Q2 r e2 -> Q r (e1 ++ e2)) ->
  (forall err e1, Q1 (Throw err) e1 -> Q (Throw err) e1) ->
  traced Q (bind m k).
Proof.
  intros Hm Hk Hok Hthrow s. unfold bind.
  destruct (Hm s) as (e1 & L1 & R1).
  destruct (m s) as [[a|err] s1]; simpl in *.
  - destruct (Hk a s1) as (e2 & L2 & R2).
    exists (e1 ++ e2). split; [eapply logged_trans; eassumption | eauto].
  - exists e1. auto.
Qed.

Lemma within_bind {A B} (kinds : list Kind) (m : M A) (k : A -> M B) :
  within kinds m -> (forall a, within kinds (k a)) -> within kinds (bind m k).
Proof.
  intros Hm Hk. eapply traced_bind; [exact Hm | exact Hk | |]; simpl.
  - intros. now apply Forall_app.
  - auto.
Qed.

Lemma tidy_bind {A B} (m : M A) (k : A -> M B) :
  tidy m -> (forall a, tidy (k a)) -> tidy (bind m k).
Proof.
  intros Hm Hk. eapply traced_bind; [exact Hm | exact Hk | |]; simpl.
  - intros a e1 [b|err] e2 H1 H2; simpl in *.
    + now apply Forall_app.
    + destruct H2 as (before & c & -> & Hc & Hb).
      exists (e1 ++ before), c. rewrite app_assoc.
      repeat split; auto. now apply Forall_app.
  - auto.
Qed.

Lemma within_ret {A} (kinds : list Kind) (a : A) : within kinds (ret a).
Proof. intros s. exists []. split; [apply logged_refl | constructor]. Qed.

Lemma tidy_ret {A} (a : A) : tidy (ret a).
Proof. intros s. exists []. split; [apply logged_refl | constructor]. Qed.

Lemma within_ask {A} (kinds : list Kind) (f : World -> A) : within kinds (ask f).
Proof. intros s. exists []. split; [apply logged_refl | constructor]. Qed.

Lemma tidy_ask {A} (f : World -> A) : tidy (ask f).
Proof. intros s. exists []. split; [apply logged_refl | constructor]. Qed.

Lemma call_logged (c : DriverCall) (s : Session) :
  logged s (snd (call c s)) [Called c (fst (call c s))].
Proof. unfold call, logged. destruct (driver c (world s)); reflexivity. Qed.

Lemma within_call (kinds : list Kind) (c : DriverCall) :
  In (callKind c) kinds -> within kinds (call c).
Proof.
  intros Hin s. eexists. split; [apply call_logged|].
  constructor; [exact Hin | constructor].
Qed.

Lemma tidy_call (c : DriverCall) : c <> Disconnect -> tidy (call c).
Proof.
  intros Hc s. eexists. split; [apply call_logged|].
  destruct (fst (call c s)) as [a|err]; simpl.
  - constructor; [|constructor]. unfold benign. destruct c; simpl; tauto.
  - exists [], c. repeat split; [|constructor].
    destruct c; simpl; auto.
Qed.

Lemma within_when (kinds : list Kind) (cond : bool) (m : M unit) :
  within kinds m -> within kinds (when cond m).
Proof. destruct cond; simpl; [auto | intros _; apply within_ret]. Qed.

Lemma tidy_when (cond : bool) (m : M unit) : tidy m -> tidy (when cond m).
Proof. destruct cond; simpl; [auto | intros _; apply tidy_ret]. Qed.

Lemma settle_logged (phase : Phase) (gatherer : Gatherer.t)
    (passContext : PassContext.t) (hook : World -> HookRun World) (s : Session) :
  settle phase gatherer passContext hook s
  = (Ok (settled (hook (world s)),
         PassContext.push_warnings (warned (hook (world s))) passContext),
     mkSession (after (hook (world s)))
       (calls s ++ [Hooked phase (Gatherer.name gatherer)
                           (settled (hook (world s)))])).
Proof. reflexivity. Qed.

Lemma within_settle (kinds : list Kind) (phase : Phase) (gatherer : Gatherer.t)
    (passContext : PassContext.t) (hook : World -> HookRun World) :
  In (HookOf phase) kinds -> within kinds (settle phase gatherer passContext hook).
Proof.
  intros Hin s. eexists. split; [reflexivity|].
  constructor; [exact Hin | constructor].
Qed.

Lemma tidy_settle (phase : Phase) (gatherer : Gatherer.t)
    (passContext : PassContext.t) (hook : World -> HookRun World) :
  tidy (settle phase gatherer passContext hook).
Proof.
  intros s. eexists. split; [reflexivity|]. simpl.
  constructor; [|constructor]. unfold benign. simpl. tauto.
Qed.

Lemma disposeDriver_run (s : Session) :
  disposeDriver s
  = (disposal (fst (call Disconnect s)), snd (call Disconnect s)).
Proof.
  unfold disposeDriver.
  destruct (call Disconnect s) as [[u|err] s']; simpl;
    [reflexivity | destruct err; reflexivity].
Qed.

Lemma disposeDriver_logged (s : Session) :
  logged s (snd (disposeDriver s)) [Called Disconnect (fst (call Disconnect s))].
Proof. rewrite disposeDriver_run. exact (call_logged Disconnect s). Qed.

Lemma within_disposeDriver (kinds : list Kind) :
  In Disposal kinds -> within kinds disposeDriver.
Proof.
  intros Hin s. eexists.
  split; [apply disposeDriver_logged|]. constructor; [exact Hin | constructor].
Qed.

End Monad.

Create HintDb runner.

#[local] Hint Resolve within_ret tidy_ret within_ask tidy_ask
  within_when tidy_when within_settle tidy_settle
  within_disposeDriver : runner.
#[local] Hint Extern 1 (within ?kinds (call ?c)) =>
  refine (within_call kinds c _) : runner.
#[local] Hint Extern 1 (tidy (call ?c)) =>
  refine (tidy_call c _) : runner.
#[local] Hint Extern 2 (within _ (bind _ _)) =>
  apply within_bind; [|intros; cbv zeta] : runner.
#[local] Hint Extern 2 (tidy (bind _ _)) =>
  apply tidy_bind; [|intros; cbv zeta] : runner.
#[local] Hint Extern 1 (In _ _) => simpl; tauto : runner.
#[local] Hint Extern 1 (_ <> Disconnect) => discriminate : runner.

Ltac runner := intros; cbv zeta; eauto 40 with runner.

(* ================================================================== *)
(** * Which events each function adds *)

Section Footprints.

Context {env : Env}.

Lemma within_loadBlank (kinds : list Kind) (url : option string) :
  In Plain kinds -> within kinds (loadBlank url).
Proof. unfold loadBlank. runner. Qed.

Lemma tidy_loadBlank (url : option string) : tidy (loadBlank url).
Proof. unfold loadBlank. runner. Qed.

Lemma within_setupDriver (kinds : list Kind) (options : RunOptions) :
  In Plain kinds -> within kinds (setupDriver options).
Proof. unfold setupDriver. runner. Qed.

Lemma tidy_setupDriver (options : RunOptions) : tidy (setupDriver options).
Proof. unfold setupDriver. runner. Qed.

Lemma within_setupPassNetwork (kinds : list Kind) (passContext : PassContext.t) :
  In Plain kinds -> within kinds (setupPassNetwork passContext).
Proof. unfold setupPassNetwork. runner. Qed.

Lemma tidy_setupPassNetwork (passContext : PassContext.t) :
  tidy (setupPassNetwork passContext).
Proof. unfold setupPassNetwork. runner. Qed.

Lemma within_beginRecording (kinds : list Kind) (passContext : PassContext.t) :
  In Plain kinds -> within kinds (beginRecording passContext).
Proof. unfold beginRecording. runner. Qed.

Lemma tidy_beginRecording (passContext : PassContext.t) :
  tidy (beginRecording passContext).
Proof. unfold beginRecording. runner. Qed.

Lemma within_getBaseArtifacts (kinds : list Kind) (options : RunOptions) :
  In Plain kinds -> within kinds (getBaseArtifacts options).
Proof. unfold getBaseArtifacts. runner. Qed.

Lemma tidy_getBaseArtifacts (options : RunOptions) :
  tidy (getBaseArtifacts options).
Proof. unfold getBaseArtifacts. runner. Qed.

Lemma within_getWebAppManifest (kinds : list Kind) (passContext : PassContext.t) :
  In Plain kinds -> within kinds (getWebAppManifest passContext).
Proof.
  unfold getWebAppManifest. intros. apply within_bind; [runner|].
  intros [response|]; runner.
Qed.

Lemma tidy_getWebAppManifest (passContext : PassContext.t) :
  tidy (getWebAppManifest passContext).
Proof.
  unfold getWebAppManifest. apply tidy_bind; [runner|].
  intros [response|]; runner.
Qed.

Lemma tidy_loadPage (passContext : PassContext.t) : tidy (loadPage passContext).
Proof. unfold loadPage. runner. Qed.

Lemma tidy_endRecording (passContext : PassContext.t) :
  tidy (endRecording passContext).
Proof.
  unfold endRecording.
  destruct (PassConfig.recordTrace (PassContext.passConfig passContext)); runner.
Qed.

End Footprints.

#[local] Hint Resolve within_loadBlank tidy_loadBlank within_setupDriver
  tidy_setupDriver within_setupPassNetwork tidy_setupPassNetwork
  within_beginRecording tidy_beginRecording within_getBaseArtifacts
  tidy_getBaseArtifacts within_getWebAppManifest tidy_getWebAppManifest
  tidy_loadPage tidy_endRecording : runner.

(* ================================================================== *)
(** * The hook phases *)

Section Phases.

Context {env : Env}.

Lemma sameButWarnings_refl (c : PassContext.t) : sameButWarnings c c.
Proof. repeat split. Qed.

Lemma sameButWarnings_trans (c1 c2 c3 : PassContext.t) :
  sameButWarnings c1 c2 -> sameButWarnings c2 c3 -> sameButWarnings c1 c3.
Proof.
  intros (U1 & S1 & P1 & B1) (U2 & S2 & P2 & B2).
  repeat split; congruence.
Qed.

Lemma sameButWarnings_hook (c : PassContext.t) (o : option (Obj Value))
    (ws : list string) :
  sameButWarnings c (PassContext.push_warnings ws (PassContext.with_options o c)).
Proof. repeat split. Qed.

Lemma continues_refl (results : GathererResults) : continues results results.
Proof. intros name history H. exists []. now rewrite app_nil_r. Qed.

Lemma continues_trans (r1 r2 r3 : GathererResults) :
  continues r1 r2 -> continues r2 r3 -> continues r1 r3.
Proof.
  intros H12 H23 name history H.
  destruct (H12 name history H) as (m1 & H1).
  destruct (H23 name _ H1) as (m2 & H2).
  exists (m1 ++ m2). now rewrite app_assoc.
Qed.

Lemma get_pushResult (name name' : string) (p : Settled)
    (results : GathererResults) :
  get name (pushResult name' p results)
  = if String.eqb name name'
    then Some (orEmpty (get name results) ++ [p])
    else get name results.
Proof.
  unfold pushResult. destruct (String.eqb name name') eqn:E.
  - apply String.eqb_eq in E. subst. apply get_set_same.
  - apply String.eqb_neq in E. now apply get_set_other.
Qed.

Lemma continues_pushResult (name : string) (p : Settled)
    (results : GathererResults) :
  continues results (pushResult name p results).
Proof.
  intros n history H. rewrite get_pushResult.
  destruct (String.eqb n name).
  - exists [p]. now rewrite H.
  - exists []. now rewrite app_nil_r.
Qed.

Lemma isHook_benign (phase : Phase) (e : Event) : isHook phase e -> benign e.
Proof. destruct e; simpl; [tauto | unfold benign; simpl; tauto]. Qed.

Lemma isHook_kind (phase : Phase) (e : Event) :
  isHook phase e -> kind e = HookOf phase.
Proof. destruct e as [c r|p n o]; simpl; [tauto|]. destruct p, phase; tauto. Qed.

Lemma phaseRan_nil (phase : Phase) (c : PassContext.t) (s : Session) :
  phaseRan phase [] c c s s [].
Proof.
  repeat split; [apply logged_refl | constructor].
Qed.

Lemma phaseRan_cons (phase : Phase) (g : GathererDefn.t)
    (rest : list GathererDefn.t) (c c1 c' : PassContext.t) (s s' : Session)
    (outcome : Settled) (w : World) (events : list Event) :
  isHook phase (Hooked phase (Gatherer.name (GathererDefn.instance g)) outcome) ->
  sameButWarnings c c1 ->
  phaseRan phase rest c1 c'
    (mkSession w (calls s ++ [Hooked phase (Gatherer.name (GathererDefn.instance g))
                                     outcome])) s' events ->
  phaseRan phase (g :: rest) c c' s s'
    (Hooked phase (Gatherer.name (GathererDefn.instance g)) outcome :: events).
Proof.
  intros Hh Hc (L & Hk & Hf & Hs).
  split; [|split; [|split]].
  - unfold logged in *. simpl in L. rewrite L, <- app_assoc. reflexivity.
  - simpl. now rewrite Hk.
  - now constructor.
  - apply (sameButWarnings_trans c c1 c' Hc Hs).
Qed.

(** [beforePass] calls every gatherer's hook, in order, whatever the
    hooks settle to, and returns; each hook's outcome starts that
    gatherer's history afresh. *)
Lemma beforePass_each_runs (gatherers : list GathererDefn.t) :
  forall (c : PassContext.t) (results : GathererResults) (s : Session),
  exists c' results' s' events,
    beforePass_each gatherers c results s = (Ok (c', results'), s')
    /\ phaseRan BeforePass gatherers c c' s s' events
    /\ (forall name, ~ In name (names gatherers) ->
        get name results' = get name results)
    /\ (NoDup (names gatherers) ->
        forall name outcome,
          In (Hooked BeforePass name outcome) events ->
          get name results' = Some [outcome]).
Proof.
  induction gatherers as [|g rest IH]; intros c results s.
  - exists c, results, s, []. split; [reflexivity|].
    split; [apply phaseRan_nil|]. split; [reflexivity|]. intros _ ? ? [].
  - cbn [beforePass_each]. unfold bind at 1. rewrite settle_logged.
    match goal with
    | |- context [beforePass_each rest ?c1 ?r1 ?s1] =>
        destruct (IH c1 r1 s1) as (c' & results' & s' & events & E & R & Ho & Hr)
    end.
    eexists c', results', s', (_ :: events). split; [exact E|]. split.
    { eapply phaseRan_cons; [exact I | | exact R].
      apply sameButWarnings_hook. }
    split.
    + intros name Hn. simpl in Hn. rewrite Ho by tauto.
      apply get_set_other. intros ->. tauto.
    + intros Hnd name outcome [Hhere | Hlater].
      * injection Hhere as <- <-.
        inversion Hnd as [|? ? Hnotin _]; subst.
        rewrite (Ho _ Hnotin). apply get_set_same.
      * inversion Hnd; subst. now apply Hr.
Qed.

(** [pass] likewise; the histories are continued. *)
Lemma pass_each_runs (gatherers : list GathererDefn.t) :
  forall (c : PassContext.t) (results : GathererResults) (s : Session),
  exists c' results' s' events,
    pass_each gatherers c results s = (Ok (c', results'), s')
    /\ phaseRan Pass gatherers c c' s s' events
    /\ continues results results'.
Proof.
  induction gatherers as [|g rest IH]; intros c results s.
  - exists c, results, s, [].
    split; [reflexivity | split; [apply phaseRan_nil | apply continues_refl]].
  - cbn [pass_each]. unfold bind at 1. rewrite settle_logged.
    match goal with
    | |- context [pass_each rest ?c1 ?r1 ?s1] =>
        destruct (IH c1 r1 s1) as (c' & results' & s' & events & E & R & K)
    end.
    eexists c', results', s', (_ :: events). split; [exact E|]. split.
    + eapply phaseRan_cons; [exact I | | exact R].
      apply sameButWarnings_hook.
    + eapply continues_trans; [apply continues_pushResult | exact K].
Qed.

(** [afterPass] likewise. *)
Lemma afterPass_each_runs (gatherers : list GathererDefn.t) (loadData : LoadData.t) :
  forall (c : PassContext.t) (results : GathererResults) (s : Session),
  exists c' results' s' events,
    afterPass_each gatherers c loadData results s = (Ok (c', results'), s')
    /\ phaseRan AfterPass gatherers c c' s s' events
    /\ continues results results'.
Proof.
  induction gatherers as [|g rest IH]; intros c results s.
  - exists c, results, s, [].
    split; [reflexivity | split; [apply phaseRan_nil | apply continues_refl]].
  - cbn [afterPass_each]. unfold bind at 1. rewrite settle_logged.
    match goal with
    | |- context [afterPass_each rest ?c1 loadData ?r1 ?s1] =>
        destruct (IH c1 r1 s1) as (c' & results' & s' & events & E & R & K)
    end.
    eexists c', results', s', (_ :: events). split; [exact E|]. split.
    + eapply phaseRan_cons; [exact I | | exact R].
      apply sameButWarnings_hook.
    + eapply continues_trans; [apply continues_pushResult | exact K].
Qed.

Lemma tidy_of_phaseRan {A} (m : M A) :
  (forall s, exists a s' phase gatherers c c' events,
      m s = (Ok a, s') /\ phaseRan phase gatherers c c' s s' events) ->
  tidy m.
Proof.
  intros H s. destruct (H s) as (a & s' & phase & gs & c & c' & events & E & L & _ & F & _).
  exists events. rewrite E. split; [exact L|]. simpl.
  eapply Forall_impl; [|exact F]. apply isHook_benign.
Qed.

Lemma tidy_beforePass (c : PassContext.t) (results : GathererResults) :
  tidy (beforePass c results).
Proof.
  apply tidy_of_phaseRan. intros s. unfold beforePass.
  destruct (beforePass_each_runs (PassConfig.gatherers (PassContext.passConfig c))
              c results s) as (c' & r' & s' & events & E & R & _).
  now exists (c', r'), s', BeforePass, (PassConfig.gatherers (PassContext.passConfig c)),
    c, c', events.
Qed.

Lemma tidy_pass (c : PassContext.t) (results : GathererResults) :
  tidy (pass c results).
Proof.
  apply tidy_of_phaseRan. intros s. unfold pass.
  destruct (pass_each_runs (PassConfig.gatherers (PassContext.passConfig c))
              c results s) as (c' & r' & s' & events & E & R & _).
  now exists (c', r'), s', Pass, (PassConfig.gatherers (PassContext.passConfig c)),
    c, c', events.
Qed.

Lemma tidy_afterPass (c : PassContext.t) (loadData : LoadData.t)
    (results : GathererResults) :
  tidy (afterPass c loadData results).
Proof.
  apply tidy_of_phaseRan. intros s. unfold afterPass.
  destruct (afterPass_each_runs (PassConfig.gatherers (PassContext.passConfig c))
              loadData c results s) as (c' & r' & s' & events & E & R & _).
  now exists (c', r'), s', AfterPass, (PassConfig.gatherers (PassContext.passConfig c)),
    c, c', events.
Qed.

End Phases.

#[local] Hint Resolve tidy_beforePass tidy_pass tidy_afterPass : runner.

(* ================================================================== *)
(** * The pass executor *)

Ltac bind_step H E :=
  unfold bind at 1 in H;
  match type of H with
  | (match ?m ?s with _ => _ end) = _ =>
      let a := fresh "a" in
      let s1 := fresh "s" in
      destruct (m s) as [[a|?] s1] eqn:E; [|discriminate H]
  end.

Section PassExecutor.

Context {env : Env}.

Lemma plain_step {A} (m : M A) :
  within [Plain] m -> tidy m ->
  forall s a s', m s = (Ok a, s') ->
  exists events, logged s s' events /\ Forall plain events /\ Forall benign events.
Proof.
  intros Hw Ht s a s' E.
  destruct (Hw s) as (e1 & L1 & F1). destruct (Ht s) as (e2 & L2 & F2).
  rewrite E in *. simpl in *.
  rewrite (logged_inj s s' e2 e1 L2 L1) in F2.
  exists e1. repeat split; [exact L1 | | exact F2].
  eapply Forall_impl; [|exact F1]. intros e [H|[]]. now symmetry.
Qed.

Lemma call_ok (c : DriverCall) (s s' : Session) (a : Response c) :
  call c s = (Ok a, s') -> logged s s' [Called c (Ok a)].
Proof. intros E. pose proof (call_logged c s) as L. now rewrite E in L. Qed.

Lemma loadPage_ok (c c' : PassContext.t) (s s' : Session) :
  loadPage c s = (Ok c', s') ->
  logged s s'
    [Called (GotoURL (PassContext.url c)
               (WaitForLoad (PassConfig.recordTrace (PassContext.passConfig c)) c))
            (Ok (PassContext.url c'))]
  /\ c' = PassContext.with_url (PassContext.url c') c.
Proof.
  unfold loadPage. intros H. bind_step H E.
  unfold ret in H. injection H as <- <-.
  split; [exact (call_ok _ _ _ _ E) | reflexivity].
Qed.

Lemma endRecording_ok (c : PassContext.t) (loadData : LoadData.t) (s s' : Session) :
  endRecording c s = (Ok loadData, s') ->
  exists ending,
    logged s s' (ending ++ [Called EndDevtoolsLog (Ok (LoadData.devtoolsLog loadData))])
    /\ Forall plain ending /\ Forall benign ending
    /\ LoadData.networkRecords loadData
       = recordsFromLogs (LoadData.devtoolsLog loadData).
Proof.
  unfold endRecording. intros H. bind_step H E. bind_step H E'.
  unfold ret in H. injection H as <- <-. simpl.
  apply call_ok in E'.
  destruct (PassConfig.recordTrace (PassContext.passConfig c)).
  - bind_step E Et. unfold ret in E. injection E as _ <-.
    apply call_ok in Et.
    exists [Called EndTrace (Ok a1)]. split.
    + exact (logged_trans _ _ _ _ _ Et E').
    + repeat split; repeat constructor. unfold benign. simpl. tauto.
  - unfold ret in E. injection E as _ <-.
    exists []. repeat split; [exact E' | constructor | constructor].
Qed.

Lemma core_URL (b b' : BaseArtifacts.t) :
  core b' = core b -> BaseArtifacts.URL b' = BaseArtifacts.URL b.
Proof. intros H. exact (f_equal BaseArtifacts.URL H). Qed.

Lemma core_NetworkUserAgent (b b' : BaseArtifacts.t) :
  core b' = core b ->
  BaseArtifacts.NetworkUserAgent b' = BaseArtifacts.NetworkUserAgent b.
Proof. intros H. exact (f_equal BaseArtifacts.NetworkUserAgent H). Qed.

Lemma core_devtoolsLogs (b b' : BaseArtifacts.t) :
  core b' = core b ->
  BaseArtifacts.devtoolsLogs b' = BaseArtifacts.devtoolsLogs b.
Proof. intros H. exact (f_equal BaseArtifacts.devtoolsLogs H). Qed.

Lemma hook_not_plain (events : list Event) (phase : Phase) (name : string)
    (outcome : Settled) :
  Forall plain events -> In (Hooked phase name outcome) events -> False.
Proof.
  intros F Hin. rewrite Forall_forall in F. specialize (F _ Hin). discriminate F.
Qed.

Lemma hook_phase (events : list Event) (phase phase' : Phase) (name : string)
    (outcome : Settled) :
  Forall (isHook phase') events -> In (Hooked phase name outcome) events ->
  phase = phase'.
Proof.
  intros F Hin. rewrite Forall_forall in F. specialize (F _ Hin).
  destruct phase, phase'; simpl in F; tauto.
Qed.

Lemma plain_benign_hooks (events : list Event) :
  Forall plain events -> hooks events = [].
Proof.
  induction 1 as [|e es He _ IH]; [reflexivity|].
  destruct e; [exact IH | discriminate He].
Qed.

Lemma hooks_app (e1 e2 : list Event) : hooks (e1 ++ e2) = hooks e1 ++ hooks e2.
Proof.
  induction e1 as [|e es IH]; [reflexivity|].
  destruct e; simpl; now rewrite IH.
Qed.

Lemma runPass_load_ok (c loaded : PassContext.t) (loadData : LoadData.t)
    (results : GathererResults) (s s1 : Session) :
  runPass_load c s = (Ok (loaded, loadData, results), s1) ->
  exists events,
    logged s s1 events
    /\ loadedLog c loaded loadData events
    /\ Forall benign events
    /\ PassContext.settings loaded = PassContext.settings c
    /\ PassContext.passConfig loaded = PassContext.passConfig c
    /\ BaseArtifacts.URL (PassContext.baseArtifacts loaded)
       = BaseArtifacts.URL (PassContext.baseArtifacts c)
    /\ BaseArtifacts.NetworkUserAgent (PassContext.baseArtifacts loaded)
       = BaseArtifacts.NetworkUserAgent (PassContext.baseArtifacts c)
    /\ get (PassConfig.passName (PassContext.passConfig c))
           (BaseArtifacts.devtoolsLogs (PassContext.baseArtifacts loaded))
       = Some (LoadData.devtoolsLog loadData)
    /\ LoadData.networkRecords loadData
       = recordsFromLogs (LoadData.devtoolsLog loadData)
    /\ (NoDup (names (PassConfig.gatherers (PassContext.passConfig c))) ->
        forall name outcome,
          In (Hooked BeforePass name outcome) events ->
          exists more, get name results = Some (outcome :: more)).
Proof.
  unfold runPass_load. cbv zeta. intros H.
  bind_step H E1.
  apply (plain_step _ (within_setupPassNetwork [Plain] c (or_introl eq_refl))
           (tidy_setupPassNetwork c)) in E1.
  destruct E1 as (ev1 & L1 & P1 & B1).
  bind_step H E2.
  assert (exists ev2, logged s0 s2 ev2 /\ Forall plain ev2 /\ Forall benign ev2)
    as (ev2 & L2 & P2 & B2).
  { eapply plain_step; [| |exact E2]; runner. }
  unfold bind at 1 in H. unfold beforePass in H.
  destruct (beforePass_each_runs (PassConfig.gatherers (PassContext.passConfig c))
              c [] s2)
    as (c3 & r3 & s3 & ev3 & E3 & (L3 & K3 & F3 & S3) & _ & R3).
  rewrite E3 in H.
  bind_step H E4.
  assert (exists ev4, logged s3 s4 ev4 /\ Forall plain ev4 /\ Forall benign ev4)
    as (ev4 & L4 & P4 & B4).
  { eapply plain_step; [| |exact E4]; runner. }
  bind_step H E5. apply loadPage_ok in E5. destruct E5 as (L5 & E5).
  unfold bind at 1 in H. unfold pass in H.
  match type of H with
  | context [pass_each ?gs ?c5 ?r5 ?s5] =>
      destruct (pass_each_runs gs c5 r5 s5)
        as (c6 & r6 & s6 & ev6 & E6 & (L6 & K6 & F6 & S6) & C6)
  end.
  rewrite E6 in H.
  bind_step H E7. apply endRecording_ok in E7.
  destruct E7 as (ev7 & L7 & P7 & B7 & N7).
  bind_step H E8. apply call_ok in E8.
  unfold ret in H. injection H as <- <- <- <-.
  destruct a4.
  destruct S3 as (U3 & T3 & P3 & Co3). destruct S6 as (U6 & T6 & P6 & Co6).
  pose proof (f_equal PassContext.settings E5) as T5.
  pose proof (f_equal PassContext.passConfig E5) as P5.
  pose proof (f_equal PassContext.baseArtifacts E5) as A5.
  simpl in T5, P5, A5.
  rewrite U3, P3 in L5. rewrite <- U6 in L5. rewrite T6, T5, T3 in E8.
  eexists. split.
  { unfold logged in *. rewrite E8, L7, L6, L5, L4, L3, L2, L1.
    repeat rewrite <- app_assoc. simpl. reflexivity. }
  split.
  { exists (ev1 ++ ev2), ev3, ev4, c3, ev6, ev7.
    split; [repeat rewrite <- app_assoc; reflexivity|].
    split; [exact P3|].
    split; [now apply Forall_app|].
    split; [exact F3|]. split; [exact K3|]. split; [exact P4|].
    split; [exact F6|]. split; [|exact P7].
    rewrite K6. congruence. }
  assert (Hcore : core (PassContext.baseArtifacts c6)
                  = core (PassContext.baseArtifacts c)) by congruence.
  split.
  { repeat (apply Forall_app; split); try assumption;
      try (eapply Forall_impl; [apply isHook_benign | eassumption]).
    constructor; [unfold benign; simpl; tauto|].
    repeat (apply Forall_app; split); try assumption.
    - eapply Forall_impl; [apply isHook_benign | eassumption].
    - repeat constructor; unfold benign; simpl; tauto. }
  split; [simpl; congruence|]. split; [simpl; congruence|].
  split.
  { rewrite <- (core_URL _ _ Hcore). destruct (LoadData.trace a3); reflexivity. }
  split.
  { rewrite <- (core_NetworkUserAgent _ _ Hcore).
    destruct (LoadData.trace a3); reflexivity. }
  split.
  { destruct (LoadData.trace a3); simpl; apply get_set_same. }
  split; [exact N7|].
  intros Hnd name outcome Hin.
  assert (Hb : In (Hooked BeforePass name outcome) ev3).
  { repeat (apply in_app_or in Hin; destruct Hin as [Hin|Hin]);
      try assumption;
      try (exfalso; eapply hook_not_plain; [|exact Hin]; assumption).
    - apply in_inv in Hin. destruct Hin as [Hin|Hin]; [discriminate|].
      repeat (apply in_app_or in Hin; destruct Hin as [Hin|Hin]);
        try (exfalso; eapply hook_not_plain; [|exact Hin]; assumption).
      + pose proof (hook_phase _ _ _ _ _ F6 Hin). discriminate.
      + simpl in Hin. destruct Hin as [Hin|[Hin|[]]]; discriminate. }
  destruct (C6 name _ (R3 Hnd name outcome Hb)) as (more & Hmore).
  exists more. exact Hmore.
Qed.

Lemma loadedLog_hooks (c loaded : PassContext.t) (loadData : LoadData.t)
    (events : list Event) :
  loadedLog c loaded loadData events ->
  hooks events
  = phaseHooks BeforePass (PassConfig.gatherers (PassContext.passConfig c))
    ++ phaseHooks Pass (PassConfig.gatherers (PassContext.passConfig c)).
Proof.
  intros (setup & before & recording & lc & passed & ending & -> & _ & P1 & _
          & K1 & P2 & _ & K2 & P3).
  rewrite !hooks_app. cbn [hooks]. rewrite !hooks_app. cbn [hooks].
  rewrite (plain_benign_hooks _ P1), (plain_benign_hooks _ P2),
    (plain_benign_hooks _ P3), K1, K2.
  simpl. now rewrite app_nil_r.
Qed.

Lemma loadedLog_no_afterPass (c loaded : PassContext.t) (loadData : LoadData.t)
    (events : list Event) :
  loadedLog c loaded loadData events ->
  Forall (fun e => ~ isHook AfterPass e) events.
Proof.
  intros (setup & before & recording & lc & passed & ending & -> & _ & P1 & F1
          & _ & P2 & F2 & _ & P3).
  assert (Hplain : forall es, Forall plain es ->
                              Forall (fun e => ~ isHook AfterPass e) es).
  { intros es F. eapply Forall_impl; [|exact F].
    intros [c0 r|p n o] Hp; simpl; [tauto | discriminate Hp]. }
  assert (Hhook : forall p es, p <> AfterPass -> Forall (isHook p) es ->
                               Forall (fun e => ~ isHook AfterPass e) es).
  { intros p es Hp F. eapply Forall_impl; [|exact F].
    intros [c0 r|q n o] Hq; simpl; [tauto|].
    destruct q, p; simpl in Hq; tauto. }
  pose proof (Hhook BeforePass before ltac:(discriminate) F1).
  pose proof (Hhook Pass passed ltac:(discriminate) F2).
  repeat (apply Forall_app; split); auto.
  apply Forall_cons; [simpl; tauto|].
  repeat (apply Forall_app; split); auto.
Qed.

Lemma tidy_runPass_load (c : PassContext.t) : tidy (runPass_load c).
Proof.
  unfold runPass_load. cbv zeta.
  apply tidy_bind; [runner|]. intros _.
  apply tidy_bind; [runner|]. intros _.
  apply tidy_bind; [runner|]. intros [c1 r1].
  apply tidy_bind; [runner|]. intros _.
  apply tidy_bind; [runner|]. intros c2.
  apply tidy_bind; [runner|]. intros [c3 r3].
  apply tidy_bind; [runner|]. intros loadData.
  apply tidy_bind; [runner|]. intros _.
  apply tidy_ret.
Qed.

(** What [fillWithPageLoadErrors] leaves under each name. *)
Lemma fillWithPageLoadErrors_each_get (pageLoadError : LHError)
    (gatherers : list GathererDefn.t) :
  forall (results : GathererResults) (name : string),
    get name (fillWithPageLoadErrors_each gatherers pageLoadError results)
    = match count_occ string_dec (names gatherers) name with
      | 0 => get name results
      | S k =>
          Some (orEmpty (get name results)
                ++ repeat (Rejected (LHErr pageLoadError)) (S k))
      end.
Proof.
  induction gatherers as [|g rest IH]; intros results name; [reflexivity|].
  cbn [fillWithPageLoadErrors_each names map count_occ].
  fold (names rest). rewrite IH, get_pushResult.
  destruct (string_dec (Gatherer.name (GathererDefn.instance g)) name) as [->|Hne].
  - rewrite String.eqb_refl.
    destruct (count_occ string_dec (names rest) name); cbn [orEmpty].
    + reflexivity.
    + rewrite <- app_assoc. reflexivity.
  - assert (E : String.eqb name (Gatherer.name (GathererDefn.instance g)) = false)
      by (apply String.eqb_neq; congruence).
    rewrite E. reflexivity.
Qed.


(** The two branches of the end of [runPass]. *)
Lemma runPass_finish_failure (c : PassContext.t) (loadData : LoadData.t)
    (results : GathererResults) (s : Session) (pageLoadError : LHError) :
  getPageLoadError (PassContext.url c) (LoadData.networkRecords loadData)
  = Some pageLoadError ->
  online (world s) = true ->
  runPass_finish c loadData results s
  = (Ok (PassContext.push_warnings [friendlyMessage pageLoadError] c,
         fillWithPageLoadErrors_each
           (PassConfig.gatherers (PassContext.passConfig c))
           pageLoadError results),
     s).
Proof.
  intros He Ho. unfold runPass_finish, bind, ask. rewrite Ho, He. reflexivity.
Qed.

Lemma runPass_finish_success (c : PassContext.t) (loadData : LoadData.t)
    (results : GathererResults) (s : Session) :
  getPageLoadError (PassContext.url c) (LoadData.networkRecords loadData) = None
  \/ online (world s) = false ->
  runPass_finish c loadData results s = afterPass c loadData results s.
Proof.
  intros H. unfold runPass_finish, bind, ask.
  destruct (online (world s)); simpl.
  - destruct H as [-> | H]; [reflexivity | discriminate].
  - reflexivity.
Qed.

Lemma runPass_finish_cases (c : PassContext.t) (loadData : LoadData.t)
    (s : Session) :
  (exists pageLoadError,
      getPageLoadError (PassContext.url c) (LoadData.networkRecords loadData)
      = Some pageLoadError
      /\ online (world s) = true)
  \/ (getPageLoadError (PassContext.url c) (LoadData.networkRecords loadData) = None
      \/ online (world s) = false).
Proof.
  destruct (online (world s)); [|now right; right].
  destruct (getPageLoadError _ _) as [e|]; [left; now exists e | now right; left].
Qed.

Lemma tidy_runPass_finish (c : PassContext.t) (loadData : LoadData.t)
    (results : GathererResults) :
  tidy (runPass_finish c loadData results).
Proof.
  intros s.
  destruct (runPass_finish_cases c loadData s) as [(e & He & Ho) | H].
  - rewrite (runPass_finish_failure _ _ _ _ _ He Ho).
    exists []. split; [apply logged_refl | constructor].
  - rewrite (runPass_finish_success _ _ _ _ H). apply tidy_afterPass.
Qed.

Lemma tidy_runPass (c : PassContext.t) : tidy (runPass c).
Proof.
  unfold runPass. apply tidy_bind; [apply tidy_runPass_load|].
  intros [[c1 loadData] results]. apply tidy_runPass_finish.
Qed.

(** C2. Take a pass that reaches the load-error check with histories
    [captured], for which [getPageLoadError] reports [pageLoadError] while
    the driver is online.  Then [runPass] returns, no [afterPass] hook has
    been invoked during the pass (nothing at all happens in the session
    after the check), the friendly message of the error is pushed once
    onto the warnings, and every configured gatherer's history is what was
    captured followed by a rejection with that very error (one per
    configured occurrence of the name, so exactly one when the names are
    distinct); the histories under other names are untouched. *)
Theorem runPass_page_load_failure
    (c loaded : PassContext.t) (loadData : LoadData.t)
    (captured : GathererResults) (s s1 : Session) (pageLoadError : LHError) :
  runPass_load c s = (Ok (loaded, loadData, captured), s1) ->
  getPageLoadError (PassContext.url loaded) (LoadData.networkRecords loadData)
  = Some pageLoadError ->
  online (world s1) = true ->
  let gatherers := PassConfig.gatherers (PassContext.passConfig c) in
  let rejection := Rejected (LHErr pageLoadError) in
  exists final results events,
    runPass c s = (Ok (final, results), s1)
    /\ logged s s1 events
    /\ Forall (fun e => ~ isHook AfterPass e) events
    /\ BaseArtifacts.LighthouseRunWarnings (PassContext.baseArtifacts final)
       = BaseArtifacts.LighthouseRunWarnings (PassContext.baseArtifacts loaded)
         ++ [friendlyMessage pageLoadError]
    /\ (forall name, In name (names gatherers) ->
        1 <= count_occ string_dec (names gatherers) name
        /\ get name results
           = Some (orEmpty (get name captured)
                   ++ repeat rejection
                        (count_occ string_dec (names gatherers) name)))
    /\ (NoDup (names gatherers) ->
        forall name, In name (names gatherers) ->
        get name results = Some (orEmpty (get name captured) ++ [rejection]))
    /\ (forall name, ~ In name (names gatherers) ->
        get name results = get name captured).
Proof.
  intros Hload Herr Honline gatherers rejection.
  destruct (runPass_load_ok _ _ _ _ _ _ Hload)
    as (events & L & Hlog & _ & _ & Hpc & _).
  exists (PassContext.push_warnings [friendlyMessage pageLoadError] loaded),
    (fillWithPageLoadErrors_each
       (PassConfig.gatherers (PassContext.passConfig loaded))
       pageLoadError captured),
    events.
  split.
  { unfold runPass, bind. rewrite Hload.
    apply runPass_finish_failure; assumption. }
  split; [exact L|].
  split; [exact (loadedLog_no_afterPass _ _ _ _ Hlog)|].
  split; [reflexivity|].
  rewrite Hpc. fold gatherers.
  assert (Hcount : forall name, In name (names gatherers) ->
            1 <= count_occ string_dec (names gatherers) name
            /\ get name (fillWithPageLoadErrors_each gatherers pageLoadError captured)
               = Some (orEmpty (get name captured)
                       ++ repeat rejection
                            (count_occ string_dec (names gatherers) name))).
  { intros name Hin. rewrite fillWithPageLoadErrors_each_get.
    apply (count_occ_In string_dec) in Hin.
    destruct (count_occ string_dec (names gatherers) name); [lia|].
    split; [lia | reflexivity]. }
  split; [exact Hcount|]. split.
  - intros Hnd name Hin. destruct (Hcount name Hin) as (_ & ->).
    rewrite (proj1 (NoDup_count_occ' string_dec (names gatherers)) Hnd name Hin).
    reflexivity.
  - intros name Hnotin. rewrite fillWithPageLoadErrors_each_get.
    apply (count_occ_not_In string_dec) in Hnotin. now rewrite Hnotin.
Qed.


End PassExecutor.

(* ================================================================== *)
(** * The top-level orchestrator *)

Section Orchestrator.

Context {env : Env}.

Lemma bind_ok_inv {A B} (m : M A) (k : A -> M B) (s s' : Session) (b : B) :
  bind m k s = (Ok b, s') ->
  exists a s1, m s = (Ok a, s1) /\ k a s1 = (Ok b, s').
Proof.
  unfold bind. destruct (m s) as [[a|err] s1]; [|discriminate].
  intros H. now exists a, s1.
Qed.

Lemma tidy_bind_at {A B} (m : M A) (k : A -> M B) :
  tidy m ->
  (forall s a s1, m s = (Ok a, s1) ->
     exists events, logged s1 (snd (k a s1)) events
                    /\ tidyOutcome (fst (k a s1)) events) ->
  tidy (bind m k).
Proof.
  intros Hm Hk s. unfold bind.
  destruct (Hm s) as (e1 & L1 & R1).
  destruct (m s) as [[a|err] s1] eqn:E; simpl in *.
  - destruct (Hk s a s1 E) as (e2 & L2 & R2).
    exists (e1 ++ e2). split; [eapply logged_trans; eassumption|].
    destruct (fst (k a s1)) as [b|err]; simpl in *.
    + now apply Forall_app.
    + destruct R2 as (before & c & -> & Hc & Hb).
      exists (e1 ++ before), c. rewrite app_assoc.
      repeat split; auto. now apply Forall_app.
  - exists e1. auto.
Qed.

(** A pass that returned: its log, and what it left in the context. *)
Lemma runPass_ok (c final : PassContext.t) (results : GathererResults)
    (s s' : Session) :
  runPass c s = (Ok (final, results), s') ->
  exists loaded loadData events after,
    logged s s' (events ++ after)
    /\ loadedLog c loaded loadData events
    /\ Forall (isHook AfterPass) after
    /\ PassContext.url final = PassContext.url loaded
    /\ BaseArtifacts.URL (PassContext.baseArtifacts final)
       = BaseArtifacts.URL (PassContext.baseArtifacts c)
    /\ BaseArtifacts.NetworkUserAgent (PassContext.baseArtifacts final)
       = BaseArtifacts.NetworkUserAgent (PassContext.baseArtifacts c)
    /\ get (PassConfig.passName (PassContext.passConfig c))
           (BaseArtifacts.devtoolsLogs (PassContext.baseArtifacts final))
       = Some (LoadData.devtoolsLog loadData).
Proof.
  unfold runPass. intros H.
  apply bind_ok_inv in H.
  destruct H as ([[loaded loadData] captured] & s1 & Hload & Hfinish).
  destruct (runPass_load_ok _ _ _ _ _ _ Hload)
    as (events & L & Hlog & _ & _ & Hpc & HU & HN & HD & _).
  exists loaded, loadData, events.
  destruct (runPass_finish_cases loaded loadData s1) as [(e & He & Ho) | Hnone].
  - rewrite (runPass_finish_failure _ _ _ _ _ He Ho) in Hfinish.
    injection Hfinish as <- <- <-.
    exists []. rewrite app_nil_r. repeat split; try assumption. constructor.
  - rewrite (runPass_finish_success _ _ _ _ Hnone) in Hfinish.
    unfold afterPass in Hfinish.
    destruct (afterPass_each_runs (PassConfig.gatherers (PassContext.passConfig loaded))
                loadData loaded captured s1)
      as (c2 & r2 & s2 & events2 & E2 & (L2 & _ & F2 & (U2 & _ & _ & Co2)) & _).
    rewrite E2 in Hfinish. injection Hfinish as <- <- <-.
    exists events2.
    split; [exact (logged_trans _ _ _ _ _ L L2)|].
    split; [exact Hlog|]. split; [exact F2|]. split; [exact U2|].
    rewrite (core_URL _ _ Co2), (core_NetworkUserAgent _ _ Co2),
      (core_devtoolsLogs _ _ Co2).
    repeat split; assumption.
Qed.

Lemma truthy_iff (v : option string) :
  truthy v = true <-> exists s, v = Some s /\ s <> "".
Proof.
  destruct v as [s|]; simpl.
  - rewrite negb_true_iff, String.eqb_neq. split.
    + intros H. now exists s.
    + now intros (s' & [= <-] & H).
  - split; [discriminate | now intros (s & H & _)].
Qed.

Lemma isUserAgentEntry_iff (entry : LogEntry.t) :
  isUserAgentEntry entry = true <-> sendsUserAgent entry.
Proof.
  unfold isUserAgentEntry, sendsUserAgent.
  now rewrite andb_true_iff, String.eqb_eq, truthy_iff.
Qed.

Lemma find_userAgentEntry_none (devtoolsLog : DevtoolsLog) :
  Forall (fun entry => ~ sendsUserAgent entry) devtoolsLog ->
  find isUserAgentEntry devtoolsLog = None.
Proof.
  induction 1 as [|entry rest Hentry _ IH]; [reflexivity|]. simpl.
  destruct (isUserAgentEntry entry) eqn:E; [|exact IH].
  apply isUserAgentEntry_iff in E. contradiction.
Qed.

(** What the first pass adds to the base artifacts. *)
Lemma firstPassExtras_ok (passConfig : PassConfig.t) (c : PassContext.t)
    (b b' : BaseArtifacts.t) (devtoolsLog : DevtoolsLog) (s s' : Session) :
  get (PassConfig.passName passConfig) (BaseArtifacts.devtoolsLogs b)
  = Some devtoolsLog ->
  firstPassExtras passConfig c b s = (Ok b', s') ->
  exists events,
    logged s s' events /\ Forall plain events
    /\ BaseArtifacts.URL b'
       = ArtifactsURL.mk (ArtifactsURL.requestedUrl (BaseArtifacts.URL b))
                         (PassContext.url c)
    /\ (Forall (fun entry => ~ sendsUserAgent entry) devtoolsLog ->
        BaseArtifacts.NetworkUserAgent b' = BaseArtifacts.NetworkUserAgent b).
Proof.
  intros Hlog H. unfold firstPassExtras in H. cbv zeta in H.
  bind_step H E1.
  destruct (plain_step _ (within_getWebAppManifest [Plain] c (or_introl eq_refl))
              (tidy_getWebAppManifest c) _ _ _ E1) as (ev1 & L1 & P1 & _).
  bind_step H E2. apply call_ok in E2.
  cbn [BaseArtifacts.devtoolsLogs BaseArtifacts.with_Stacks
         BaseArtifacts.with_WebAppManifest BaseArtifacts.with_finalUrl] in H.
  rewrite Hlog in H.
  exists (ev1 ++ [Called StacksGatherer (Ok a0)]).
  pose proof (logged_trans _ _ _ _ _ L1 E2) as L.
  assert (P : Forall plain (ev1 ++ [Called StacksGatherer (Ok a0)])).
  { apply Forall_app; split; [exact P1 | repeat constructor]. }
  destruct (find isUserAgentEntry devtoolsLog) as [entry|] eqn:Efind;
    unfold ret in H; injection H as <- <-.
  - repeat split; try assumption. intros Hnone.
    rewrite (find_userAgentEntry_none _ Hnone) in Efind. discriminate.
  - repeat split; assumption.
Qed.

Lemma tidy_firstPassExtras (passConfig : PassConfig.t) (c : PassContext.t)
    (b : BaseArtifacts.t) (devtoolsLog : DevtoolsLog) :
  get (PassConfig.passName passConfig) (BaseArtifacts.devtoolsLogs b)
  = Some devtoolsLog ->
  tidy (firstPassExtras passConfig c b).
Proof.
  intros Hlog. unfold firstPassExtras. cbv zeta.
  apply tidy_bind; [runner|]. intros manifest.
  apply tidy_bind; [runner|]. intros stacks.
  cbn [BaseArtifacts.devtoolsLogs BaseArtifacts.with_Stacks
         BaseArtifacts.with_WebAppManifest BaseArtifacts.with_finalUrl].
  rewrite Hlog.
  destruct (find isUserAgentEntry devtoolsLog); apply tidy_ret.
Qed.

Lemma tidy_run_passes (options : RunOptions) (passes : list PassConfig.t) :
  forall isFirstPass results b,
    tidy (run_passes options passes isFirstPass results b).
Proof.
  induction passes as [|passConfig rest IH]; intros isFirstPass results b.
  - apply tidy_ret.
  - cbn [run_passes]. cbv zeta.
    apply tidy_bind; [runner|]. intros _.
    apply tidy_bind_at; [apply tidy_runPass|].
    intros s [final passResults] s1 E.
    destruct (runPass_ok _ _ _ _ _ E) as (_ & loadData & _ & _ & _ & _ & _ & _ & _ & _ & Hlog).
    apply (tidy_bind
             (if isFirstPass
              then firstPassExtras passConfig final (PassContext.baseArtifacts final)
              else ret (PassContext.baseArtifacts final))).
    + destruct isFirstPass; [|apply tidy_ret].
      exact (tidy_firstPassExtras _ _ _ _ Hlog).
    + intros b'. apply IH.
Qed.

(** After the first pass, the URL and the network user agent of the base
    artifacts stay as they are. *)
Lemma run_passes_later (options : RunOptions) (passes : list PassConfig.t) :
  forall results b s results' b' s',
    run_passes options passes false results b s = (Ok (results', b'), s') ->
    BaseArtifacts.URL b' = BaseArtifacts.URL b
    /\ BaseArtifacts.NetworkUserAgent b' = BaseArtifacts.NetworkUserAgent b.
Proof.
  induction passes as [|passConfig rest IH]; intros results b s results' b' s' H.
  - unfold run_passes, ret in H. injection H as _ <- _. now split.
  - cbn [run_passes] in H. cbv zeta in H.
    bind_step H E1. bind_step H E2. destruct a0 as [final passResults].
    unfold bind at 1, ret at 1 in H.
    destruct (runPass_ok _ _ _ _ _ E2) as (_ & _ & _ & _ & _ & _ & _ & _ & HU & HN & _).
    apply IH in H. simpl in HU, HN. destruct H as (-> & ->). now split.
Qed.

Lemma plain_quiet (e : Event) : plain e -> quiet e.
Proof. unfold plain, quiet. intros ->. split; discriminate. Qed.

Lemma isHook_quiet (phase : Phase) (e : Event) : isHook phase e -> quiet e.
Proof. intros H. unfold quiet. rewrite (isHook_kind _ _ H). split; discriminate. Qed.

Lemma quiet_not_LogEnd (events : list Event) :
  Forall quiet events -> Forall (fun e => kind e <> LogEnd) events.
Proof. apply Forall_impl. now intros e [_ H]. Qed.

(** The first pass of a run that got through its passes: the page load,
    the devtools log, and what they leave in the base artifacts. *)
Lemma run_passes_first (options : RunOptions) (passConfig : PassConfig.t)
    (rest : list PassConfig.t) (b b' : BaseArtifacts.t)
    (results' : GathererResults) (s s' : Session) :
  run_passes options (passConfig :: rest) true [] b s = (Ok (results', b'), s') ->
  exists before loadContext finalUrl between devtoolsLog after,
    logged s s'
      (before
       ++ Called (GotoURL (requestedUrl options)
                    (WaitForLoad (PassConfig.recordTrace passConfig) loadContext))
                 (Ok finalUrl)
       :: between ++ Called EndDevtoolsLog (Ok devtoolsLog) :: after)
    /\ PassContext.passConfig loadContext = passConfig
    /\ Forall quiet before
    /\ Forall (fun e => kind e <> LogEnd) between
    /\ BaseArtifacts.URL b'
       = ArtifactsURL.mk (ArtifactsURL.requestedUrl (BaseArtifacts.URL b)) finalUrl
    /\ (Forall (fun entry => ~ sendsUserAgent entry) devtoolsLog ->
        BaseArtifacts.NetworkUserAgent b' = BaseArtifacts.NetworkUserAgent b).
Proof.
  intros H. cbn [run_passes] in H. cbv zeta in H.
  unfold bind at 1 in H. cbn [negb when ret] in H.
  bind_step H E2. destruct a as [final passResults].
  bind_step H E3.
  destruct (runPass_ok _ _ _ _ _ E2)
    as (loaded & loadData & events & afterHooks & L & Hlog & Fa & Hu & HU & HN & HD).
  cbn [PassContext.passConfig PassContext.baseArtifacts PassContext.url] in HU, HN, HD.
  destruct (firstPassExtras_ok _ _ _ _ _ _ _ HD E3) as (ev3 & L3 & P3 & HU3 & HN3).
  destruct (tidy_run_passes options rest false
              (assign [] passResults) a s1) as (ev4 & L4 & _).
  rewrite H in L4. simpl in L4.
  destruct (run_passes_later _ _ _ _ _ _ _ _ H) as (HU4 & HN4).
  destruct Hlog as (setup & before & recording & lc & passed & ending & -> & Hlc
                    & P1 & F1 & _ & P2 & F2 & _ & P4).
  cbn [PassContext.passConfig PassContext.url] in *.
  exists (setup ++ before ++ recording), lc, (PassContext.url loaded),
    (passed ++ ending), (LoadData.devtoolsLog loadData),
    (Called (SetThrottling (settings options) ThrottlingOff) (Ok tt)
     :: afterHooks ++ ev3 ++ ev4).
  split.
  { pose proof (logged_trans _ _ _ _ _ (logged_trans _ _ _ _ _ L L3) L4) as L'.
    repeat rewrite <- app_assoc in L'. simpl in L'.
    repeat rewrite <- app_assoc in L'. simpl in L'.
    repeat rewrite <- app_assoc. exact L'. }
  split; [exact Hlc|]. split.
  { repeat (apply Forall_app; split).
    - eapply Forall_impl; [apply plain_quiet | exact P1].
    - eapply Forall_impl; [apply (isHook_quiet BeforePass) | exact F1].
    - eapply Forall_impl; [apply plain_quiet | exact P2]. }
  split.
  { apply Forall_app; split; apply quiet_not_LogEnd.
    - eapply Forall_impl; [apply (isHook_quiet Pass) | exact F2].
    - eapply Forall_impl; [apply plain_quiet | exact P4]. }
  split.
  { rewrite HU4, HU3, HU, Hu. reflexivity. }
  intros Hnone. rewrite HN4, (HN3 Hnone), HN. reflexivity.
Qed.

Lemma firstPageLoad_none (events : list Event) :
  Forall (fun e => kind e <> PageLoad) events -> firstPageLoad events = None.
Proof.
  induction 1 as [|e es He _ IH]; [reflexivity|].
  destruct e as [c r|phase name outcome]; [|exact IH].
  destruct c; try exact IH. destruct opts; [exact IH|].
  simpl in He. congruence.
Qed.

Lemma firstPageLoad_skip (before rest : list Event) :
  firstPageLoad before = None ->
  firstPageLoad (before ++ rest) = firstPageLoad rest.
Proof.
  induction before as [|e before IH]; intros H; [reflexivity|].
  destruct e as [c r|phase name outcome]; [|apply IH; exact H].
  destruct c; try (apply IH; exact H).
  destruct opts; [apply IH; exact H|].
  simpl in H |- *. destruct r; [discriminate | apply IH; exact H].
Qed.

Lemma firstDevtoolsLog_skip (before rest : list Event) :
  firstDevtoolsLog before = None ->
  firstDevtoolsLog (before ++ rest) = firstDevtoolsLog rest.
Proof.
  induction before as [|e before IH]; intros H; [reflexivity|].
  destruct e as [c r|phase name outcome]; [|apply IH; exact H].
  destruct c; try (apply IH; exact H).
  simpl in H |- *. destruct r; [discriminate | apply IH; exact H].
Qed.

Lemma firstDevtoolsLog_none (events : list Event) :
  Forall (fun e => kind e <> LogEnd) events -> firstDevtoolsLog events = None.
Proof.
  induction 1 as [|e es He _ IH]; [reflexivity|].
  destruct e as [c r|phase name outcome]; [|exact IH].
  destruct c; try exact IH. simpl in He. congruence.
Qed.

Lemma getBaseArtifacts_ok (options : RunOptions) (b : BaseArtifacts.t)
    (s s' : Session) :
  getBaseArtifacts options s = (Ok b, s') ->
  BaseArtifacts.URL b = ArtifactsURL.mk (requestedUrl options) ""
  /\ BaseArtifacts.NetworkUserAgent b = "".
Proof.
  unfold getBaseArtifacts. intros H. bind_step H E.
  unfold bind, ask, ret in H. injection H as <- _. now split.
Qed.

Lemma collectArtifacts_ok (results : GathererResults) (b : BaseArtifacts.t)
    (artifacts : Artifacts.t) (s s' : Session) :
  collectArtifacts results b s = (Ok artifacts, s') ->
  s' = s
  /\ BaseArtifacts.URL (Artifacts.base artifacts) = BaseArtifacts.URL b
  /\ BaseArtifacts.NetworkUserAgent (Artifacts.base artifacts)
     = BaseArtifacts.NetworkUserAgent b.
Proof.
  rewrite collectArtifacts_unfold.
  destruct (collect_each results []); [|discriminate].
  intros [= <- <-]. now repeat split.
Qed.

Lemma collect_each_throws (entries : list (string * list Settled)) :
  forall acc err,
    collect_each entries acc = Throw err -> exists name, err = noArtifact name.
Proof.
  induction entries as [|[n h] entries IH]; intros acc err H; [discriminate|].
  cbn [collect_each] in H.
  destruct (has defined n acc); [now apply IH in H|].
  destruct (negb (has defined n (set n (artifactOf h) acc))).
  - injection H as <-. now exists n.
  - now apply IH in H.
Qed.

Lemma collectArtifacts_throws (results : GathererResults) (b : BaseArtifacts.t)
    (err : Value) (s s' : Session) :
  collectArtifacts results b s = (Throw err, s') ->
  s' = s /\ exists name, err = noArtifact name.
Proof.
  rewrite collectArtifacts_unfold.
  destruct (collect_each results []) eqn:E; [discriminate|].
  intros [= <- <-]. split; [reflexivity|]. exact (collect_each_throws _ _ _ E).
Qed.

(** A run that got to the assembly: the setup, the passes, the teardown. *)
Lemma run_try_ok (passes : list PassConfig.t) (options : RunOptions)
    (results : GathererResults) (b : BaseArtifacts.t) (s s' : Session) :
  run_try passes options s = (Ok (results, b), s') ->
  exists setup b0 s0 passEvents s1 teardown,
    logged s s0 setup /\ Forall plain setup
    /\ BaseArtifacts.URL b0 = ArtifactsURL.mk (requestedUrl options) ""
    /\ BaseArtifacts.NetworkUserAgent b0 = ""
    /\ run_passes options passes true [] b0 s0 = (Ok (results, b), s1)
    /\ logged s0 s1 passEvents
    /\ logged s1 s' teardown.
Proof.
  unfold run_try. cbv zeta. intros H.
  bind_step H E1. apply call_ok in E1.
  bind_step H E2.
  destruct (getBaseArtifacts_ok _ _ _ _ E2) as (HU & HN).
  destruct (plain_step _ (within_getBaseArtifacts [Plain] options (or_introl eq_refl))
              (tidy_getBaseArtifacts options) _ _ _ E2) as (ev2 & L2 & P2 & _).
  bind_step H E3.
  destruct (plain_step _ (within_loadBlank [Plain] None (or_introl eq_refl))
              (tidy_loadBlank None) _ _ _ E3) as (ev3 & L3 & P3 & _).
  bind_step H E4. apply call_ok in E4.
  bind_step H E5.
  destruct (plain_step _ (within_setupDriver [Plain] options (or_introl eq_refl))
              (tidy_setupDriver options) _ _ _ E5) as (ev5 & L5 & P5 & _).
  bind_step H E6. destruct a4 as [results6 b6].
  destruct (tidy_run_passes options passes true []
              (BaseArtifacts.with_BenchmarkIndex a2 a0) s4) as (ev6 & L6 & _).
  rewrite E6 in L6. simpl in L6.
  bind_step H E7.
  assert (exists ev7, logged s5 s6 ev7) as (ev7 & L7).
  { eapply plain_step in E7; [destruct E7 as (ev7 & L7 & _); now exists ev7 | |];
      runner. }
  bind_step H E8.
  pose proof (disposeDriver_logged s6) as L8. rewrite E8 in L8. simpl in L8.
  set (ev8 := [Called Disconnect (fst (call Disconnect s6))]) in *.
  unfold ret in H. injection H as <- <- <-.
  exists (Called Connect (Ok a) :: ev2 ++ ev3 ++ Called GetBenchmarkIndex (Ok a2) :: ev5),
    (BaseArtifacts.with_BenchmarkIndex a2 a0), s4, ev6, s5, (ev7 ++ ev8).
  split.
  { pose proof (logged_trans _ _ _ _ _
                  (logged_trans _ _ _ _ _
                     (logged_trans _ _ _ _ _
                        (logged_trans _ _ _ _ _ E1 L2) L3) E4) L5) as L.
    repeat rewrite <- app_assoc in L. simpl in L. exact L. }
  split.
  { constructor; [reflexivity|].
    repeat (apply Forall_app; split); try assumption.
    constructor; [reflexivity | assumption]. }
  split; [exact HU|]. split; [exact HN|]. split; [exact E6|].
  split; [exact L6 | exact (logged_trans _ _ _ _ _ L7 L8)].
Qed.

(** C8. In the bundle of a run the requested URL is the one the run was
    given, whatever the passes did.  With no pass the final URL is left
    empty; otherwise the first page load in the log is the navigation of
    the first pass to the requested URL, and the final URL of the bundle
    is the URL that navigation resolved to (the post-redirect URL when the
    document redirected), whatever later passes load. *)
Theorem run_records_first_final_url
    (passes : list PassConfig.t) (options : RunOptions)
    (artifacts : Artifacts.t) (s s' : Session) (events : list Event) :
  run passes options s = (Ok artifacts, s') ->
  logged s s' events ->
  let URL := BaseArtifacts.URL (Artifacts.base artifacts) in
  ArtifactsURL.requestedUrl URL = requestedUrl options
  /\ match passes with
     | [] => ArtifactsURL.finalUrl URL = ""
     | firstPass :: _ =>
         exists before loadContext finalUrl after,
           events
           = before
             ++ Called (GotoURL (requestedUrl options)
                          (WaitForLoad (PassConfig.recordTrace firstPass)
                                       loadContext))
                       (Ok finalUrl)
             :: after
           /\ PassContext.passConfig loadContext = firstPass
           /\ firstPageLoad before = None
           /\ firstPageLoad events = Some finalUrl
           /\ ArtifactsURL.finalUrl URL = finalUrl
     end.
Proof.
  intros Hrun L. unfold run in Hrun.
  destruct (run_try passes options s) as [[[results b]|err] s1] eqn:Htry.
  2:{ destruct (disposeDriver s1). discriminate. }
  destruct (collectArtifacts_ok _ _ _ _ _ Hrun) as (-> & HU & _).
  destruct (run_try_ok _ _ _ _ _ _ Htry)
    as (setup & b0 & s0 & passEvents & s2 & teardown & L0 & P0 & HU0 & _ & Hp & L1 & L2).
  cbv zeta. rewrite HU.
  destruct passes as [|firstPass rest].
  - unfold run_passes, ret in Hp. injection Hp as _ <- _.
    rewrite HU0. now split.
  - destruct (run_passes_first _ _ _ _ _ _ _ _ Hp)
      as (before & lc & finalUrl & between & devtoolsLog & after & Lp & Hlc
          & Qb & _ & HUb & _).
    rewrite HUb, HU0. split; [reflexivity|].
    pose proof (logged_trans _ _ _ _ _ (logged_trans _ _ _ _ _ L0 Lp) L2) as L'.
    rewrite (logged_inj _ _ _ _ L L').
    assert (Hnone : firstPageLoad (setup ++ before) = None).
    { apply firstPageLoad_none, Forall_app. split.
      - eapply Forall_impl; [|exact P0]. intros e He. apply (plain_quiet e He).
      - eapply Forall_impl; [|exact Qb]. now intros e [He _]. }
    assert (Hevents :
              (setup
               ++ before
               ++ Called (GotoURL (requestedUrl options)
                            (WaitForLoad (PassConfig.recordTrace firstPass) lc))
                         (Ok finalUrl)
               :: between ++ Called EndDevtoolsLog (Ok devtoolsLog) :: after)
              ++ teardown
              = (setup ++ before)
                ++ Called (GotoURL (requestedUrl options)
                             (WaitForLoad (PassConfig.recordTrace firstPass) lc))
                          (Ok finalUrl)
                :: (between ++ Called EndDevtoolsLog (Ok devtoolsLog) :: after)
                   ++ teardown).
    { repeat (rewrite <- app_assoc || rewrite <- app_comm_cons). reflexivity. }
    rewrite Hevents.
    exists (setup ++ before), lc, finalUrl,
      ((between ++ Called EndDevtoolsLog (Ok devtoolsLog) :: after) ++ teardown).
    split; [reflexivity|].
    split; [exact Hlc|]. split; [exact Hnone|]. split; [|reflexivity].
    now rewrite (firstPageLoad_skip _ _ Hnone).
Qed.

(** C10. In the bundle of a run without passes the network user agent is
    the empty string.  Otherwise the first devtools log the driver handed
    over in the run is the one of the first pass, and when no entry of it
    is a 'Network.requestWillBeSent' with a non-empty User-Agent header,
    the network user agent of the bundle is the empty string, whatever
    the logs of later passes hold. *)
Theorem run_leaves_network_user_agent_empty
    (passes : list PassConfig.t) (options : RunOptions)
    (artifacts : Artifacts.t) (s s' : Session) (events : list Event) :
  run passes options s = (Ok artifacts, s') ->
  logged s s' events ->
  match passes with
  | [] => BaseArtifacts.NetworkUserAgent (Artifacts.base artifacts) = ""
  | _ :: _ =>
      exists before devtoolsLog after,
        events = before ++ Called EndDevtoolsLog (Ok devtoolsLog) :: after
        /\ firstDevtoolsLog before = None
        /\ firstDevtoolsLog events = Some devtoolsLog
        /\ (Forall (fun entry => ~ sendsUserAgent entry) devtoolsLog ->
            BaseArtifacts.NetworkUserAgent (Artifacts.base artifacts) = "")
  end.
Proof.
  intros Hrun L. unfold run in Hrun.
  destruct (run_try passes options s) as [[[results b]|err] s1] eqn:Htry.
  2:{ destruct (disposeDriver s1). discriminate. }
  destruct (collectArtifacts_ok _ _ _ _ _ Hrun) as (-> & _ & HN).
  destruct (run_try_ok _ _ _ _ _ _ Htry)
    as (setup & b0 & s0 & passEvents & s2 & teardown & L0 & P0 & _ & HN0 & Hp & L1 & L2).
  rewrite HN.
  destruct passes as [|firstPass rest].
  - unfold run_passes, ret in Hp. injection Hp as _ <- _. exact HN0.
  - destruct (run_passes_first _ _ _ _ _ _ _ _ Hp)
      as (before & lc & finalUrl & between & devtoolsLog & after & Lp & _
          & Qb & Qm & _ & HNb).
    pose proof (logged_trans _ _ _ _ _ (logged_trans _ _ _ _ _ L0 Lp) L2) as L'.
    rewrite (logged_inj _ _ _ _ L L').
    set (load := Called (GotoURL (requestedUrl options)
                           (WaitForLoad (PassConfig.recordTrace firstPass) lc))
                        (Ok finalUrl)) in *.
    assert (Hnone : firstDevtoolsLog (setup ++ before ++ load :: between) = None).
    { apply firstDevtoolsLog_none. repeat (apply Forall_app; split).
      - eapply Forall_impl; [|exact P0]. intros e He. apply (plain_quiet e He).
      - apply quiet_not_LogEnd, Qb.
      - constructor; [discriminate | exact Qm]. }
    assert (Hevents :
              (setup
               ++ before
               ++ load :: between ++ Called EndDevtoolsLog (Ok devtoolsLog) :: after)
              ++ teardown
              = (setup ++ before ++ load :: between)
                ++ Called EndDevtoolsLog (Ok devtoolsLog) :: after ++ teardown).
    { repeat (rewrite <- app_assoc || rewrite <- app_comm_cons). reflexivity. }
    rewrite Hevents.
    exists (setup ++ before ++ load :: between), devtoolsLog, (after ++ teardown).
    split; [reflexivity|]. split; [exact Hnone|]. split.
    + now rewrite (firstDevtoolsLog_skip _ _ Hnone).
    + intros Hno. now rewrite (HNb Hno).
Qed.

Lemma triedOutcome_bind {A B} (m : M A) (k : A -> M B) :
  tidy m -> (forall a, traced triedOutcome (k a)) ->
  traced triedOutcome (bind m k).
Proof.
  intros Hm Hk. eapply traced_bind; [exact Hm | exact Hk | |].
  - intros a e1 [b|err] e2 H1 H2; simpl in *.
    + destruct H2 as (H2 & before & disconnected & -> & Hd).
      split; [now apply Forall_app|].
      exists (e1 ++ before), disconnected. now rewrite app_assoc.
    + destruct H2 as [(before & c & -> & Hc & Hb)
                     | (before & thrown & -> & Ht & He & Hb)].
      * left. exists (e1 ++ before), c. rewrite app_assoc.
        repeat split; auto. now apply Forall_app.
      * right. exists (e1 ++ before), thrown. rewrite app_assoc.
        repeat split; auto. now apply Forall_app.
  - intros err e1 H. left. exact H.
Qed.

Lemma run_try_disposes (passes : list PassConfig.t) (options : RunOptions) :
  traced triedOutcome (run_try passes options).
Proof.
  unfold run_try. cbv zeta.
  apply triedOutcome_bind; [runner|]. intros _.
  apply triedOutcome_bind; [runner|]. intros b.
  apply triedOutcome_bind; [runner|]. intros _.
  apply triedOutcome_bind; [runner|]. intros benchmarkIndex.
  apply triedOutcome_bind; [runner|]. intros _.
  apply triedOutcome_bind; [apply tidy_run_passes|]. intros [results b'].
  apply triedOutcome_bind; [runner|]. intros _.
  intros s. unfold bind. rewrite disposeDriver_run. unfold ret.
  exists [Called Disconnect (fst (call Disconnect s))].
  split.
  { destruct (disposal (fst (call Disconnect s)));
      exact (call_logged Disconnect s). }
  destruct (fst (call Disconnect s)) as [u|thrown] eqn:E; simpl.
  - split.
    + constructor; [|constructor]. unfold benign. simpl. tauto.
    + exists [], (Ok u). split; [reflexivity | simpl; tauto].
  - destruct thrown; simpl;
      try (split;
           [ constructor; [|constructor]; unfold benign; simpl; tauto
           | eexists [], _; split; [reflexivity | simpl; tauto] ]).
    + right. exists [], Undefined. repeat split; auto.
    + right. exists [], Null. repeat split; auto.
Qed.

(** C6. [run] returns a bundle only when no driver call threw and the
    disposal that ends the [try] went through; in every case the driver
    has been disconnected.  When a driver call throws, at whatever step,
    the very next thing done is the disconnect and [run] throws exactly
    what that call threw.  When the disposal itself fails (the disconnect
    rejected with [undefined] or [null], whose message the handler cannot
    read), the very next thing done is another disconnect and [run] throws
    the error of the disposal.  When the assembly fails, after the
    disposal, [run] throws the assembly's error.  In none of these cases
    is a bundle returned. *)
Theorem run_fails_atomically
    (passes : list PassConfig.t) (options : RunOptions) (s : Session) :
  exists events,
    logged s (snd (run passes options s)) events
    /\ Exists isDisconnect events
    /\ match fst (run passes options s) with
       | Ok artifacts =>
           Forall (fun e => ~ failedStep e) events /\ disposed events
       | Throw err =>
           (exists before call disconnected,
               events = before ++ [Called call (Throw err);
                                   Called Disconnect disconnected]
               /\ failedStep (Called call (Throw err))
               /\ Forall (fun e => ~ failedStep e) before)
           \/ (exists before thrown disconnected,
                  events = before ++ [Called Disconnect (Throw thrown);
                                      Called Disconnect disconnected]
                  /\ (thrown = Undefined \/ thrown = Null)
                  /\ err = propertyOfNothing "message" thrown
                  /\ Forall (fun e => ~ failedStep e) before)
           \/ (Forall (fun e => ~ failedStep e) events
               /\ disposed events
               /\ exists gathererName, err = noArtifact gathererName)
       end.
Proof.
  unfold run.
  destruct (run_try_disposes passes options s) as (events & L & T).
  destruct (run_try passes options s) as [[[results b]|err] s1]; simpl in *.
  - exists events. destruct T as (T & D).
    assert (Hd : Exists isDisconnect events).
    { destruct D as (before & disconnected & -> & _).
      apply Exists_app. right. constructor. exact I. }
    destruct (collectArtifacts results b s1) as [[artifacts|err] s2] eqn:E; simpl.
    + destruct (collectArtifacts_ok _ _ _ _ _ E) as (-> & _).
      repeat split; assumption.
    + destruct (collectArtifacts_throws _ _ _ _ _ E) as (-> & Hname).
      split; [exact L|]. split; [exact Hd|]. right. right. now repeat split.
  - pose proof (disposeDriver_logged s1) as Ld.
    destruct (disposeDriver s1) as [r2 s2]. simpl in *.
    exists (events ++ [Called Disconnect (fst (call Disconnect s1))]).
    split; [exact (logged_trans _ _ _ _ _ L Ld)|].
    split; [apply Exists_app; right; constructor; exact I|].
    destruct T as [(before & c & -> & Hc & Hb)
                  | (before & thrown & -> & Ht & He & Hb)].
    + left. exists before, c, (fst (call Disconnect s1)).
      split; [now rewrite <- app_assoc | now split].
    + right. left. exists before, thrown, (fst (call Disconnect s1)).
      split; [now rewrite <- app_assoc | now repeat split].
Qed.

End Orchestrator.

(* ================================================================== *)
(** * The theorems at work on the concrete environment *)

(** A document that comes back with status 404 after an unrelated
    request: the error carries the text "404", the numeral of the code. *)
Lemma getPageLoadError_truth_table_witness :
  getPageLoadError (env := Sample.env) "http://a.test/#top"
    [NetworkRequest.mk "http://b.test/" false "" 200;
     NetworkRequest.mk "http://a.test/" false "" 404]
  = Some (mkLHError ERRORED_DOCUMENT_REQUEST [("statusCode", "404")])
  /\ rendersAs "404" 404.
Proof.
  destruct (proj2 (getPageLoadError_truth_table (env := Sample.env)
                     "http://a.test/#top"
                     [NetworkRequest.mk "http://b.test/" false "" 200;
                      NetworkRequest.mk "http://a.test/" false "" 404])
                  [NetworkRequest.mk "http://b.test/" false "" 200]
                  (NetworkRequest.mk "http://a.test/" false "" 404)
                  [] eq_refl
                  ltac:(constructor; [reflexivity | constructor])
                  eq_refl)
    as (_ & _ & Herrored & _).
  destruct (Herrored eq_refl eq_refl) as (Herror & Htext).
  split; [exact Herror|].
  apply Htext. split; reflexivity.
Defined.

(** An Android host with no form factor set is tested as a mobile device. *)
Lemma TestedAsMobileDevice_truth_table_witness :
  exists baseArtifacts s',
    getBaseArtifacts (env := Sample.env) Sample.options Sample.redirecting
    = (Ok baseArtifacts, s')
    /\ BaseArtifacts.TestedAsMobileDevice baseArtifacts = true.
Proof.
  destruct (TestedAsMobileDevice_truth_table (env := Sample.env)
              Sample.options Sample.redirecting
              "Mozilla/5.0 (Linux; Android 6.0.1; Nexus 5) Mobile Safari/537.36"
              (world (env := Sample.env) Sample.redirecting) eq_refl)
    as (baseArtifacts & s' & Hrun & _ & Hiff & _).
  exists baseArtifacts, s'. split; [exact Hrun|].
  apply Hiff. right. split; [discriminate|]. split; [discriminate|].
  left. exists "Mozilla/5.0 (Linux; ", " 6.0.1; Nexus 5) Mobile Safari/537.36".
  reflexivity.
Defined.

(** A value produced in [pass] stands when [afterPass] produces nothing. *)
Lemma collectArtifacts_last_defined_value_witness :
  exists artifacts s',
    collectArtifacts (env := Sample.env)
      [("A", map Resolved ([Undefined] ++ Object 1 :: [Undefined]))]
      Sample.baseArtifacts Sample.redirecting
    = (Ok artifacts, s').
Proof.
  apply (proj2 (collectArtifacts_last_defined_value (env := Sample.env)
                  "A" [Undefined] [Undefined] (Object 1)
                  [("A", map Resolved ([Undefined] ++ Object 1 :: [Undefined]))]
                  Sample.baseArtifacts Sample.redirecting
                  eq_refl eq_refl eq_refl (Forall_cons _ eq_refl (Forall_nil _)))).
  constructor; [discriminate | constructor].
Defined.

(** C4 as stated fails: with [beforePass] and [afterPass] resolved to values
    and [pass] rejected, the artifact is the rejection of [pass], not the
    value of [afterPass]. *)
Lemma afterPass_value_does_not_win :
  exists artifacts,
    fst (collectArtifacts (env := Sample.env)
           [("A", [Resolved (Object 1); Rejected (Error "pass failed");
                   Resolved (Object 2)])]
           Sample.baseArtifacts Sample.redirecting)
    = Ok artifacts
    /\ get "A" (Artifacts.gathered artifacts) = Some (Error "pass failed")
    /\ get "A" (Artifacts.gathered artifacts) <> Some (Object 2).
Proof.
  eexists. split; [reflexivity|]. split; [reflexivity | discriminate].
Qed.

Lemma collectArtifacts_pass_rejection_surfaces_witness :
  exists artifacts s',
    collectArtifacts (env := Sample.env)
      [("A", [Resolved (Object 1); Rejected (Error "pass failed");
              Resolved (Object 2)])]
      Sample.baseArtifacts Sample.redirecting
    = (Ok artifacts, s').
Proof.
  apply (proj2 (collectArtifacts_pass_rejection_surfaces (env := Sample.env)
                  "A" (Object 1) (Object 2) (Error "pass failed")
                  [("A", [Resolved (Object 1); Rejected (Error "pass failed");
                          Resolved (Object 2)])]
                  Sample.baseArtifacts Sample.redirecting
                  eq_refl eq_refl eq_refl eq_refl eq_refl)).
  constructor; [discriminate | constructor].
Defined.

(** C5 as stated fails: with every phase rejected, the artifact is the
    first rejection, not the last. *)
Lemma last_rejection_does_not_win :
  exists artifacts,
    fst (collectArtifacts (env := Sample.env)
           [("A", [Rejected (Error "beforePass failed");
                   Rejected (Error "pass failed");
                   Rejected (Error "afterPass failed")])]
           Sample.baseArtifacts Sample.redirecting)
    = Ok artifacts
    /\ get "A" (Artifacts.gathered artifacts) = Some (Error "beforePass failed")
    /\ get "A" (Artifacts.gathered artifacts) <> Some (Error "afterPass failed").
Proof.
  eexists. split; [reflexivity|]. split; [reflexivity | discriminate].
Qed.

Lemma collectArtifacts_first_rejection_surfaces_witness :
  exists artifacts s',
    collectArtifacts (env := Sample.env)
      [("A", [Rejected (Error "beforePass failed");
              Rejected (Error "pass failed");
              Rejected (Error "afterPass failed")])]
      Sample.baseArtifacts Sample.redirecting
    = (Ok artifacts, s').
Proof.
  refine (proj2 (collectArtifacts_first_rejection_surfaces (env := Sample.env)
                  "A"
                  [Rejected (Error "beforePass failed");
                   Rejected (Error "pass failed");
                   Rejected (Error "afterPass failed")]
                  [Rejected (Error "pass failed");
                   Rejected (Error "afterPass failed")]
                  (Error "beforePass failed")
                  [("A", [Rejected (Error "beforePass failed");
                          Rejected (Error "pass failed");
                          Rejected (Error "afterPass failed")])]
                  Sample.baseArtifacts Sample.redirecting
                  eq_refl eq_refl _ eq_refl eq_refl) _).
  - repeat constructor.
  - constructor; [discriminate | constructor].
Defined.

(** A pass whose document request fails to resolve: gatherer A's two
    results are followed by the DNS failure, and the warning is pushed. *)
Lemma runPass_page_load_failure_witness :
  exists final results s1,
    runPass (env := Sample.env) Sample.passContext Sample.unresolvable
    = (Ok (final, results), s1)
    /\ BaseArtifacts.LighthouseRunWarnings (PassContext.baseArtifacts final)
       = ["DNS servers could not resolve the provided domain."]
    /\ get "A" results
       = Some [Resolved Undefined; Resolved Undefined;
               Rejected (LHErr (mkLHError DNS_FAILURE []))].
Proof.
  let r := eval vm_compute in
    (runPass_load (env := Sample.env) Sample.passContext Sample.unresolvable) in
  match r with
  | (Ok (?loaded, ?loadData, ?captured), ?s1) =>
      assert (Hload : runPass_load (env := Sample.env)
                        Sample.passContext Sample.unresolvable
                      = (Ok (loaded, loadData, captured), s1))
        by (vm_compute; reflexivity);
      destruct (runPass_page_load_failure (env := Sample.env)
                  Sample.passContext loaded loadData captured
                  Sample.unresolvable s1 (mkLHError DNS_FAILURE [])
                  Hload eq_refl eq_refl)
        as (final & results & events & Hrun & _ & _ & Hwarn & _ & Hone & _);
      exists final, results, s1
  end.
  split; [exact Hrun|]. split.
  - rewrite Hwarn. reflexivity.
  - rewrite (Hone ltac:(repeat constructor; simpl; intuition discriminate)
                  "A" (or_introl eq_refl)).
    reflexivity.
Defined.

(** A run of two passes whose first navigation redirects. *)
Lemma run_records_first_final_url_witness :
  exists artifacts s',
    run (env := Sample.env) [Sample.defaultPass; Sample.offlinePass]
        Sample.options Sample.redirecting
    = (Ok artifacts, s')
    /\ BaseArtifacts.URL (Artifacts.base artifacts)
       = ArtifactsURL.mk "http://a.test/" "http://a.test/b".
Proof.
  let r := eval vm_compute in
    (run (env := Sample.env) [Sample.defaultPass; Sample.offlinePass]
         Sample.options Sample.redirecting) in
  match r with
  | (Ok ?artifacts, ?s') =>
      assert (Hrun : run (env := Sample.env)
                       [Sample.defaultPass; Sample.offlinePass]
                       Sample.options Sample.redirecting
                     = (Ok artifacts, s'))
        by (vm_compute; reflexivity);
      destruct (run_records_first_final_url (env := Sample.env)
                  [Sample.defaultPass; Sample.offlinePass] Sample.options
                  artifacts Sample.redirecting s'
                  (calls (env := Sample.env) s') Hrun eq_refl)
        as (_ & before & loadContext & finalUrl & after & _ & _ & _ & Hfirst & _);
      exists artifacts, s'
  end.
  split; [exact Hrun | reflexivity].
Defined.

(** A run whose first devtools log holds no request with a user agent. *)
Lemma run_leaves_network_user_agent_empty_witness :
  exists artifacts s',
    run (env := Sample.env) [Sample.defaultPass] Sample.options Sample.unresolvable
    = (Ok artifacts, s')
    /\ BaseArtifacts.NetworkUserAgent (Artifacts.base artifacts) = "".
Proof.
  let r := eval vm_compute in
    (run (env := Sample.env) [Sample.defaultPass] Sample.options
         Sample.unresolvable) in
  match r with
  | (Ok ?artifacts, ?s') =>
      assert (Hrun : run (env := Sample.env) [Sample.defaultPass] Sample.options
                       Sample.unresolvable
                     = (Ok artifacts, s'))
        by (vm_compute; reflexivity);
      destruct (run_leaves_network_user_agent_empty (env := Sample.env)
                  [Sample.defaultPass] Sample.options
                  artifacts Sample.unresolvable s'
                  (calls (env := Sample.env) s') Hrun eq_refl)
        as (before & devtoolsLog & after & _ & _ & Hfirst & Hempty);
      exists artifacts, s'
  end.
  split; [exact Hrun|].
  apply Hempty. vm_compute in Hfirst. injection Hfirst as <-.
  constructor; [|constructor].
  intros (_ & userAgent & Hget & _). discriminate Hget.
Defined.


(** A run against a driver that cannot connect: the error of [connect] is
    what [run] throws, right after which the driver is disconnected. *)
Lemma run_fails_atomically_witness :
  fst (run (env := Sample.env) [Sample.defaultPass] Sample.options
           Sample.unreachable)
  = Throw (Error "connect failed")
  /\ exists events,
      logged (env := Sample.env) Sample.unreachable
        (snd (run (env := Sample.env) [Sample.defaultPass] Sample.options
                  Sample.unreachable))
        events
      /\ Exists isDisconnect events.
Proof.
  split; [reflexivity|].
  destruct (run_fails_atomically (env := Sample.env) [Sample.defaultPass]
              Sample.options Sample.unreachable)
    as (events & L & D & _).
  now exists events.
Defined.

(* ================================================================== *)
(** * More on the artifact collector *)

Section CollectorMore.

Context {env : Env}.

Lemma existsb_eqb_In (x : string) (seen : list string) :
  existsb (String.eqb x) seen = true <-> In x seen.
Proof.
  rewrite existsb_exists. split.
  - intros (y & Hin & E). apply String.eqb_eq in E. now subst.
  - intros Hin. exists x. split; [exact Hin | apply String.eqb_refl].
Qed.

Lemma unique_In (xs : list string) :
  forall seen w, In w (unique seen xs) <-> In w xs /\ ~ In w seen.
Proof.
  induction xs as [|x xs IH]; intros seen w; simpl; [tauto|].
  destruct (existsb (String.eqb x) seen) eqn:E.
  - apply existsb_eqb_In in E. rewrite IH. split.
    + tauto.
    + intros [[-> | Hin] Hns]; [contradiction | tauto].
  - assert (Hx : ~ In x seen).
    { intros Hin. apply existsb_eqb_In in Hin. congruence. }
    simpl. rewrite IH. simpl. split.
    + intros [-> | (Hin & Hns)]; [tauto|]. split; [tauto|]. tauto.
    + intros [[-> | Hin] Hns]; [now left|].
      destruct (string_dec x w) as [->|Hne]; [now left|]. right. tauto.
Qed.

Lemma unique_NoDup (xs : list string) : forall seen, NoDup (unique seen xs).
Proof.
  induction xs as [|x xs IH]; intros seen; simpl; [constructor|].
  destruct (existsb (String.eqb x) seen); [apply IH|].
  constructor; [|apply IH].
  rewrite unique_In. simpl. tauto.
Qed.

Lemma unique_fixed (xs : list string) :
  forall seen,
    NoDup xs -> (forall w, In w xs -> ~ In w seen) -> unique seen xs = xs.
Proof.
  induction xs as [|x xs IH]; intros seen Hnd Hdisj; [reflexivity|]. simpl.
  inversion Hnd as [|? ? Hx Hnd']; subst.
  destruct (existsb (String.eqb x) seen) eqn:E.
  - apply existsb_eqb_In in E. exfalso. apply (Hdisj x); [now left | exact E].
  - f_equal. apply IH; [exact Hnd'|].
    intros w Hin [<- | Hs]; [contradiction|].
    apply (Hdisj w); [now right | exact Hs].
Qed.

(** X1. The warnings of a bundle hold every warning gathered during the
    run and nothing else, each once; a list without repetition is kept as
    it is. *)
Theorem collectArtifacts_warnings_are_unique
    (gathererResults : GathererResults) (baseArtifacts : BaseArtifacts.t)
    (artifacts : Artifacts.t) (s s' : Session) :
  collectArtifacts gathererResults baseArtifacts s = (Ok artifacts, s') ->
  let gathered := BaseArtifacts.LighthouseRunWarnings baseArtifacts in
  let warnings :=
    BaseArtifacts.LighthouseRunWarnings (Artifacts.base artifacts) in
  NoDup warnings
  /\ (forall w, In w warnings <-> In w gathered)
  /\ (NoDup gathered -> warnings = gathered).
Proof.
  rewrite collectArtifacts_unfold.
  destruct (collect_each gathererResults []); [|discriminate].
  intros [= <- <-]. cbv zeta.
  cbn [Artifacts.base BaseArtifacts.LighthouseRunWarnings
         BaseArtifacts.with_Timing BaseArtifacts.with_warnings].
  split; [apply unique_NoDup|]. split.
  - intros w. rewrite unique_In. simpl. tauto.
  - intros Hnd. apply unique_fixed; [exact Hnd | intros w _ []].
Qed.

Lemma artifactOf_void (history : list Settled) :
  Forall (fun p => p = Resolved Undefined) history ->
  artifactOf history = Undefined.
Proof.
  intros H. unfold artifactOf.
  assert (E : history = map Resolved (repeat Undefined (List.length history))).
  { induction H as [|p ps -> _ IH]; simpl; [reflexivity | now rewrite <- IH]. }
  rewrite E, promiseAll_resolved.
  rewrite filter_undefined; [reflexivity|].
  apply Forall_forall. intros v Hv. exact (repeat_spec _ _ _ Hv).
Qed.

(** A history is a run of resolved values, then possibly a rejection. *)
Lemma history_split (history : list Settled) :
  (exists values reason later,
      history = map Resolved values ++ Rejected reason :: later)
  \/ (exists values, history = map Resolved values).
Proof.
  induction history as [|[v|reason] rest IH].
  - right. now exists [].
  - destruct IH as [(values & reason & later & ->) | (values & ->)].
    + left. now exists (v :: values), reason, later.
    + right. now exists (v :: values).
  - left. now exists [], reason, rest.
Qed.

(** Values are all [undefined], or have a last defined one. *)
Lemma values_split (values : list Value) :
  Forall (fun v => v = Undefined) values
  \/ (exists before v after,
         values = before ++ v :: after
         /\ v <> Undefined
         /\ Forall (fun later => later = Undefined) after).
Proof.
  induction values as [|x xs IH]; [left; constructor|].
  destruct IH as [Hall | (before & v & after & -> & Hv & Hafter)].
  - destruct (defined x) eqn:Hx.
    + right. exists [], x, xs. split; [reflexivity|]. split; [|exact Hall].
      intros ->. discriminate.
    + left. constructor; [|exact Hall]. now destruct x.
  - right. now exists (x :: before), v, after.
Qed.

(** The value the code stores follows the documented rule, which
    determines it. *)
Lemma artifactOf_rule (history : list Settled) :
  isArtifactOf history (artifactOf history).
Proof.
  destruct (history_split history)
    as [(values & reason & later & ->) | (values & ->)].
  - rewrite artifactOf_first_rejection. constructor.
  - destruct (values_split values)
      as [Hall | (before & v & after & -> & Hv & Hafter)].
    + rewrite artifactOf_void; [now constructor|].
      clear -Hall. induction Hall as [|v vs -> _ IH]; simpl; now constructor.
    + rewrite artifactOf_last_defined;
        [now constructor | now apply defined_true | exact Hafter].
Qed.

Lemma isArtifactOf_artifactOf (history : list Settled) (artifact : Value) :
  isArtifactOf history artifact -> artifactOf history = artifact.
Proof.
  intros [values reason later | before after v Hv Hafter | values Hall].
  - apply artifactOf_first_rejection.
  - apply artifactOf_last_defined; [now apply defined_true | exact Hafter].
  - apply artifactOf_void.
    clear -Hall. induction Hall as [|v vs -> _ IH]; simpl; now constructor.
Qed.

Lemma provides_artifact (history : list Settled) :
  ~ isArtifactOf history Undefined -> artifactOf history <> Undefined.
Proof.
  intros H E. apply H. rewrite <- E. apply artifactOf_rule.
Qed.

(** The loop gets through a stretch of entries that all provide an
    artifact without storing anything under a name that is not among
    them. *)
Lemma collect_each_passes (name : string)
    (rest : list (string * list Settled)) :
  forall (before : list (string * list Settled)) (acc : Obj Value),
    Forall (fun entry => artifactOf (snd entry) <> Undefined) before ->
    ~ In name (map fst before) ->
    get name acc = None ->
    exists acc',
      collect_each (before ++ rest) acc = collect_each rest acc'
      /\ get name acc' = None.
Proof.
  induction before as [|[n h] before IH]; intros acc Hall Hnot Hacc.
  - now exists acc.
  - inversion Hall as [|? ? Hh Hall']; subst. simpl in Hnot, Hh.
    cbn [app collect_each].
    destruct (has defined n acc).
    + apply IH; tauto.
    + rewrite has_set_same. apply defined_true in Hh. rewrite Hh. simpl.
      apply IH; [exact Hall' | tauto|].
      rewrite get_set_other; [exact Hacc | intros ->; tauto].
Qed.

(** X2. Take results none of whose keys is an array index, so that they
    are gone through in insertion order.  A gatherer all of whose phase
    results are [undefined] (or that has none), and whose name is not
    that of a property inherited from [Object.prototype], makes
    [collectArtifacts] throw the error naming it, when the gatherers
    before it provide artifacts; the session is left as it was. *)
Theorem collectArtifacts_throws_without_artifact
    (name : string) (history : list Settled)
    (before after : list (string * list Settled))
    (baseArtifacts : BaseArtifacts.t) (s : Session) :
  Forall (fun entry => arrayIndex (fst entry) = false)
         (before ++ (name, history) :: after) ->
  inherited name = false ->
  Forall (fun p => p = Resolved Undefined) history ->
  Forall (fun entry => ~ isArtifactOf (snd entry) Undefined) before ->
  ~ In name (map fst before) ->
  collectArtifacts (before ++ (name, history) :: after) baseArtifacts s
  = (Throw (Error (name ++ " failed to provide an artifact.")), s).
Proof.
  intros _ Hown Hvoid Hall Hnot.
  rewrite collectArtifacts_unfold.
  assert (Hall' : Forall (fun entry => artifactOf (snd entry) <> Undefined) before).
  { eapply Forall_impl; [|exact Hall]. intros entry. apply provides_artifact. }
  destruct (collect_each_passes name ((name, history) :: after) before []
              Hall' Hnot eq_refl) as (acc & -> & Hacc).
  cbn [collect_each]. unfold has at 1. rewrite Hacc, Hown.
  rewrite has_set_same, (artifactOf_void _ Hvoid). reflexivity.
Qed.

Lemma get_None_notin {V} (k : string) (o : Obj V) :
  ~ In k (map fst o) -> get k o = None.
Proof.
  induction o as [|[k' v] o IH]; simpl; [reflexivity|].
  intros H. destruct (String.eqb k k') eqn:E.
  - apply String.eqb_eq in E. subst. tauto.
  - apply IH. tauto.
Qed.

Lemma set_fresh {V} (k : string) (v : V) (o : Obj V) :
  ~ In k (map fst o) -> set k v o = o ++ [(k, v)].
Proof.
  induction o as [|[k' v'] o IH]; simpl; [reflexivity|].
  intros H. destruct (String.eqb k k') eqn:E.
  - apply String.eqb_eq in E. subst. tauto.
  - rewrite IH; [reflexivity | tauto].
Qed.

Lemma ordinary_own (k : string) : ordinary k = true -> inherited k = false.
Proof.
  unfold ordinary. rewrite andb_true_iff, !negb_true_iff. tauto.
Qed.

Lemma collect_each_all (entries : list (string * list Settled)) :
  forall acc,
    NoDup (map fst acc ++ map fst entries) ->
    Forall (fun entry => inherited (fst entry) = false) entries ->
    Forall (fun entry => artifactOf (snd entry) <> Undefined) entries ->
    collect_each entries acc
    = Ok (acc ++ map (fun entry => (fst entry, artifactOf (snd entry))) entries).
Proof.
  induction entries as [|[n h] entries IH]; intros acc Hnd Hown Hall.
  - simpl. now rewrite app_nil_r.
  - inversion Hall as [|? ? Hh Hall']; subst. simpl in Hh.
    inversion Hown as [|? ? Hn Hown']; subst. simpl in Hn.
    assert (Hfresh : ~ In n (map fst acc)).
    { simpl in Hnd. apply NoDup_remove_2 in Hnd.
      intros Hin. apply Hnd. apply in_or_app. now left. }
    cbn [collect_each]. unfold has at 1.
    rewrite (get_None_notin _ _ Hfresh), Hn.
    rewrite has_set_same. apply defined_true in Hh. rewrite Hh. simpl.
    rewrite (set_fresh _ _ _ Hfresh), IH.
    + now rewrite <- app_assoc.
    + rewrite map_app. simpl. rewrite <- app_assoc. exact Hnd.
    + exact Hown'.
    + exact Hall'.
Qed.

(** X3. Take results with distinct gatherer names, none of them an array
    index or the name of a property inherited from [Object.prototype],
    and a history for each that yields an artifact.  Then
    [collectArtifacts] returns a bundle that holds exactly one artifact
    per gatherer, under its name and in the order of the results: the
    error of the first phase that rejected if there is one, the last
    defined value otherwise. *)
Theorem collectArtifacts_gathers_every_artifact
    (gathererResults : GathererResults) (baseArtifacts : BaseArtifacts.t)
    (s : Session) :
  NoDup (map fst gathererResults) ->
  Forall (fun entry => ordinary (fst entry) = true) gathererResults ->
  Forall (fun entry => ~ isArtifactOf (snd entry) Undefined) gathererResults ->
  exists artifacts,
    collectArtifacts gathererResults baseArtifacts s = (Ok artifacts, s)
    /\ Forall2 (fun entry stored =>
                  fst stored = fst entry
                  /\ isArtifactOf (snd entry) (snd stored))
               gathererResults (Artifacts.gathered artifacts).
Proof.
  intros Hnd Hord Hall. rewrite collectArtifacts_unfold.
  rewrite (collect_each_all gathererResults [] Hnd).
  - eexists. split; [reflexivity|]. simpl.
    clear. induction gathererResults as [|entry entries IH]; simpl;
      constructor; [|exact IH].
    split; [reflexivity | apply artifactOf_rule].
  - eapply Forall_impl; [|exact Hord]. intros entry. apply ordinary_own.
  - eapply Forall_impl; [|exact Hall]. intros entry. apply provides_artifact.
Qed.

(** The assembly stores nothing under the name of a property inherited
    from [Object.prototype]. *)
Lemma collect_each_skips (name : string) :
  inherited name = true ->
  forall entries acc final,
    get name acc = None ->
    collect_each entries acc = Ok final ->
    get name final = None.
Proof.
  intros Hinh. induction entries as [|[n h] entries IH]; intros acc final Hacc H.
  - injection H as <-. exact Hacc.
  - cbn [collect_each] in H.
    destruct (has defined n acc) eqn:Hseen; [exact (IH _ _ Hacc H)|].
    destruct (negb (has defined n (set n (artifactOf h) acc))); [discriminate|].
    apply (IH (set n (artifactOf h) acc) final); [|exact H].
    rewrite get_set_other; [exact Hacc|].
    intros ->. unfold has in Hseen. rewrite Hacc, Hinh in Hseen. discriminate.
Qed.

Lemma collect_each_throws_named (entries : list (string * list Settled)) :
  forall acc err,
    (forall k, inherited k = true -> get k acc = None) ->
    collect_each entries acc = Throw err ->
    exists name,
      err = noArtifact name /\ In name (map fst entries)
      /\ inherited name = false.
Proof.
  induction entries as [|[n h] entries IH]; intros acc err Hacc H; [discriminate|].
  cbn [collect_each] in H.
  destruct (has defined n acc) eqn:Hseen.
  - destruct (IH _ _ Hacc H) as (name & E & Hin & Hown).
    exists name. repeat split; [exact E | now right | exact Hown].
  - assert (Hn : inherited n = false).
    { destruct (inherited n) eqn:E; [|reflexivity].
      unfold has in Hseen. now rewrite (Hacc n E), E in Hseen. }
    destruct (negb (has defined n (set n (artifactOf h) acc))).
    + injection H as <-. exists n. repeat split; [now left | exact Hn].
    + destruct (IH (set n (artifactOf h) acc) err) as (name & E & Hin & Hown);
        [|exact H|].
      * intros k Hk. rewrite get_set_other; [now apply Hacc|].
        intros ->. congruence.
      * exists name. repeat split; [exact E | now right | exact Hown].
Qed.

(** X19. A gatherer whose name is that of a property inherited from
    [Object.prototype] ([constructor], [toString], ...) is passed over by
    [collectArtifacts]: the bundle holds nothing under its name, whatever
    its phase results are, and [collectArtifacts] never throws on its
    account. *)
Theorem collectArtifacts_passes_over_inherited_names
    (name : string) (gathererResults : GathererResults)
    (baseArtifacts : BaseArtifacts.t) (s : Session) :
  inherited name = true ->
  match collectArtifacts gathererResults baseArtifacts s with
  | (Ok artifacts, _) => get name (Artifacts.gathered artifacts) = None
  | (Throw err, _) =>
      exists other,
        other <> name /\ In other (map fst gathererResults)
        /\ err = noArtifact other
  end.
Proof.
  intros Hinh. rewrite collectArtifacts_unfold.
  destruct (collect_each gathererResults []) as [final|err] eqn:E.
  - exact (collect_each_skips name Hinh gathererResults [] final eq_refl E).
  - destruct (collect_each_throws_named gathererResults [] err
                (fun k _ => eq_refl) E)
      as (other & -> & Hin & Hown).
    exists other. repeat split; [|exact Hin]. intros ->. congruence.
Qed.

End CollectorMore.

(* ================================================================== *)
(** * More on the hook phases: what exactly is recorded *)

Section PhasesMore.

Context {env : Env}.

Lemma appended_refl (b : BaseArtifacts.t) : appended b b.
Proof. exists []. rewrite app_nil_r. now destruct b. Qed.

Lemma appended_trans (b1 b2 b3 : BaseArtifacts.t) :
  appended b1 b2 -> appended b2 b3 -> appended b1 b3.
Proof.
  intros (w1 & ->) (w2 & ->). exists (w1 ++ w2).
  destruct b1. simpl. now rewrite app_assoc.
Qed.

Lemma grown_refl (c : PassContext.t) : grown c c.
Proof. repeat split. apply appended_refl. Qed.

Lemma grown_trans (c1 c2 c3 : PassContext.t) :
  grown c1 c2 -> grown c2 c3 -> grown c1 c3.
Proof.
  intros (U1 & S1 & P1 & B1) (U2 & S2 & P2 & B2).
  repeat split; try congruence. exact (appended_trans _ _ _ B1 B2).
Qed.

Lemma grown_hook (c : PassContext.t) (o : option (Obj Value)) (ws : list string) :
  grown c (PassContext.push_warnings ws (PassContext.with_options o c)).
Proof. repeat split. now exists ws. Qed.

Lemma keys_set_present {V} (k : string) (v : V) (o : Obj V) :
  In k (map fst o) -> map fst (set k v o) = map fst o.
Proof.
  induction o as [|[k' v'] o IH]; simpl; [tauto|].
  intros H. destruct (String.eqb k k') eqn:E; simpl; [reflexivity|].
  rewrite IH; [reflexivity|]. destruct H as [<- | H]; [|exact H].
  rewrite String.eqb_refl in E. discriminate.
Qed.

Lemma keys_pushResult_present (name : string) (p : Settled)
    (results : GathererResults) :
  In name (map fst results) ->
  map fst (pushResult name p results) = map fst results.
Proof. apply keys_set_present. Qed.

Lemma logged_cons (s s' : Session) (w : World) (e : Event) (events : list Event) :
  logged (mkSession w (calls s ++ [e])) s' events -> logged s s' (e :: events).
Proof. unfold logged. simpl. intros ->. now rewrite <- app_assoc. Qed.

(** [beforePass], once more, with what it leaves in the context and in the
    results. *)
Lemma beforePass_each_sets (gatherers : list GathererDefn.t) :
  forall (c : PassContext.t) (results : GathererResults) (s : Session),
  exists c' results' s' events,
    beforePass_each gatherers c results s = (Ok (c', results'), s')
    /\ logged s s' events
    /\ grown c c'
    /\ (NoDup (names gatherers) ->
        (forall name, In name (names gatherers) -> ~ In name (map fst results)) ->
        map fst results' = map fst results ++ names gatherers)
    /\ (NoDup (names gatherers) ->
        forall name, In name (names gatherers) ->
        exists outcome,
          In (Hooked BeforePass name outcome) events
          /\ get name results' = Some [outcome]).
Proof.
  induction gatherers as [|g rest IH]; intros c results s.
  - exists c, results, s, []. split; [reflexivity|].
    split; [apply logged_refl|]. split; [apply grown_refl|]. split.
    + intros _ _. simpl. now rewrite app_nil_r.
    + intros _ name [].
  - cbn [beforePass_each]. unfold bind at 1. rewrite settle_logged.
    match goal with
    | |- context [beforePass_each rest ?c1 ?r1 ?s1] =>
        destruct (IH c1 r1 s1) as (c' & results' & s' & events & E & L & G & K & R);
        destruct (beforePass_each_runs rest c1 r1 s1)
          as (c2 & r2 & s2 & ev2 & E2 & _ & Ho & _)
    end.
    rewrite E in E2. injection E2 as <- <- <-.
    eexists c', results', s', (_ :: events). split; [exact E|].
    split; [exact (logged_cons _ _ _ _ _ L)|].
    split; [eapply grown_trans; [apply grown_hook | exact G]|].
    split.
    + intros Hnd Hfresh. cbn [names map] in Hnd, Hfresh |- *. fold (names rest) in *.
      inversion Hnd as [|? ? Hn Hnd']; subst.
      rewrite K; [|exact Hnd'|].
      * rewrite set_fresh; [|apply Hfresh; now left].
        rewrite map_app. simpl. now rewrite <- app_assoc.
      * intros name Hin Hkey.
        rewrite set_fresh in Hkey; [|apply Hfresh; now left].
        rewrite map_app in Hkey. apply in_app_or in Hkey.
        destruct Hkey as [Hkey | [<- | []]].
        -- apply (Hfresh name); [now right | exact Hkey].
        -- contradiction.
    + intros Hnd name Hin. cbn [names map] in Hnd, Hin. fold (names rest) in *.
      inversion Hnd as [|? ? Hn Hnd']; subst.
      destruct Hin as [<- | Hin].
      * eexists. split; [now left|].
        rewrite (Ho _ Hn). apply get_set_same.
      * destruct (R Hnd' name Hin) as (outcome & Hev & Hget).
        exists outcome. split; [now right | exact Hget].
Qed.

Lemma pushed_nil (phase : Phase) (results : GathererResults) :
  pushed phase [] results results [].
Proof.
  split; [reflexivity|]. split; [reflexivity|]. intros _ name [].
Qed.

Lemma pushed_cons (phase : Phase) (g : GathererDefn.t)
    (rest : list GathererDefn.t) (results results' : GathererResults)
    (outcome : Settled) (events : list Event) :
  pushed phase rest
    (pushResult (Gatherer.name (GathererDefn.instance g)) outcome results)
    results' events ->
  pushed phase (g :: rest) results results'
    (Hooked phase (Gatherer.name (GathererDefn.instance g)) outcome :: events).
Proof.
  set (n := Gatherer.name (GathererDefn.instance g)).
  change (names (g :: rest)) with (n :: names rest).
  intros (H1 & H2 & H3). split; [|split].
  - intros name Hnot.
    assert (Hne : name <> n) by (intros ->; apply Hnot; now left).
    assert (Hrest : ~ In name (names rest)) by (intros Hx; apply Hnot; now right).
    rewrite (H1 _ Hrest), get_pushResult.
    apply String.eqb_neq in Hne. now rewrite Hne.
  - intros Hkeys.
    assert (Hn : In n (map fst results)) by (apply Hkeys; now left).
    rewrite H2; [apply keys_pushResult_present; exact Hn|].
    intros name Hin. rewrite keys_pushResult_present by exact Hn.
    apply Hkeys. now right.
  - intros Hnd name Hin.
    inversion Hnd as [|? ? Hn Hnd']; subst.
    destruct Hin as [<- | Hin].
    + exists outcome. split; [now left|].
      rewrite (H1 _ Hn), get_pushResult, String.eqb_refl. reflexivity.
    + destruct (H3 Hnd' name Hin) as (o & Hev & Hget).
      exists o. split; [now right|].
      rewrite Hget, get_pushResult.
      assert (E : String.eqb name n = false).
      { apply String.eqb_neq. intros ->. contradiction. }
      now rewrite E.
Qed.

Lemma pass_each_pushes (gatherers : list GathererDefn.t) :
  forall (c : PassContext.t) (results : GathererResults) (s : Session),
  exists c' results' s' events,
    pass_each gatherers c results s = (Ok (c', results'), s')
    /\ logged s s' events
    /\ grown c c'
    /\ pushed Pass gatherers results results' events.
Proof.
  induction gatherers as [|g rest IH]; intros c results s.
  - exists c, results, s, []. split; [reflexivity|].
    split; [apply logged_refl|]. split; [apply grown_refl | apply pushed_nil].
  - cbn [pass_each]. unfold bind at 1. rewrite settle_logged.
    match goal with
    | |- context [pass_each rest ?c1 ?r1 ?s1] =>
        destruct (IH c1 r1 s1) as (c' & results' & s' & events & E & L & G & P)
    end.
    eexists c', results', s', (_ :: events). split; [exact E|].
    split; [exact (logged_cons _ _ _ _ _ L)|].
    split; [eapply grown_trans; [apply grown_hook | exact G]|].
    apply pushed_cons. exact P.
Qed.

Lemma afterPass_each_pushes (gatherers : list GathererDefn.t) (loadData : LoadData.t) :
  forall (c : PassContext.t) (results : GathererResults) (s : Session),
  exists c' results' s' events,
    afterPass_each gatherers c loadData results s = (Ok (c', results'), s')
    /\ logged s s' events
    /\ grown c c'
    /\ pushed AfterPass gatherers results results' events.
Proof.
  induction gatherers as [|g rest IH]; intros c results s.
  - exists c, results, s, []. split; [reflexivity|].
    split; [apply logged_refl|]. split; [apply grown_refl | apply pushed_nil].
  - cbn [afterPass_each]. unfold bind at 1. rewrite settle_logged.
    match goal with
    | |- context [afterPass_each rest ?c1 loadData ?r1 ?s1] =>
        destruct (IH c1 r1 s1) as (c' & results' & s' & events & E & L & G & P)
    end.
    eexists c', results', s', (_ :: events). split; [exact E|].
    split; [exact (logged_cons _ _ _ _ _ L)|].
    split; [eapply grown_trans; [apply grown_hook | exact G]|].
    apply pushed_cons. exact P.
Qed.


End PhasesMore.

(* ================================================================== *)
(** * More on the pass executor *)

Section PassExecutorMore.

Context {env : Env}.

Lemma step_logged {A} (m : M A) (s s' : Session) (r : result A) :
  tidy m -> m s = (r, s') -> exists events, logged s s' events.
Proof.
  intros Ht E. destruct (Ht s) as (events & L & _). rewrite E in L.
  now exists events.
Qed.

Lemma endRecording_trace (c : PassContext.t) (loadData : LoadData.t)
    (s s' : Session) :
  endRecording c s = (Ok loadData, s') ->
  exists events,
    logged s s' events
    /\ (PassConfig.recordTrace (PassContext.passConfig c) = true ->
        exists trace,
          LoadData.trace loadData = Some trace
          /\ In (Called EndTrace (Ok trace)) events)
    /\ (PassConfig.recordTrace (PassContext.passConfig c) = false ->
        LoadData.trace loadData = None).
Proof.
  unfold endRecording. intros H. bind_step H E. bind_step H E'.
  unfold ret in H. injection H as <- <-. simpl.
  apply call_ok in E'.
  destruct (PassConfig.recordTrace (PassContext.passConfig c)).
  - bind_step E Et. unfold ret in E. injection E as <- <-.
    apply call_ok in Et.
    eexists. split; [exact (logged_trans _ _ _ _ _ Et E')|].
    split; [|discriminate]. intros _. exists a1. split; [reflexivity | now left].
  - unfold ret in E. injection E as <- <-.
    eexists. split; [exact E'|]. split; [discriminate | reflexivity].
Qed.

(** A pass that reached the load-error check: the histories captured so
    far, and the base artifacts. *)
Lemma runPass_load_more (c loaded : PassContext.t) (loadData : LoadData.t)
    (captured : GathererResults) (s s1 : Session) :
  runPass_load c s = (Ok (loaded, loadData, captured), s1) ->
  let passConfig := PassContext.passConfig c in
  let gatherers := PassConfig.gatherers passConfig in
  exists events hooked,
    logged s s1 events
    /\ appended (PassContext.baseArtifacts c) hooked
    /\ PassContext.baseArtifacts loaded
       = recorded (PassConfig.passName passConfig) loadData hooked
    /\ (PassConfig.recordTrace passConfig = true ->
        exists trace,
          LoadData.trace loadData = Some trace
          /\ In (Called EndTrace (Ok trace)) events)
    /\ (PassConfig.recordTrace passConfig = false -> LoadData.trace loadData = None)
    /\ (NoDup (names gatherers) ->
        map fst captured = names gatherers
        /\ forall name, In name (names gatherers) ->
           exists before passed,
             In (Hooked BeforePass name before) events
             /\ In (Hooked Pass name passed) events
             /\ get name captured = Some [before; passed]).
Proof.
  unfold runPass_load. cbv zeta. intros H.
  bind_step H E1. destruct (step_logged _ _ _ _ (tidy_setupPassNetwork c) E1) as (ev1 & L1).
  bind_step H E2.
  assert (exists ev2, logged s0 s2 ev2) as (ev2 & L2).
  { eapply step_logged; [|exact E2]. runner. }
  unfold bind at 1 in H. unfold beforePass in H.
  destruct (beforePass_each_sets (PassConfig.gatherers (PassContext.passConfig c))
              c [] s2)
    as (c3 & r3 & s3 & ev3 & E3 & L3 & G3 & K3 & R3).
  rewrite E3 in H.
  bind_step H E4. destruct (step_logged _ _ _ _ (tidy_beginRecording c3) E4) as (ev4 & L4).
  bind_step H E5. apply loadPage_ok in E5. destruct E5 as (L5 & E5).
  unfold bind at 1 in H. unfold pass in H.
  match type of H with
  | context [pass_each ?gs ?c5 ?r5 ?s5] =>
      destruct (pass_each_pushes gs c5 r5 s5)
        as (c6 & r6 & s6 & ev6 & E6 & L6 & G6 & P6)
  end.
  rewrite E6 in H.
  bind_step H E7. apply endRecording_trace in E7.
  destruct E7 as (ev7 & L7 & T7 & N7).
  bind_step H E8. apply call_ok in E8.
  unfold ret in H. injection H as <- <- <- <-.
  destruct G3 as (U3 & S3 & P3 & A3). destruct G6 as (U6 & S6 & PC6 & A6).
  pose proof (f_equal PassContext.passConfig E5) as P5.
  pose proof (f_equal PassContext.baseArtifacts E5) as B5.
  simpl in P5, B5.
  assert (Hpc : PassContext.passConfig c6 = PassContext.passConfig c) by congruence.
  rewrite Hpc in T7, N7. rewrite P5, P3 in P6.
  pose proof (logged_trans _ _ _ _ _
                (logged_trans _ _ _ _ _
                   (logged_trans _ _ _ _ _
                      (logged_trans _ _ _ _ _
                         (logged_trans _ _ _ _ _
                            (logged_trans _ _ _ _ _
                               (logged_trans _ _ _ _ _ L1 L2) L3) L4) L5) L6) L7) E8)
    as L.
  eexists. exists (PassContext.baseArtifacts c6).
  split; [exact L|]. split.
  { eapply appended_trans; [exact A3|]. rewrite <- B5. exact A6. }
  split.
  { unfold recorded. simpl. destruct (LoadData.trace a3); reflexivity. }
  split.
  { intros Hrt. destruct (T7 Hrt) as (trace & Ht & Hin).
    exists trace. split; [exact Ht|]. rewrite !in_app_iff. tauto. }
  split; [exact N7|].
  intros Hnd.
  destruct P6 as (_ & Hkeys & Hpush).
  assert (K : map fst r3 = names (PassConfig.gatherers (PassContext.passConfig c))).
  { apply (K3 Hnd). intros name _ []. }
  split.
  { rewrite Hkeys; [exact K|]. intros name Hin. rewrite K. exact Hin. }
  intros name Hin.
  destruct (R3 Hnd name Hin) as (before & Hb & Hgb).
  destruct (Hpush Hnd name Hin) as (passed & Hp & Hgp).
  exists before, passed. rewrite Hgp, Hgb. simpl.
  repeat split; rewrite !in_app_iff; tauto.
Qed.






Lemma recorded_appended (passName : string) (loadData : LoadData.t)
    (b hooked final : BaseArtifacts.t) :
  appended b hooked ->
  appended (recorded passName loadData hooked) final ->
  exists warnings,
    final = BaseArtifacts.with_warnings
              (BaseArtifacts.LighthouseRunWarnings b ++ warnings)
              (recorded passName loadData b).
Proof.
  intros (w1 & ->) (w2 & ->). exists (w1 ++ w2).
  unfold recorded. destruct b. destruct (LoadData.trace loadData); simpl;
    now rewrite app_assoc.
Qed.

(** A pass that returned: the base artifacts it leaves, and where the log
    and the trace it stored come from. *)
Lemma runPass_base
    (c final : PassContext.t) (results : GathererResults)
    (s s' : Session) (events : list Event) :
  runPass c s = (Ok (final, results), s') ->
  logged s s' events ->
  let passConfig := PassContext.passConfig c in
  exists loadData warnings,
    PassContext.baseArtifacts final
    = BaseArtifacts.with_warnings
        (BaseArtifacts.LighthouseRunWarnings (PassContext.baseArtifacts c)
         ++ warnings)
        (recorded (PassConfig.passName passConfig) loadData
                  (PassContext.baseArtifacts c))
    /\ In (Called EndDevtoolsLog (Ok (LoadData.devtoolsLog loadData))) events
    /\ (PassConfig.recordTrace passConfig = true ->
        exists trace,
          LoadData.trace loadData = Some trace
          /\ In (Called EndTrace (Ok trace)) events)
    /\ (PassConfig.recordTrace passConfig = false ->
        LoadData.trace loadData = None).
Proof.
  intros Hrun L passConfig. unfold runPass in Hrun.
  apply bind_ok_inv in Hrun.
  destruct Hrun as ([[loaded loadData] captured] & s1 & Hload & Hfinish).
  destruct (runPass_load_ok _ _ _ _ _ _ Hload)
    as (ev0 & L0 & Hlog & _ & _ & Hpc & _).
  destruct (runPass_load_more _ _ _ _ _ _ Hload)
    as (ev1 & hooked & L1 & Ha & Hb & Ht & Hn & _).
  fold passConfig in Hb, Ht, Hn.
  exists loadData.
  assert (Hin : forall after, In (Called EndDevtoolsLog (Ok (LoadData.devtoolsLog loadData)))
                                 (ev1 ++ after)).
  { intros after. rewrite (logged_inj _ _ _ _ L1 L0).
    destruct Hlog as (setup & before & recording & lc & passed & ending & -> & _).
    rewrite !in_app_iff. simpl. rewrite !in_app_iff. simpl. tauto. }
  assert (Hfinal : exists after,
             logged s1 s' after
             /\ appended (PassContext.baseArtifacts loaded)
                         (PassContext.baseArtifacts final)).
  { destruct (runPass_finish_cases loaded loadData s1) as [(e & He & Ho) | Hnone].
    - rewrite (runPass_finish_failure _ _ _ _ _ He Ho) in Hfinish.
      injection Hfinish as <- <- <-.
      exists []. split; [apply logged_refl|]. now exists [friendlyMessage e].
    - rewrite (runPass_finish_success _ _ _ _ Hnone) in Hfinish.
      unfold afterPass in Hfinish.
      destruct (afterPass_each_pushes
                  (PassConfig.gatherers (PassContext.passConfig loaded))
                  loadData loaded captured s1)
        as (c2 & r2 & s2 & ev2 & E2 & L2 & (_ & _ & _ & G2) & _).
      rewrite E2 in Hfinish. injection Hfinish as <- <- <-.
      now exists ev2. }
  destruct Hfinal as (after & L2 & Hf). rewrite Hb in Hf.
  destruct (recorded_appended _ _ _ _ _ Ha Hf) as (warnings & Hw).
  exists warnings.
  rewrite (logged_inj _ _ _ _ L (logged_trans _ _ _ _ _ L1 L2)).
  split; [exact Hw|]. split; [apply Hin|]. split; [|exact Hn].
  intros Hrt. destruct (Ht Hrt) as (trace & Htrace & Hint).
  exists trace. split; [exact Htrace|]. rewrite in_app_iff. now left.
Qed.

(** X6. A pass that returns has changed nothing of the base artifacts but
    this: warnings were appended (none removed), the devtools log the driver
    handed over is stored under the pass name, and so is the trace when
    there is one; every other field, and the logs and traces under other
    pass names, are as before. *)
Theorem runPass_changes_only_warnings_logs_traces
    (c final : PassContext.t) (results : GathererResults)
    (s s' : Session) (events : list Event) :
  runPass c s = (Ok (final, results), s') ->
  logged s s' events ->
  exists loadData warnings,
    PassContext.baseArtifacts final
    = BaseArtifacts.with_warnings
        (BaseArtifacts.LighthouseRunWarnings (PassContext.baseArtifacts c)
         ++ warnings)
        (recorded (PassConfig.passName (PassContext.passConfig c)) loadData
                  (PassContext.baseArtifacts c))
    /\ In (Called EndDevtoolsLog (Ok (LoadData.devtoolsLog loadData))) events
    /\ (forall other,
          other <> PassConfig.passName (PassContext.passConfig c) ->
          get other (BaseArtifacts.devtoolsLogs (PassContext.baseArtifacts final))
          = get other (BaseArtifacts.devtoolsLogs (PassContext.baseArtifacts c))
          /\ get other (BaseArtifacts.traces (PassContext.baseArtifacts final))
             = get other (BaseArtifacts.traces (PassContext.baseArtifacts c))).
Proof.
  intros Hrun L.
  destruct (runPass_base _ _ _ _ _ _ Hrun L) as (loadData & warnings & Hb & Hin & _).
  exists loadData, warnings. split; [exact Hb|]. split; [exact Hin|].
  intros other Hne. rewrite Hb. unfold recorded.
  destruct (LoadData.trace loadData); simpl; split;
    try reflexivity; now apply get_set_other.
Qed.

(** X7. A trace is kept for a pass exactly when the pass records one: with
    [recordTrace] set, the trace the driver's [endTrace] resolved to is in
    the base artifacts under the pass name; without it, the traces are as
    they were before the pass. *)
Theorem runPass_keeps_trace_iff_recorded
    (c final : PassContext.t) (results : GathererResults)
    (s s' : Session) (events : list Event) :
  runPass c s = (Ok (final, results), s') ->
  logged s s' events ->
  let passConfig := PassContext.passConfig c in
  (PassConfig.recordTrace passConfig = true ->
   exists trace,
     In (Called EndTrace (Ok trace)) events
     /\ get (PassConfig.passName passConfig)
            (BaseArtifacts.traces (PassContext.baseArtifacts final))
        = Some trace)
  /\ (PassConfig.recordTrace passConfig = false ->
      BaseArtifacts.traces (PassContext.baseArtifacts final)
      = BaseArtifacts.traces (PassContext.baseArtifacts c)).
Proof.
  intros Hrun L passConfig.
  destruct (runPass_base _ _ _ _ _ _ Hrun L)
    as (loadData & warnings & Hb & _ & Ht & Hn).
  fold passConfig in Hb, Ht, Hn. rewrite Hb. unfold recorded. split.
  - intros Hrt. destruct (Ht Hrt) as (trace & Htrace & Hin).
    exists trace. split; [exact Hin|].
    rewrite Htrace. simpl. apply get_set_same.
  - intros Hrt. rewrite (Hn Hrt). reflexivity.
Qed.

End PassExecutorMore.

(* ================================================================== *)
(** * Driver calls that are never made *)

Section Never.

Context {env : Env}.

Variable bad : DriverCall -> bool.
Hypothesis unconditional : forall c, conditional c = false -> bad c = false.

Lemma only_bind {A B} (P : Event -> Prop) (m : M A) (k : A -> M B) :
  only P m -> (forall a, only P (k a)) -> only P (bind m k).
Proof.
  intros Hm Hk. eapply traced_bind; [exact Hm | exact Hk | |]; simpl.
  - intros. now apply Forall_app.
  - auto.
Qed.

Lemma only_bind_at {A B} (P : Event -> Prop) (m : M A) (k : A -> M B) :
  only P m ->
  (forall s a s1, m s = (Ok a, s1) ->
     exists events, logged s1 (snd (k a s1)) events /\ Forall P events) ->
  only P (bind m k).
Proof.
  intros Hm Hk s. unfold bind.
  destruct (Hm s) as (e1 & L1 & F1).
  destruct (m s) as [[a|err] s1] eqn:E; simpl in *.
  - destruct (Hk s a s1 E) as (e2 & L2 & F2).
    exists (e1 ++ e2). split; [eapply logged_trans; eassumption|].
    now apply Forall_app.
  - now exists e1.
Qed.

Lemma only_ret {A} (P : Event -> Prop) (a : A) : only P (ret a).
Proof. intros s. exists []. split; [apply logged_refl | constructor]. Qed.

Lemma only_throw {A} (P : Event -> Prop) (err : Value) : only P (@throw env A err).
Proof. intros s. exists []. split; [apply logged_refl | constructor]. Qed.

Lemma only_ask {A} (P : Event -> Prop) (f : World -> A) : only P (ask f).
Proof. intros s. exists []. split; [apply logged_refl | constructor]. Qed.

Lemma only_call (c : DriverCall) : bad c = false -> only (never bad) (call c).
Proof.
  intros Hc s. eexists. split; [apply call_logged|].
  constructor; [exact Hc | constructor].
Qed.

Lemma only_when (P : Event -> Prop) (cond : bool) (m : M unit) :
  (cond = true -> only P m) -> only P (when cond m).
Proof. destruct cond; simpl; [auto | intros _; apply only_ret]. Qed.

Lemma only_hooks {A} (P : Event -> Prop) (m : M A) :
  (forall e phase, isHook phase e -> P e) ->
  (forall s, exists a s' phase gatherers c c' events,
      m s = (Ok a, s') /\ phaseRan phase gatherers c c' s s' events) ->
  only P m.
Proof.
  intros HP H s.
  destruct (H s) as (a & s' & phase & gs & c & c' & events & E & L & _ & F & _).
  exists events. rewrite E. split; [exact L|]. simpl.
  eapply Forall_impl; [|exact F]. intros e He. exact (HP e phase He).
Qed.

Lemma isHook_never (e : Event) (phase : Phase) : isHook phase e -> never bad e.
Proof. destruct e; simpl; tauto. Qed.

Lemma only_loadBlank (url : option string) : only (never bad) (loadBlank url).
Proof.
  unfold loadBlank. apply only_bind; [|intros; apply only_ret].
  apply only_call, unconditional. reflexivity.
Qed.

Lemma only_loadPage (c : PassContext.t) : only (never bad) (loadPage c).
Proof.
  unfold loadPage. apply only_bind; [|intros; apply only_ret].
  apply only_call, unconditional. reflexivity.
Qed.

Lemma only_setupDriver (options : RunOptions) :
  (Settings.disableStorageReset (settings options) = false ->
   bad (ClearDataForOrigin (requestedUrl options)) = false) ->
  only (never bad) (setupDriver options).
Proof.
  intros Hclear. unfold setupDriver. cbv zeta.
  repeat (apply only_bind;
          [refine (only_call _ _); apply unconditional; reflexivity | intros _]).
  apply only_when. intros Hreset. refine (only_call _ _).
  apply Hclear. now apply negb_true_iff.
Qed.

Lemma only_setupPassNetwork (c : PassContext.t) :
  only (never bad) (setupPassNetwork c).
Proof.
  unfold setupPassNetwork. cbv zeta.
  repeat (apply only_bind;
          [refine (only_call _ _); apply unconditional; reflexivity | intros _]).
  refine (only_call _ _). apply unconditional. reflexivity.
Qed.

Lemma only_beginRecording (c : PassContext.t) :
  (PassConfig.recordTrace (PassContext.passConfig c) = true ->
   bad (BeginTrace (PassContext.settings c)) = false) ->
  only (never bad) (beginRecording c).
Proof.
  intros Htrace. unfold beginRecording.
  apply only_bind;
    [refine (only_call _ _); apply unconditional; reflexivity | intros _].
  apply only_when. intros Hrt. refine (only_call _ _). exact (Htrace Hrt).
Qed.

Lemma only_endRecording (c : PassContext.t) :
  (PassConfig.recordTrace (PassContext.passConfig c) = true ->
   bad EndTrace = false) ->
  only (never bad) (endRecording c).
Proof.
  intros Htrace. unfold endRecording. apply only_bind.
  - destruct (PassConfig.recordTrace (PassContext.passConfig c)); [|apply only_ret].
    apply only_bind; [|intros; apply only_ret].
    refine (only_call _ _). now apply Htrace.
  - intros trace. apply only_bind; [|intros; apply only_ret].
    refine (only_call _ _). apply unconditional. reflexivity.
Qed.

Lemma only_getBaseArtifacts (options : RunOptions) :
  only (never bad) (getBaseArtifacts options).
Proof.
  unfold getBaseArtifacts.
  apply only_bind;
    [refine (only_call _ _); apply unconditional; reflexivity | intros ua].
  apply only_bind; [apply only_ask | intros; apply only_ret].
Qed.

Lemma only_getWebAppManifest (c : PassContext.t) :
  only (never bad) (getWebAppManifest c).
Proof.
  unfold getWebAppManifest.
  apply only_bind;
    [refine (only_call _ _); apply unconditional; reflexivity|].
  intros [response|]; apply only_ret.
Qed.

Lemma only_beforePass (c : PassContext.t) (results : GathererResults) :
  only (never bad) (beforePass c results).
Proof.
  apply only_hooks; [intros e phase; apply isHook_never|].
  intros s. unfold beforePass.
  destruct (beforePass_each_runs (PassConfig.gatherers (PassContext.passConfig c))
              c results s) as (c' & r' & s' & events & E & R & _).
  now exists (c', r'), s', BeforePass, (PassConfig.gatherers (PassContext.passConfig c)),
    c, c', events.
Qed.

Lemma only_pass (c : PassContext.t) (results : GathererResults) :
  only (never bad) (pass c results).
Proof.
  apply only_hooks; [intros e phase; apply isHook_never|].
  intros s. unfold pass.
  destruct (pass_each_runs (PassConfig.gatherers (PassContext.passConfig c))
              c results s) as (c' & r' & s' & events & E & R & _).
  now exists (c', r'), s', Pass, (PassConfig.gatherers (PassContext.passConfig c)),
    c, c', events.
Qed.

Lemma only_afterPass (c : PassContext.t) (loadData : LoadData.t)
    (results : GathererResults) :
  only (never bad) (afterPass c loadData results).
Proof.
  apply only_hooks; [intros e phase; apply isHook_never|].
  intros s. unfold afterPass.
  destruct (afterPass_each_runs (PassConfig.gatherers (PassContext.passConfig c))
              loadData c results s) as (c' & r' & s' & events & E & R & _).
  now exists (c', r'), s', AfterPass, (PassConfig.gatherers (PassContext.passConfig c)),
    c, c', events.
Qed.

Lemma only_runPass_finish (c : PassContext.t) (loadData : LoadData.t)
    (results : GathererResults) :
  only (never bad) (runPass_finish c loadData results).
Proof.
  intros s.
  destruct (runPass_finish_cases c loadData s) as [(e & He & Ho) | H].
  - rewrite (runPass_finish_failure _ _ _ _ _ He Ho).
    exists []. split; [apply logged_refl | constructor].
  - rewrite (runPass_finish_success _ _ _ _ H). apply only_afterPass.
Qed.

Lemma beforePass_same (c c' : PassContext.t) (results results' : GathererResults)
    (s s' : Session) :
  beforePass c results s = (Ok (c', results'), s') ->
  PassContext.settings c' = PassContext.settings c
  /\ PassContext.passConfig c' = PassContext.passConfig c.
Proof.
  unfold beforePass. intros E.
  destruct (beforePass_each_runs (PassConfig.gatherers (PassContext.passConfig c))
              c results s) as (c2 & r2 & s2 & ev & E2 & (_ & _ & _ & (_ & S & P & _)) & _).
  rewrite E2 in E. injection E as <- _ _. now split.
Qed.

Lemma pass_same (c c' : PassContext.t) (results results' : GathererResults)
    (s s' : Session) :
  pass c results s = (Ok (c', results'), s') ->
  PassContext.settings c' = PassContext.settings c
  /\ PassContext.passConfig c' = PassContext.passConfig c.
Proof.
  unfold pass. intros E.
  destruct (pass_each_runs (PassConfig.gatherers (PassContext.passConfig c))
              c results s) as (c2 & r2 & s2 & ev & E2 & (_ & _ & _ & (_ & S & P & _)) & _).
  rewrite E2 in E. injection E as <- _ _. now split.
Qed.

Lemma only_runPass_load (c : PassContext.t) :
  passAvoids bad (PassContext.settings c) (PassContext.passConfig c) ->
  only (never bad) (runPass_load c).
Proof.
  intros (Hperf & Htrace). unfold runPass_load. cbv zeta.
  apply only_bind; [apply only_setupPassNetwork | intros _].
  apply only_bind.
  { apply only_when. intros Hp. refine (only_call _ _). apply Hperf. exact Hp. }
  intros _.
  apply only_bind_at; [apply only_beforePass|].
  intros s [c1 r1] s1 E1. destruct (beforePass_same _ _ _ _ _ _ E1) as (S1 & P1).
  match goal with
  | |- exists events, logged _ (snd (?m _)) events /\ _ =>
      refine ((_ : only (never bad) m) s1)
  end.
  apply only_bind.
  { apply only_beginRecording. rewrite P1, S1. intros Hrt. now apply Htrace. }
  intros _.
  apply only_bind_at; [apply only_loadPage|].
  intros s2 c2 s3 E2. apply loadPage_ok in E2. destruct E2 as (_ & E2).
  match goal with
  | |- exists events, logged _ (snd (?m _)) events /\ _ =>
      refine ((_ : only (never bad) m) s3)
  end.
  apply only_bind_at; [apply only_pass|].
  intros s4 [c3 r3] s5 E3. destruct (pass_same _ _ _ _ _ _ E3) as (S3 & P3).
  assert (Hpc : PassContext.passConfig c3 = PassContext.passConfig c).
  { rewrite P3, E2. simpl. exact P1. }
  match goal with
  | |- exists events, logged _ (snd (?m _)) events /\ _ =>
      refine ((_ : only (never bad) m) s5)
  end.
  apply only_bind.
  { apply only_endRecording. rewrite Hpc. intros Hrt. now apply Htrace. }
  intros loadData.
  apply only_bind; [|intros; apply only_ret].
  refine (only_call _ _). apply unconditional. reflexivity.
Qed.

Lemma only_runPass (c : PassContext.t) :
  passAvoids bad (PassContext.settings c) (PassContext.passConfig c) ->
  only (never bad) (runPass c).
Proof.
  intros H. unfold runPass. apply only_bind; [now apply only_runPass_load|].
  intros [[c1 loadData] results]. apply only_runPass_finish.
Qed.

Lemma only_firstPassExtras (passConfig : PassConfig.t) (c : PassContext.t)
    (b : BaseArtifacts.t) :
  only (never bad) (firstPassExtras passConfig c b).
Proof.
  unfold firstPassExtras. cbv zeta.
  apply only_bind; [apply only_getWebAppManifest | intros manifest].
  apply only_bind;
    [refine (only_call _ _); apply unconditional; reflexivity | intros stacks].
  destruct (get _ _) as [devtoolsLog|]; [|apply only_throw].
  destruct (find isUserAgentEntry devtoolsLog); apply only_ret.
Qed.

Lemma only_run_passes (options : RunOptions) (passes : list PassConfig.t) :
  Forall (passAvoids bad (settings options)) passes ->
  forall isFirstPass results b,
    only (never bad) (run_passes options passes isFirstPass results b).
Proof.
  induction 1 as [|passConfig rest Hp _ IH]; intros isFirstPass results b.
  - apply only_ret.
  - cbn [run_passes]. cbv zeta.
    apply only_bind.
    { apply only_when. intros _. apply only_loadBlank. }
    intros _.
    apply only_bind; [apply only_runPass; exact Hp|].
    intros [final passResults].
    apply only_bind; [|intros; apply IH].
    destruct isFirstPass; [apply only_firstPassExtras | apply only_ret].
Qed.

End Never.

(* ================================================================== *)
(** * What a run never does *)

Section NeverInARun.

Context {env : Env}.

Lemma unconditional_clearsStorage (c : DriverCall) :
  conditional c = false -> clearsStorage c = false.
Proof. destruct c; simpl; congruence. Qed.

Lemma unconditional_tracing (c : DriverCall) :
  conditional c = false -> tracing c = false.
Proof. destruct c; simpl; congruence. Qed.

Lemma unconditional_disconnects (c : DriverCall) :
  conditional c = false -> disconnects c = false.
Proof. destruct c; simpl; congruence. Qed.

Lemma only_disposeDriver (bad : DriverCall -> bool) :
  bad Disconnect = false -> only (never bad) disposeDriver.
Proof.
  intros Hd s. rewrite disposeDriver_run.
  exists [Called Disconnect (fst (call Disconnect s))].
  split; [exact (call_logged Disconnect s)|]. constructor; [exact Hd | constructor].
Qed.

(** The calls of a whole run, for a [bad] that leaves out the disconnect. *)
Lemma only_run (bad : DriverCall -> bool)
    (passes : list PassConfig.t) (options : RunOptions) :
  (forall c, conditional c = false -> bad c = false) ->
  bad Disconnect = false ->
  (Settings.disableStorageReset (settings options) = false ->
   bad (ClearDataForOrigin (requestedUrl options)) = false) ->
  Forall (passAvoids bad (settings options)) passes ->
  only (never bad) (run passes options).
Proof.
  intros Hun Hd Hclear Hpasses.
  assert (Htry : only (never bad) (run_try passes options)).
  { unfold run_try. cbv zeta.
    apply only_bind;
      [refine (only_call bad _ _); apply Hun; reflexivity | intros _].
    apply only_bind; [now apply only_getBaseArtifacts | intros b].
    apply only_bind; [now apply only_loadBlank | intros _].
    apply only_bind;
      [refine (only_call bad _ _); apply Hun; reflexivity | intros benchmarkIndex].
    apply only_bind; [now apply only_setupDriver | intros _].
    apply only_bind; [now apply only_run_passes|]. intros [results b'].
    apply only_bind.
    { apply only_when. intros Hreset. refine (only_call bad _ _).
      apply Hclear. now apply negb_true_iff. }
    intros _. apply only_bind; [now apply only_disposeDriver|].
    intros _. apply only_ret. }
  intros s. unfold run. destruct (Htry s) as (events & L & F).
  destruct (run_try passes options s) as [[[results b]|err] s1]; simpl in *.
  - exists events.
    destruct (collectArtifacts results b s1) as [[artifacts|err] s2] eqn:E; simpl.
    + destruct (collectArtifacts_ok _ _ _ _ _ E) as (-> & _). now split.
    + destruct (collectArtifacts_throws _ _ _ _ _ E) as (-> & _). now split.
  - rewrite disposeDriver_run. simpl.
    exists (events ++ [Called Disconnect (fst (call Disconnect s1))]).
    split; [exact (logged_trans _ _ _ _ _ L (call_logged Disconnect s1))|].
    apply Forall_app. split; [exact F|]. constructor; [exact Hd | constructor].
Qed.

(** X8. With [disableStorageReset] set, a run never clears the data of the
    origin and never cleans the browser caches, whatever the passes are and
    however the run ends. *)
Theorem run_leaves_storage_alone_when_reset_is_disabled
    (passes : list PassConfig.t) (options : RunOptions) (s : Session) :
  Settings.disableStorageReset (settings options) = true ->
  exists events,
    logged s (snd (run passes options s)) events
    /\ Forall (never clearsStorage) events.
Proof.
  intros Hdisabled.
  apply (only_run clearsStorage passes options).
  - exact unconditional_clearsStorage.
  - reflexivity.
  - rewrite Hdisabled. discriminate.
  - apply Forall_forall. intros passConfig _. split.
    + rewrite Hdisabled. discriminate.
    + intros _. now split.
Qed.

(** X9. A pass that does not record a trace never begins nor ends one,
    however it ends. *)
Theorem runPass_never_traces_unless_asked
    (c : PassContext.t) (s : Session) :
  PassConfig.recordTrace (PassContext.passConfig c) = false ->
  exists events,
    logged s (snd (runPass c s)) events
    /\ Forall (never tracing) events.
Proof.
  intros Hrt.
  apply (only_runPass tracing unconditional_tracing c).
  split.
  - reflexivity.
  - rewrite Hrt. discriminate.
Qed.

Lemma disconnectsOnReturn_bind {A B} (m : M A) (k : A -> M B) :
  only (never disconnects) m ->
  (forall a, traced disconnectsOnReturn (k a)) ->
  traced disconnectsOnReturn (bind m k).
Proof.
  intros Hm Hk. eapply traced_bind; [exact Hm | exact Hk | |].
  - intros a e1 [b|err] e2 H1 H2; simpl in *.
    + destruct H2 as (before & outcome & -> & Hb).
      exists (e1 ++ before), outcome. rewrite app_assoc.
      split; [reflexivity | now apply Forall_app].
    + destruct H2 as [H2 | (before & thrown & -> & Ht & He & Hb)].
      * left. now apply Forall_app.
      * right. exists (e1 ++ before), thrown. rewrite app_assoc.
        repeat split; auto. now apply Forall_app.
  - intros err e1 H. left. exact H.
Qed.

Lemma passAvoids_disconnects (settings : Settings.t) (passConfig : PassConfig.t) :
  passAvoids disconnects settings passConfig.
Proof. split; [reflexivity | intros _; now split]. Qed.

Lemma run_try_disconnects (passes : list PassConfig.t) (options : RunOptions) :
  traced disconnectsOnReturn (run_try passes options).
Proof.
  pose proof unconditional_disconnects as Hun.
  unfold run_try. cbv zeta.
  apply disconnectsOnReturn_bind;
    [refine (only_call disconnects _ _); reflexivity | intros _].
  apply disconnectsOnReturn_bind; [now apply only_getBaseArtifacts | intros b].
  apply disconnectsOnReturn_bind; [now apply only_loadBlank | intros _].
  apply disconnectsOnReturn_bind;
    [refine (only_call disconnects _ _); reflexivity | intros benchmarkIndex].
  apply disconnectsOnReturn_bind.
  { apply only_setupDriver; [exact Hun | reflexivity]. }
  intros _.
  apply disconnectsOnReturn_bind.
  { apply only_run_passes; [exact Hun|].
    apply Forall_forall. intros p _. apply passAvoids_disconnects. }
  intros [results b'].
  apply disconnectsOnReturn_bind.
  { apply only_when. intros _. refine (only_call disconnects _ _). reflexivity. }
  intros _.
  intros s. unfold bind. rewrite disposeDriver_run. unfold ret.
  exists [Called Disconnect (fst (call Disconnect s))].
  split.
  { destruct (disposal (fst (call Disconnect s)));
      exact (call_logged Disconnect s). }
  destruct (fst (call Disconnect s)) as [u|thrown] eqn:E; simpl.
  - exists [], (Ok u). split; [reflexivity | constructor].
  - destruct thrown; simpl;
      try (eexists [], _; split; [reflexivity | constructor]).
    + right. exists [], Undefined. repeat split; auto.
    + right. exists [], Null. repeat split; auto.
Qed.

(** X10. A run that returns a bundle, or that throws at the assembly, has
    disconnected the driver exactly once, as the last thing it did with
    the driver.  A run that throws from one of its steps has done so too,
    unless the step that failed is the disposal at the end of the [try]
    (the disconnect rejected with [undefined] or [null], whose message the
    handler cannot read): then the clean-up disconnects a second time,
    right after the first, and [run] throws the error of the disposal. *)
Theorem run_disconnects_exactly_once
    (passes : list PassConfig.t) (options : RunOptions) (s : Session) :
  exists events,
    logged s (snd (run passes options s)) events
    /\ match fst (run passes options s) with
       | Ok _ => disconnectedOnce events
       | Throw err => disconnectedOnce events \/ disconnectedTwice err events
       end.
Proof.
  unfold run.
  destruct (run_try_disconnects passes options s) as (events & L & D).
  destruct (run_try passes options s) as [[[results b]|err] s1]; simpl in *.
  - exists events.
    destruct (collectArtifacts results b s1) as [[artifacts|err] s2] eqn:E; simpl.
    + destruct (collectArtifacts_ok _ _ _ _ _ E) as (-> & _). now split.
    + destruct (collectArtifacts_throws _ _ _ _ _ E) as (-> & _).
      split; [exact L | now left].
  - pose proof (disposeDriver_logged s1) as Ld.
    destruct (disposeDriver s1) as [r2 s2]. simpl in *.
    exists (events ++ [Called Disconnect (fst (call Disconnect s1))]).
    split; [exact (logged_trans _ _ _ _ _ L Ld)|].
    destruct D as [D | (before & thrown & -> & Ht & He & Hb)].
    + left. now exists events, (fst (call Disconnect s1)).
    + right. exists before, thrown, (fst (call Disconnect s1)).
      split; [now rewrite <- app_assoc | now repeat split].
Qed.

End NeverInARun.

(* ================================================================== *)
(** * Where the driver is sent *)

Section Navigation.

Context {env : Env}.

Lemma navigations_app (e1 e2 : list Event) :
  navigations (e1 ++ e2) = navigations e1 ++ navigations e2.
Proof.
  induction e1 as [|e e1 IH]; [reflexivity|].
  destruct e as [c r|phase name outcome]; simpl; [|exact IH].
  destruct c; try exact IH. destruct opts; simpl; now rewrite IH.
Qed.

Lemma navigations_never (events : list Event) :
  Forall (never navigates) events -> navigations events = [].
Proof.
  induction 1 as [|e es He _ IH]; [reflexivity|].
  destruct e as [c r|phase name outcome]; simpl; [|exact IH].
  destruct c; try exact IH. discriminate He.
Qed.

(** A step that returned without sending the driver anywhere. *)
Lemma calm_step {A} (m : M A) (s s' : Session) (a : A) :
  only (never navigates) m ->
  m s = (Ok a, s') ->
  exists events, logged s s' events /\ navigations events = [].
Proof.
  intros Hm E. destruct (Hm s) as (events & L & F). rewrite E in L.
  exists events. split; [exact L | exact (navigations_never _ F)].
Qed.

Lemma calm_setupPassNetwork (c : PassContext.t) :
  only (never navigates) (setupPassNetwork c).
Proof.
  unfold setupPassNetwork. cbv zeta.
  repeat (apply only_bind;
          [refine (only_call navigates _ _); reflexivity | intros _]).
  refine (only_call navigates _ _). reflexivity.
Qed.

Lemma calm_beginRecording (c : PassContext.t) :
  only (never navigates) (beginRecording c).
Proof.
  unfold beginRecording.
  apply only_bind; [refine (only_call navigates _ _); reflexivity | intros _].
  apply only_when. intros _. refine (only_call navigates _ _). reflexivity.
Qed.

Lemma calm_endRecording (c : PassContext.t) :
  only (never navigates) (endRecording c).
Proof.
  unfold endRecording. apply only_bind.
  - destruct (PassConfig.recordTrace (PassContext.passConfig c)); [|apply only_ret].
    apply only_bind; [|intros; apply only_ret].
    refine (only_call navigates _ _). reflexivity.
  - intros trace. apply only_bind; [|intros; apply only_ret].
    refine (only_call navigates _ _). reflexivity.
Qed.

Lemma calm_setupDriver (options : RunOptions) :
  only (never navigates) (setupDriver options).
Proof.
  unfold setupDriver. cbv zeta.
  repeat (apply only_bind;
          [refine (only_call navigates _ _); reflexivity | intros _]).
  apply only_when. intros _. refine (only_call navigates _ _). reflexivity.
Qed.

Lemma calm_firstPassExtras (passConfig : PassConfig.t) (c : PassContext.t)
    (b : BaseArtifacts.t) :
  only (never navigates) (firstPassExtras passConfig c b).
Proof.
  unfold firstPassExtras, getWebAppManifest. cbv zeta.
  apply only_bind.
  { apply only_bind; [refine (only_call navigates _ _); reflexivity|].
    intros [response|]; apply only_ret. }
  intros manifest.
  apply only_bind;
    [refine (only_call navigates _ _); reflexivity | intros stacks].
  destruct (get _ _) as [devtoolsLog|]; [|apply only_throw].
  destruct (find isUserAgentEntry devtoolsLog); apply only_ret.
Qed.

Lemma beforePass_url (c c' : PassContext.t) (results results' : GathererResults)
    (s s' : Session) :
  beforePass c results s = (Ok (c', results'), s') ->
  PassContext.url c' = PassContext.url c.
Proof.
  unfold beforePass. intros E.
  destruct (beforePass_each_runs (PassConfig.gatherers (PassContext.passConfig c))
              c results s) as (c2 & r2 & s2 & ev & E2 & (_ & _ & _ & (U & _)) & _).
  rewrite E2 in E. injection E as <- _ _. exact U.
Qed.

(** A pass that returns has sent the driver to one place: the URL of its
    context. *)
Lemma runPass_navigations (c final : PassContext.t) (results : GathererResults)
    (s s' : Session) (events : list Event) :
  runPass c s = (Ok (final, results), s') ->
  logged s s' events ->
  navigations events = [(PassContext.url c, true)].
Proof.
  intros Hrun L. unfold runPass in Hrun.
  apply bind_ok_inv in Hrun.
  destruct Hrun as ([[loaded loadData] captured] & s0 & H & Hfinish).
  destruct (calm_step _ _ _ _ (only_runPass_finish navigates _ _ _) Hfinish)
    as (ev9 & L9 & N9).
  unfold runPass_load in H. cbv zeta in H.
  bind_step H E1.
  destruct (calm_step _ _ _ _ (calm_setupPassNetwork c) E1) as (ev1 & L1 & N1).
  bind_step H E2.
  assert (exists ev2, logged s1 s2 ev2 /\ navigations ev2 = []) as (ev2 & L2 & N2).
  { refine (calm_step _ _ _ _ _ E2). apply only_when. intros _.
    refine (only_call navigates _ _). reflexivity. }
  bind_step H E3.
  match type of E3 with _ = (Ok ?x, _) => destruct x as [c1 r1] end.
  destruct (calm_step _ _ _ _ (only_beforePass navigates _ _) E3) as (ev3 & L3 & N3).
  pose proof (beforePass_url _ _ _ _ _ _ E3) as U3.
  bind_step H E4.
  destruct (calm_step _ _ _ _ (calm_beginRecording c1) E4) as (ev4 & L4 & N4).
  bind_step H E5. apply loadPage_ok in E5. destruct E5 as (L5 & _).
  bind_step H E6.
  match type of E6 with _ = (Ok ?x, _) => destruct x as [c3 r3] end.
  destruct (calm_step _ _ _ _ (only_pass navigates _ _) E6) as (ev6 & L6 & N6).
  bind_step H E7.
  destruct (calm_step _ _ _ _ (calm_endRecording c3) E7) as (ev7 & L7 & N7).
  bind_step H E8. apply call_ok in E8.
  unfold ret in H. injection H as _ _ _ <-.
  rewrite (logged_inj _ _ _ _ L
             (logged_trans _ _ _ _ _
                (logged_trans _ _ _ _ _
                   (logged_trans _ _ _ _ _
                      (logged_trans _ _ _ _ _
                         (logged_trans _ _ _ _ _
                            (logged_trans _ _ _ _ _
                               (logged_trans _ _ _ _ _
                                  (logged_trans _ _ _ _ _ L1 L2) L3) L4) L5) L6) L7)
                   E8) L9)).
  rewrite !navigations_app, N1, N2, N3, N4, N6, N7, N9, U3. reflexivity.
Qed.

Lemma only_step {A} (P : Event -> Prop) (m : M A) (s s' : Session) (a : A) :
  only P m ->
  m s = (Ok a, s') ->
  exists events, logged s s' events /\ Forall P events.
Proof.
  intros Hm E. destruct (Hm s) as (events & L & F). rewrite E in L.
  now exists events.
Qed.

Lemma unconditional_cleansCaches (c : DriverCall) :
  conditional c = false -> cleansCaches c = false.
Proof. destruct c; simpl; congruence. Qed.

(** X17. A pass cleans the browser caches exactly when it is a
    performance pass (storage reset not disabled, a trace recorded,
    throttling used).  Such a pass, when it returns, has cleaned them
    once, after driver calls that are neither hooks nor page loads, and
    before everything else; any other pass never cleans them, however it
    ends. *)
Theorem runPass_cleans_caches_exactly_in_a_perf_pass
    (c : PassContext.t) (s : Session) :
  (isPerfPass c = false ->
   exists events,
     logged s (snd (runPass c s)) events
     /\ Forall (never cleansCaches) events)
  /\ (isPerfPass c = true ->
      forall final results s' events,
        runPass c s = (Ok (final, results), s') ->
        logged s s' events ->
        exists setup cleaned rest,
          events = setup ++ Called CleanBrowserCaches (Ok cleaned) :: rest
          /\ Forall plain setup
          /\ Forall (never cleansCaches) setup
          /\ Forall (never cleansCaches) rest).
Proof.
  pose proof unconditional_cleansCaches as Hun. split.
  - intros Hperf. apply (only_runPass cleansCaches Hun c). split.
    + unfold isPerfPass in Hperf. congruence.
    + intros _. now split.
  - intros Hperf final results s' events Hrun L. unfold runPass in Hrun.
    apply bind_ok_inv in Hrun.
    destruct Hrun as ([[loaded loadData] captured] & s0 & H & Hfinish).
    destruct (only_step _ _ _ _ _ (only_runPass_finish cleansCaches _ _ _) Hfinish)
      as (ev9 & L9 & N9).
    unfold runPass_load in H. cbv zeta in H.
    bind_step H E1.
    destruct (plain_step _ (within_setupPassNetwork [Plain] c (or_introl eq_refl))
                (tidy_setupPassNetwork c) _ _ _ E1) as (ev1 & L1 & P1 & _).
    assert (N1 : Forall (never cleansCaches) ev1).
    { destruct (only_step _ _ _ _ _ (only_setupPassNetwork cleansCaches Hun c) E1)
        as (ev & L' & N). now rewrite (logged_inj _ _ _ _ L1 L'). }
    bind_step H E2. rewrite Hperf in E2. simpl in E2.
    apply (call_ok CleanBrowserCaches) in E2.
    match type of E2 with
    | logged _ _ [Called _ (Ok ?x)] => rename x into cleaned
    end.
    assert (Hrest : exists ev, logged s2 s0 ev /\ Forall (never cleansCaches) ev).
    { refine (only_step _ _ _ _ _ _ H).
      apply only_bind; [apply only_beforePass | intros [c1 r1]].
      apply only_bind; [apply only_beginRecording; [exact Hun | reflexivity]
                       | intros _].
      apply only_bind; [apply only_loadPage; exact Hun | intros c2].
      apply only_bind; [apply only_pass | intros [c3 r3]].
      apply only_bind; [apply only_endRecording; [exact Hun | reflexivity]
                       | intros ld].
      apply only_bind; [refine (only_call cleansCaches _ _); reflexivity|].
      intros _. apply only_ret. }
    destruct Hrest as (ev3 & L3 & N3).
    exists ev1, cleaned, (ev3 ++ ev9).
    split.
    { rewrite (logged_inj _ _ _ _ L
                 (logged_trans _ _ _ _ _
                    (logged_trans _ _ _ _ _ (logged_trans _ _ _ _ _ L1 E2) L3) L9)).
      now rewrite <- !app_assoc. }
    split; [exact P1|]. split; [exact N1|]. now apply Forall_app.
Qed.

End Navigation.

(* ================================================================== *)
(** * More on the top-level orchestrator *)

Section OrchestratorMore.

Context {env : Env}.

(** What the first pass adds to the base artifacts, in full. *)
Lemma firstPassExtras_full (passConfig : PassConfig.t) (c : PassContext.t)
    (b b' : BaseArtifacts.t) (devtoolsLog : DevtoolsLog) (s s' : Session) :
  get (PassConfig.passName passConfig) (BaseArtifacts.devtoolsLogs b)
  = Some devtoolsLog ->
  firstPassExtras passConfig c b s = (Ok b', s') ->
  exists events manifest stacks,
    logged s s' events /\ Forall plain events
    /\ b' = (match find isUserAgentEntry devtoolsLog with
             | Some entry =>
                 BaseArtifacts.with_NetworkUserAgent
                   (orDefault (get "User-Agent" (LogEntry.headers entry)))
             | None => fun base => base
             end)
              (BaseArtifacts.with_Stacks stacks
                 (BaseArtifacts.with_WebAppManifest manifest
                    (BaseArtifacts.with_finalUrl (PassContext.url c) b))).
Proof.
  intros Hlog H. unfold firstPassExtras in H. cbv zeta in H.
  bind_step H E1.
  destruct (plain_step _ (within_getWebAppManifest [Plain] c (or_introl eq_refl))
              (tidy_getWebAppManifest c) _ _ _ E1) as (ev1 & L1 & P1 & _).
  bind_step H E2. apply call_ok in E2.
  cbn [BaseArtifacts.devtoolsLogs BaseArtifacts.with_Stacks
         BaseArtifacts.with_WebAppManifest BaseArtifacts.with_finalUrl] in H.
  rewrite Hlog in H.
  exists (ev1 ++ [Called StacksGatherer (Ok a0)]), a, a0.
  pose proof (logged_trans _ _ _ _ _ L1 E2) as L.
  assert (P : Forall plain (ev1 ++ [Called StacksGatherer (Ok a0)])).
  { apply Forall_app; split; [exact P1 | repeat constructor]. }
  destruct (find isUserAgentEntry devtoolsLog) as [entry|];
    unfold ret in H; injection H as <- <-; repeat split; assumption.
Qed.

Lemma find_first_userAgentEntry (earlier later : DevtoolsLog) (entry : LogEntry.t) :
  Forall (fun e => ~ sendsUserAgent e) earlier ->
  sendsUserAgent entry ->
  find isUserAgentEntry (earlier ++ entry :: later) = Some entry.
Proof.
  intros Hearlier Hentry. induction Hearlier as [|e es He _ IH]; simpl.
  - apply isUserAgentEntry_iff in Hentry. now rewrite Hentry.
  - destruct (isUserAgentEntry e) eqn:E; [|exact IH].
    apply isUserAgentEntry_iff in E. contradiction.
Qed.

(** The first pass of a run that got through its passes: its devtools log
    and the network user agent it leaves. *)
Lemma run_passes_first_userAgent (options : RunOptions) (passConfig : PassConfig.t)
    (rest : list PassConfig.t) (b b' : BaseArtifacts.t)
    (results' : GathererResults) (s s' : Session) :
  run_passes options (passConfig :: rest) true [] b s = (Ok (results', b'), s') ->
  exists before devtoolsLog after,
    logged s s' (before ++ Called EndDevtoolsLog (Ok devtoolsLog) :: after)
    /\ Forall (fun e => kind e <> LogEnd) before
    /\ BaseArtifacts.NetworkUserAgent b'
       = match find isUserAgentEntry devtoolsLog with
         | Some entry => orDefault (get "User-Agent" (LogEntry.headers entry))
         | None => BaseArtifacts.NetworkUserAgent b
         end.
Proof.
  intros H. cbn [run_passes] in H. cbv zeta in H.
  unfold bind at 1 in H. cbn [negb when ret] in H.
  bind_step H E2. destruct a as [final passResults].
  bind_step H E3.
  destruct (runPass_ok _ _ _ _ _ E2)
    as (loaded & loadData & events & afterHooks & L & Hlog & Fa & Hu & HU & HN & HD).
  cbn [PassContext.passConfig PassContext.baseArtifacts PassContext.url] in HU, HN, HD.
  destruct (firstPassExtras_full _ _ _ _ _ _ _ HD E3)
    as (ev3 & manifest & stacks & L3 & P3 & Hb).
  destruct (tidy_run_passes options rest false
              (assign [] passResults) a s1) as (ev4 & L4 & _).
  rewrite H in L4. simpl in L4.
  destruct (run_passes_later _ _ _ _ _ _ _ _ H) as (_ & HN4).
  destruct Hlog as (setup & before & recording & lc & passed & ending & -> & Hlc
                    & P1 & F1 & _ & P2 & F2 & _ & P4).
  cbn [PassContext.passConfig PassContext.url] in *.
  exists (setup ++ before ++ recording
          ++ Called (GotoURL (requestedUrl options)
                       (WaitForLoad (PassConfig.recordTrace passConfig) lc))
                    (Ok (PassContext.url loaded))
          :: passed ++ ending),
    (LoadData.devtoolsLog loadData),
    (Called (SetThrottling (settings options) ThrottlingOff) (Ok tt)
     :: afterHooks ++ ev3 ++ ev4).
  split.
  { pose proof (logged_trans _ _ _ _ _ (logged_trans _ _ _ _ _ L L3) L4) as L'.
    repeat (rewrite <- app_assoc in L' || rewrite <- app_comm_cons in L').
    repeat (rewrite <- app_assoc || rewrite <- app_comm_cons). exact L'. }
  split.
  { repeat (apply Forall_app; split).
    - apply quiet_not_LogEnd. eapply Forall_impl; [apply plain_quiet | exact P1].
    - apply quiet_not_LogEnd.
      eapply Forall_impl; [apply (isHook_quiet BeforePass) | exact F1].
    - apply quiet_not_LogEnd. eapply Forall_impl; [apply plain_quiet | exact P2].
    - constructor; [discriminate|]. apply Forall_app; split; apply quiet_not_LogEnd.
      + eapply Forall_impl; [apply (isHook_quiet Pass) | exact F2].
      + eapply Forall_impl; [apply plain_quiet | exact P4]. }
  rewrite HN4, Hb.
  destruct (find isUserAgentEntry (LoadData.devtoolsLog loadData)); [reflexivity|].
  exact HN.
Qed.

(** X11. In a run that returns a bundle after at least one pass, the
    network user agent of the bundle is the User-Agent header of the first
    'Network.requestWillBeSent' entry with a non-empty such header in the
    first devtools log the driver handed over (that of the first pass). *)
Theorem run_takes_network_user_agent_from_first_request
    (firstPass : PassConfig.t) (rest : list PassConfig.t) (options : RunOptions)
    (artifacts : Artifacts.t) (s s' : Session) (events : list Event) :
  run (firstPass :: rest) options s = (Ok artifacts, s') ->
  logged s s' events ->
  exists before devtoolsLog after,
    events = before ++ Called EndDevtoolsLog (Ok devtoolsLog) :: after
    /\ firstDevtoolsLog events = Some devtoolsLog
    /\ forall earlier entry later userAgent,
        devtoolsLog = earlier ++ entry :: later ->
        Forall (fun e => ~ sendsUserAgent e) earlier ->
        LogEntry.method entry = "Network.requestWillBeSent" ->
        get "User-Agent" (LogEntry.headers entry) = Some userAgent ->
        userAgent <> "" ->
        BaseArtifacts.NetworkUserAgent (Artifacts.base artifacts) = userAgent.
Proof.
  intros Hrun L. unfold run in Hrun.
  destruct (run_try (firstPass :: rest) options s) as [[[results b]|err] s1] eqn:Htry.
  2:{ destruct (disposeDriver s1). discriminate. }
  destruct (collectArtifacts_ok _ _ _ _ _ Hrun) as (-> & _ & HN).
  destruct (run_try_ok _ _ _ _ _ _ Htry)
    as (setup & b0 & s0 & passEvents & s2 & teardown & L0 & P0 & _ & _ & Hp & L1 & L2).
  destruct (run_passes_first_userAgent _ _ _ _ _ _ _ _ Hp)
    as (before & devtoolsLog & after & Lp & Qb & Hua).
  pose proof (logged_trans _ _ _ _ _ (logged_trans _ _ _ _ _ L0 Lp) L2) as L'.
  rewrite (logged_inj _ _ _ _ L L').
  assert (Hnone : firstDevtoolsLog (setup ++ before) = None).
  { apply firstDevtoolsLog_none, Forall_app. split; [|exact Qb].
    apply quiet_not_LogEnd. eapply Forall_impl; [apply plain_quiet | exact P0]. }
  assert (Hevents :
            (setup ++ before ++ Called EndDevtoolsLog (Ok devtoolsLog) :: after)
            ++ teardown
            = (setup ++ before)
              ++ Called EndDevtoolsLog (Ok devtoolsLog) :: after ++ teardown).
  { repeat (rewrite <- app_assoc || rewrite <- app_comm_cons). reflexivity. }
  rewrite Hevents.
  exists (setup ++ before), devtoolsLog, (after ++ teardown).
  split; [reflexivity|]. split.
  - now rewrite (firstDevtoolsLog_skip _ _ Hnone).
  - intros earlier entry later userAgent -> Hearlier Hmethod Hget Hne.
    rewrite HN, Hua.
    rewrite (find_first_userAgentEntry earlier later entry Hearlier).
    + now rewrite Hget.
    + split; [exact Hmethod|]. now exists userAgent.
Qed.

(** One turn of the loop over the passes, for a run that got through. *)
Lemma run_passes_cons (options : RunOptions) (passConfig : PassConfig.t)
    (rest : list PassConfig.t) (isFirstPass : bool)
    (results results' : GathererResults) (b b' : BaseArtifacts.t)
    (s s' : Session) :
  run_passes options (passConfig :: rest) isFirstPass results b s
  = (Ok (results', b'), s') ->
  let passContext :=
    PassContext.mk (requestedUrl options) (settings options) passConfig b None in
  exists blank s1 final passResults passEvents s2 extras b2 s3 restEvents,
    logged s s1 blank /\ Forall plain blank
    /\ runPass passContext s1 = (Ok (final, passResults), s2)
    /\ logged s1 s2 passEvents
    /\ logged s2 s3 extras /\ Forall plain extras
    /\ (if isFirstPass
        then exists devtoolsLog manifest stacks,
            get (PassConfig.passName passConfig)
                (BaseArtifacts.devtoolsLogs (PassContext.baseArtifacts final))
            = Some devtoolsLog
            /\ b2 = firstPassBase devtoolsLog (PassContext.url final) manifest
                      stacks (PassContext.baseArtifacts final)
        else b2 = PassContext.baseArtifacts final)
    /\ run_passes options rest false (assign results passResults) b2 s3
       = (Ok (results', b'), s')
    /\ logged s3 s' restEvents.
Proof.
  intros H passContext. cbn [run_passes] in H. cbv zeta in H.
  fold passContext in H.
  bind_step H E1.
  assert (exists blank, logged s s0 blank /\ Forall plain blank) as (blank & L1 & P1).
  { destruct isFirstPass; simpl in E1.
    - unfold ret in E1. injection E1 as _ <-. exists [].
      split; [apply logged_refl | constructor].
    - destruct (plain_step _ (within_loadBlank [Plain] _ (or_introl eq_refl))
                  (tidy_loadBlank _) _ _ _ E1) as (ev & L & P & _).
      now exists ev. }
  bind_step H E2. destruct a0 as [final passResults].
  destruct (step_logged _ _ _ _ (tidy_runPass passContext) E2) as (passEvents & L2).
  destruct (runPass_ok _ _ _ _ _ E2)
    as (_ & loadData & _ & _ & _ & _ & _ & _ & _ & _ & HD).
  bind_step H E3.
  destruct (tidy_run_passes options rest false (assign results passResults) a0 s2)
    as (restEvents & L4 & _).
  rewrite H in L4. simpl in L4.
  exists blank, s0, final, passResults, passEvents, s1.
  destruct isFirstPass.
  - destruct (firstPassExtras_full _ _ _ _ _ _ _ HD E3)
      as (extras & manifest & stacks & L3 & P3 & Hb).
    exists extras, a0, s2, restEvents.
    repeat split; try assumption.
    exists (LoadData.devtoolsLog loadData), manifest, stacks. now split.
  - unfold ret in E3. injection E3 as <- <-.
    exists [], (PassContext.baseArtifacts final), s1, restEvents.
    repeat split; try assumption; [apply logged_refl | constructor].
Qed.

Lemma runPass_hooks (c final : PassContext.t) (results : GathererResults)
    (s s' : Session) (events : list Event) :
  runPass c s = (Ok (final, results), s') ->
  logged s s' events ->
  exists afterPassRan,
    hooks events = passHooks afterPassRan (PassContext.passConfig c).
Proof.
  intros Hrun L. unfold runPass in Hrun.
  apply bind_ok_inv in Hrun.
  destruct Hrun as ([[loaded loadData] captured] & s1 & Hload & Hfinish).
  destruct (runPass_load_ok _ _ _ _ _ _ Hload)
    as (ev1 & L1 & Hlog & _ & _ & Hpc & _).
  pose proof (loadedLog_hooks _ _ _ _ Hlog) as Hhooks.
  destruct (runPass_finish_cases loaded loadData s1) as [(e & He & Ho) | Hnone].
  - rewrite (runPass_finish_failure _ _ _ _ _ He Ho) in Hfinish.
    injection Hfinish as <- <- <-.
    exists false. rewrite (logged_inj _ _ _ _ L L1), Hhooks.
    unfold passHooks. now rewrite app_nil_r.
  - rewrite (runPass_finish_success _ _ _ _ Hnone) in Hfinish.
    unfold afterPass in Hfinish. rewrite Hpc in Hfinish.
    destruct (afterPass_each_runs (PassConfig.gatherers (PassContext.passConfig c))
                loadData loaded captured s1)
      as (c2 & r2 & s2 & ev2 & E2 & (L2 & K2 & _) & _).
    rewrite E2 in Hfinish. injection Hfinish as <- <- <-.
    exists true.
    rewrite (logged_inj _ _ _ _ L (logged_trans _ _ _ _ _ L1 L2)).
    rewrite hooks_app, Hhooks, K2. unfold passHooks. now rewrite <- app_assoc.
Qed.

Lemma run_passes_hooks (options : RunOptions) (passes : list PassConfig.t) :
  forall isFirstPass results b s results' b' s' events,
    run_passes options passes isFirstPass results b s = (Ok (results', b'), s') ->
    logged s s' events ->
    exists afterPassRan,
      List.length afterPassRan = List.length passes
      /\ hooks events = runHooks afterPassRan passes.
Proof.
  induction passes as [|passConfig rest IH];
    intros isFirstPass results b s results' b' s' events H L.
  - unfold run_passes, ret in H. injection H as _ _ <-.
    exists []. split; [reflexivity|].
    now rewrite (logged_inj _ _ _ _ L (logged_refl s)).
  - destruct (run_passes_cons _ _ _ _ _ _ _ _ _ _ H)
      as (blank & s1 & final & passResults & passEvents & s2 & extras & b2 & s3
          & restEvents & L1 & P1 & Hpass & L2 & L3 & P3 & _ & Hrest & L4).
    destruct (runPass_hooks _ _ _ _ _ _ Hpass L2) as (ran & Hran).
    destruct (IH _ _ _ _ _ _ _ _ Hrest L4) as (rans & Hlen & Hrans).
    exists (ran :: rans). split; [simpl; now rewrite Hlen|].
    rewrite (logged_inj _ _ _ _ L
               (logged_trans _ _ _ _ _
                  (logged_trans _ _ _ _ _ (logged_trans _ _ _ _ _ L1 L2) L3) L4)).
    rewrite !hooks_app, (plain_benign_hooks _ P1), (plain_benign_hooks _ P3),
      Hran, Hrans.
    unfold runHooks. simpl. now rewrite app_nil_r.
Qed.

(** The [try] of a run that got to the assembly, step by step. *)
Lemma run_try_full (passes : list PassConfig.t) (options : RunOptions)
    (results : GathererResults) (b : BaseArtifacts.t) (s s' : Session) :
  run_try passes options s = (Ok (results, b), s') ->
  exists connected hostUserAgent base0 blankUrl benchmarkIndex setup s0
         passEvents s1 teardown,
    logged s s0 (Called Connect (Ok connected)
                 :: Called GetBrowserVersion (Ok hostUserAgent)
                 :: Called (GotoURL defaultBlankPage WaitForNavigated) (Ok blankUrl)
                 :: Called GetBenchmarkIndex (Ok benchmarkIndex)
                 :: setup)
    /\ Forall plain setup
    /\ BaseArtifacts.HostUserAgent base0 = hostUserAgent
    /\ BaseArtifacts.TestedAsMobileDevice base0
       = (let emulatedFormFactor := Settings.emulatedFormFactor (settings options) in
          strictEq emulatedFormFactor "mobile"
          || (negb (strictEq emulatedFormFactor "desktop")
              && (includes "Android" hostUserAgent
                  || includes "Mobile" hostUserAgent)))
    /\ BaseArtifacts.settings base0 = settings options
    /\ BaseArtifacts.devtoolsLogs base0 = []
    /\ BaseArtifacts.traces base0 = []
    /\ run_passes options passes true []
         (BaseArtifacts.with_BenchmarkIndex benchmarkIndex base0) s0
       = (Ok (results, b), s1)
    /\ logged s0 s1 passEvents
    /\ logged s1 s' teardown
    /\ hooks teardown = []
    /\ navigations setup = []
    /\ navigations teardown = []
    /\ runStarts passes options s
       = passStarts options passes true []
           (BaseArtifacts.with_BenchmarkIndex benchmarkIndex base0) s0.
Proof.
  unfold run_try. cbv zeta. intros H.
  bind_step H E1. pose proof E1 as C1. apply call_ok in E1.
  match type of E1 with
  | logged _ _ [Called _ (Ok ?x)] => rename x into connected
  end.
  bind_step H E2. pose proof E2 as C2.
  match type of E2 with
  | _ = (Ok ?x, _) => rename x into base0
  end.
  assert (exists hostUserAgent,
             logged s0 s1 [Called GetBrowserVersion (Ok hostUserAgent)]
             /\ base0
                = BaseArtifacts.mk (now (world s1)) []
                    (strictEq (Settings.emulatedFormFactor (settings options)) "mobile"
                     || (negb (strictEq (Settings.emulatedFormFactor (settings options))
                                        "desktop")
                         && (includes "Android" hostUserAgent
                             || includes "Mobile" hostUserAgent)))
                    hostUserAgent "" 0 None [] [] [] (settings options)
                    (ArtifactsURL.mk (requestedUrl options) "") [])
    as (hostUserAgent & L2 & ->).
  { unfold getBaseArtifacts in E2. bind_step E2 E. apply call_ok in E.
    unfold bind, ask, ret in E2. injection E2 as <- <-.
    eexists. split; [exact E | reflexivity]. }
  bind_step H E3. pose proof E3 as C3.
  assert (exists blankUrl,
             logged s1 s2 [Called (GotoURL defaultBlankPage WaitForNavigated)
                                  (Ok blankUrl)])
    as (blankUrl & L3).
  { unfold loadBlank in E3. bind_step E3 E. apply call_ok in E.
    unfold ret in E3. injection E3 as _ <-. eexists. exact E. }
  bind_step H E4. pose proof E4 as C4. apply call_ok in E4.
  match type of E4 with
  | logged _ _ [Called _ (Ok ?x)] => rename x into benchmarkIndex
  end.
  bind_step H E5. pose proof E5 as C5.
  destruct (plain_step _ (within_setupDriver [Plain] options (or_introl eq_refl))
              (tidy_setupDriver options) _ _ _ E5) as (ev5 & L5 & P5 & _).
  assert (N5 : navigations ev5 = []).
  { destruct (calm_step _ _ _ _ (calm_setupDriver options) E5) as (ev & L & N).
    now rewrite (logged_inj _ _ _ _ L5 L). }
  bind_step H E6.
  match type of E6 with
  | _ = (Ok ?x, _) => destruct x as [results6 b6]
  end.
  match type of E6 with
  | run_passes _ _ _ _ ?b0 ?s0 = _ =>
      destruct (tidy_run_passes options passes true [] b0 s0) as (ev6 & L6 & _)
  end.
  rewrite E6 in L6. simpl in L6.
  bind_step H E7.
  assert (exists ev7, logged s5 s6 ev7 /\ hooks ev7 = [] /\ navigations ev7 = [])
    as (ev7 & L7 & K7 & N7).
  { assert (N : exists ev, logged s5 s6 ev /\ navigations ev = []).
    { refine (calm_step _ _ _ _ _ E7). apply only_when. intros _.
      refine (only_call navigates _ _). reflexivity. }
    destruct N as (ev & L & N).
    eapply plain_step in E7; [destruct E7 as (ev7 & L7 & P7 & _) | |]; [|runner..].
    exists ev7. split; [exact L7|]. split; [exact (plain_benign_hooks _ P7)|].
    now rewrite (logged_inj _ _ _ _ L7 L). }
  bind_step H E8.
  rewrite disposeDriver_run in E8. injection E8 as _ <-.
  unfold ret in H. injection H as <- <- <-.
  match type of E6 with
  | run_passes _ _ _ _ (BaseArtifacts.with_BenchmarkIndex _ ?base0) _ = _ =>
      exists connected, hostUserAgent, base0, blankUrl, benchmarkIndex, ev5, s4,
        ev6, s5, (ev7 ++ [Called Disconnect (fst (call Disconnect s6))])
  end.
  split.
  { exact (logged_trans _ _ _ _ _
             (logged_trans _ _ _ _ _
                (logged_trans _ _ _ _ _
                   (logged_trans _ _ _ _ _ E1 L2) L3) E4) L5). }
  split; [exact P5|].
  split; [reflexivity|]. split; [reflexivity|]. split; [reflexivity|].
  split; [reflexivity|]. split; [reflexivity|].
  split; [exact E6|]. split; [exact L6|]. split.
  - exact (logged_trans _ _ _ _ _ L7 (call_logged Disconnect s6)).
  - split; [rewrite hooks_app, K7; reflexivity|].
    split; [exact N5|]. split; [rewrite navigations_app, N7; reflexivity|].
    unfold runStarts, bind. now rewrite C1, C2, C3, C4, C5.
Qed.

Lemma collectArtifacts_base (results : GathererResults) (b : BaseArtifacts.t)
    (artifacts : Artifacts.t) (s s' : Session) :
  collectArtifacts results b s = (Ok artifacts, s') ->
  s' = s
  /\ Artifacts.base artifacts
     = BaseArtifacts.with_Timing (getTimeEntries (world s))
         (BaseArtifacts.with_warnings
            (unique [] (BaseArtifacts.LighthouseRunWarnings b)) b)
  /\ collect_each results [] = Ok (Artifacts.gathered artifacts).
Proof.
  rewrite collectArtifacts_unfold.
  destruct (collect_each results []); [|discriminate].
  intros [= <- <-]. now repeat split.
Qed.

(** A run that returned a bundle: the [try], then the assembly. *)
Lemma run_ok_inv (passes : list PassConfig.t) (options : RunOptions)
    (artifacts : Artifacts.t) (s s' : Session) :
  run passes options s = (Ok artifacts, s') ->
  exists results b,
    run_try passes options s = (Ok (results, b), s')
    /\ collectArtifacts results b s' = (Ok artifacts, s').
Proof.
  unfold run. intros Hrun.
  destruct (run_try passes options s) as [[[results b]|err] s1] eqn:Htry.
  2:{ destruct (disposeDriver s1). discriminate. }
  destruct (collectArtifacts_ok _ _ _ _ _ Hrun) as (-> & _).
  now exists results, b.
Qed.

Lemma sameHost_refl (b : BaseArtifacts.t) : sameHost b b.
Proof. now repeat split. Qed.

Lemma sameHost_trans (b1 b2 b3 : BaseArtifacts.t) :
  sameHost b1 b2 -> sameHost b2 b3 -> sameHost b1 b3.
Proof.
  intros (F1 & T1 & H1 & B1 & S1) (F2 & T2 & H2 & B2 & S2).
  repeat split; congruence.
Qed.

Lemma sameHost_recorded (passName : string) (loadData : LoadData.t)
    (warnings : list string) (b : BaseArtifacts.t) :
  sameHost b (BaseArtifacts.with_warnings warnings (recorded passName loadData b)).
Proof. unfold recorded. destruct (LoadData.trace loadData); now repeat split. Qed.

Lemma sameHost_firstPassBase (devtoolsLog : DevtoolsLog) (finalUrl : string)
    (manifest : option Value) (stacks : list Value) (b : BaseArtifacts.t) :
  sameHost b (firstPassBase devtoolsLog finalUrl manifest stacks b).
Proof.
  unfold firstPassBase. destruct (find isUserAgentEntry devtoolsLog);
    now repeat split.
Qed.

Lemma run_passes_sameHost (options : RunOptions) (passes : list PassConfig.t) :
  forall isFirstPass results b s results' b' s',
    run_passes options passes isFirstPass results b s = (Ok (results', b'), s') ->
    sameHost b b'.
Proof.
  induction passes as [|passConfig rest IH];
    intros isFirstPass results b s results' b' s' H.
  - unfold run_passes, ret in H. injection H as _ <- _. apply sameHost_refl.
  - destruct (run_passes_cons _ _ _ _ _ _ _ _ _ _ H)
      as (blank & s1 & final & passResults & passEvents & s2 & extras & b2 & s3
          & restEvents & _ & _ & Hpass & L2 & _ & _ & Hb2 & Hrest & _).
    destruct (runPass_base _ _ _ _ _ _ Hpass L2) as (loadData & warnings & Hb & _).
    cbn [PassContext.baseArtifacts PassContext.passConfig] in Hb.
    apply (sameHost_trans _ (PassContext.baseArtifacts final)).
    { rewrite Hb. apply sameHost_recorded. }
    apply (sameHost_trans _ b2); [|exact (IH _ _ _ _ _ _ _ Hrest)].
    destruct isFirstPass.
    + destruct Hb2 as (devtoolsLog & manifest & stacks & _ & ->).
      apply sameHost_firstPassBase.
    + rewrite Hb2. apply sameHost_refl.
Qed.

(** X12. A run that returns a bundle has started with these driver calls:
    connect, getBrowserVersion, the navigation to the default blank page,
    getBenchmarkIndex.  The host user agent of the bundle is what
    getBrowserVersion answered, TestedAsMobileDevice is computed from it
    and from the emulated form factor, the benchmark index is what
    getBenchmarkIndex answered, and the settings are those of the run:
    no pass changes any of them. *)
Theorem run_settles_host_metadata_before_the_passes
    (passes : list PassConfig.t) (options : RunOptions)
    (artifacts : Artifacts.t) (s s' : Session) (events : list Event) :
  run passes options s = (Ok artifacts, s') ->
  logged s s' events ->
  exists connected hostUserAgent blankUrl benchmarkIndex rest,
    events
    = Called Connect (Ok connected)
      :: Called GetBrowserVersion (Ok hostUserAgent)
      :: Called (GotoURL defaultBlankPage WaitForNavigated) (Ok blankUrl)
      :: Called GetBenchmarkIndex (Ok benchmarkIndex)
      :: rest
    /\ BaseArtifacts.HostUserAgent (Artifacts.base artifacts) = hostUserAgent
    /\ BaseArtifacts.BenchmarkIndex (Artifacts.base artifacts) = benchmarkIndex
    /\ BaseArtifacts.settings (Artifacts.base artifacts) = settings options
    /\ BaseArtifacts.TestedAsMobileDevice (Artifacts.base artifacts)
       = (let emulatedFormFactor := Settings.emulatedFormFactor (settings options) in
          strictEq emulatedFormFactor "mobile"
          || (negb (strictEq emulatedFormFactor "desktop")
              && (includes "Android" hostUserAgent
                  || includes "Mobile" hostUserAgent))).
Proof.
  intros Hrun L.
  destruct (run_ok_inv _ _ _ _ _ Hrun) as (results & b & Htry & Hcollect).
  destruct (collectArtifacts_base _ _ _ _ _ Hcollect) as (_ & -> & _).
  destruct (run_try_full _ _ _ _ _ _ Htry)
    as (connected & hostUserAgent & base0 & blankUrl & benchmarkIndex & setup & s0
        & passEvents & s1 & teardown & L0 & _ & HH & HT & HS & _ & _ & Hp & L1 & L2 & _).
  destruct (run_passes_sameHost _ _ _ _ _ _ _ _ _ Hp) as (_ & T & H & B & S).
  exists connected, hostUserAgent, blankUrl, benchmarkIndex,
    (setup ++ passEvents ++ teardown).
  split.
  { rewrite (logged_inj _ _ _ _ L
               (logged_trans _ _ _ _ _ (logged_trans _ _ _ _ _ L0 L1) L2)).
    simpl. now rewrite <- app_assoc. }
  cbn [BaseArtifacts.HostUserAgent BaseArtifacts.BenchmarkIndex
         BaseArtifacts.settings BaseArtifacts.TestedAsMobileDevice
         BaseArtifacts.with_Timing BaseArtifacts.with_warnings].
  rewrite H, B, S, T. cbn [BaseArtifacts.HostUserAgent BaseArtifacts.BenchmarkIndex
         BaseArtifacts.settings BaseArtifacts.TestedAsMobileDevice
         BaseArtifacts.with_BenchmarkIndex].
  repeat split; assumption.
Qed.

Lemma recorded_devtoolsLogs (passName : string) (loadData : LoadData.t)
    (warnings : list string) (b : BaseArtifacts.t) :
  BaseArtifacts.devtoolsLogs
    (BaseArtifacts.with_warnings warnings (recorded passName loadData b))
  = set passName (LoadData.devtoolsLog loadData) (BaseArtifacts.devtoolsLogs b).
Proof. unfold recorded. now destruct (LoadData.trace loadData). Qed.

Lemma recorded_traces (passName : string) (loadData : LoadData.t)
    (warnings : list string) (b : BaseArtifacts.t) :
  BaseArtifacts.traces
    (BaseArtifacts.with_warnings warnings (recorded passName loadData b))
  = match LoadData.trace loadData with
    | Some trace => set passName trace (BaseArtifacts.traces b)
    | None => BaseArtifacts.traces b
    end.
Proof. unfold recorded. now destruct (LoadData.trace loadData). Qed.

Lemma firstPassBase_keeps (devtoolsLog : DevtoolsLog) (finalUrl : string)
    (manifest : option Value) (stacks : list Value) (b : BaseArtifacts.t) :
  let b' := firstPassBase devtoolsLog finalUrl manifest stacks b in
  BaseArtifacts.devtoolsLogs b' = BaseArtifacts.devtoolsLogs b
  /\ BaseArtifacts.traces b' = BaseArtifacts.traces b
  /\ BaseArtifacts.LighthouseRunWarnings b' = BaseArtifacts.LighthouseRunWarnings b.
Proof.
  unfold firstPassBase. destruct (find isUserAgentEntry devtoolsLog);
    now repeat split.
Qed.

(** Where the logs and traces held after the passes come from. *)
Lemma run_passes_logs (options : RunOptions) (passes : list PassConfig.t) :
  forall isFirstPass results b s results' b' s' events,
    run_passes options passes isFirstPass results b s = (Ok (results', b'), s') ->
    logged s s' events ->
    logsFrom passes events
      (BaseArtifacts.devtoolsLogs b) (BaseArtifacts.devtoolsLogs b')
    /\ tracesFrom passes events
         (BaseArtifacts.traces b) (BaseArtifacts.traces b').
Proof.
  induction passes as [|passConfig rest IH];
    intros isFirstPass results b s results' b' s' events H L.
  - unfold run_passes, ret in H. injection H as _ <- _.
    split; intros name.
    + destruct (get name (BaseArtifacts.devtoolsLogs b)); [now left | now split].
    + destruct (get name (BaseArtifacts.traces b)); [now left|].
      split; [reflexivity | intros p []].
  - destruct (run_passes_cons _ _ _ _ _ _ _ _ _ _ H)
      as (blank & s1 & final & passResults & passEvents & s2 & extras & b2 & s3
          & restEvents & L1 & _ & Hpass & L2 & L3 & _ & Hb2 & Hrest & L4).
    destruct (runPass_base _ _ _ _ _ _ Hpass L2)
      as (loadData & warnings & Hb & Hlog & Htrace & Hnone).
    cbn [PassContext.baseArtifacts PassContext.passConfig] in Hb, Htrace, Hnone.
    destruct (IH _ _ _ _ _ _ _ _ Hrest L4) as (IHl & IHt).
    assert (Hl2 : BaseArtifacts.devtoolsLogs b2
                  = set (PassConfig.passName passConfig)
                        (LoadData.devtoolsLog loadData)
                        (BaseArtifacts.devtoolsLogs b)).
    { rewrite <- (recorded_devtoolsLogs _ _
                    (BaseArtifacts.LighthouseRunWarnings b ++ warnings)), <- Hb.
      destruct isFirstPass; [|now rewrite Hb2].
      destruct Hb2 as (devtoolsLog & manifest & stacks & _ & ->).
      apply firstPassBase_keeps. }
    assert (Ht2 : BaseArtifacts.traces b2
                  = match LoadData.trace loadData with
                    | Some trace =>
                        set (PassConfig.passName passConfig) trace
                            (BaseArtifacts.traces b)
                    | None => BaseArtifacts.traces b
                    end).
    { rewrite <- (recorded_traces _ _
                    (BaseArtifacts.LighthouseRunWarnings b ++ warnings)), <- Hb.
      destruct isFirstPass; [|now rewrite Hb2].
      destruct Hb2 as (devtoolsLog & manifest & stacks & _ & ->).
      apply firstPassBase_keeps. }
    rewrite (logged_inj _ _ _ _ L
               (logged_trans _ _ _ _ _
                  (logged_trans _ _ _ _ _ (logged_trans _ _ _ _ _ L1 L2) L3) L4)).
    assert (Hpe : forall e, In e passEvents ->
                            In e (((blank ++ passEvents) ++ extras) ++ restEvents)).
    { intros e He. rewrite !in_app_iff. tauto. }
    assert (Hre : forall e, In e restEvents ->
                            In e (((blank ++ passEvents) ++ extras) ++ restEvents)).
    { intros e He. rewrite !in_app_iff. tauto. }
    split; intros name.
    + specialize (IHl name). rewrite Hl2 in IHl.
      destruct (string_dec name (PassConfig.passName passConfig)) as [->|Hne].
      * rewrite get_set_same in IHl.
        destruct (get (PassConfig.passName passConfig) (BaseArtifacts.devtoolsLogs b'))
          as [devtoolsLog|].
        -- right. simpl. destruct IHl as [[= <-] | (Hin & Hev)]; auto.
        -- destruct IHl as (Habs & _). discriminate.
      * rewrite get_set_other in IHl by exact Hne.
        destruct (get name (BaseArtifacts.devtoolsLogs b')) as [devtoolsLog|].
        -- destruct IHl as [Hold | (Hin & Hev)]; [now left|].
           right. simpl. auto.
        -- destruct IHl as (Hold & Hnot). split; [exact Hold|].
           simpl. intros [E | Hin]; [now apply Hne | now apply Hnot].
    + specialize (IHt name). rewrite Ht2 in IHt.
      assert (Hold :
                get name (match LoadData.trace loadData with
                          | Some trace =>
                              set (PassConfig.passName passConfig) trace
                                  (BaseArtifacts.traces b)
                          | None => BaseArtifacts.traces b
                          end)
                = if PassConfig.recordTrace passConfig
                  then if string_dec name (PassConfig.passName passConfig)
                       then LoadData.trace loadData
                       else get name (BaseArtifacts.traces b)
                  else get name (BaseArtifacts.traces b)).
      { destruct (PassConfig.recordTrace passConfig) eqn:Hrt.
        - destruct (Htrace eq_refl) as (trace & -> & _).
          destruct (string_dec name (PassConfig.passName passConfig)) as [->|Hne];
            [apply get_set_same | now apply get_set_other].
        - now rewrite (Hnone eq_refl). }
      rewrite Hold in IHt. clear Hold.
      destruct (get name (BaseArtifacts.traces b')) as [trace|].
      * destruct IHt as [Hold | (p & Hin & Hname & Hrt & Hev)].
        -- destruct (PassConfig.recordTrace passConfig) eqn:Hrt; [|now left].
           destruct (string_dec name (PassConfig.passName passConfig)) as [->|Hne];
             [|now left].
           right. exists passConfig. destruct (Htrace eq_refl) as (t & Ht & Hev).
           rewrite Ht in Hold. injection Hold as ->.
           repeat split; [now left | exact Hrt | now apply Hpe].
        -- right. exists p. repeat split; [now right | | | ]; auto.
      * destruct IHt as (Hold & Hnot).
        destruct (PassConfig.recordTrace passConfig) eqn:Hrt.
        -- destruct (string_dec name (PassConfig.passName passConfig)) as [->|Hne].
           ++ destruct (Htrace eq_refl) as (t & Ht & _). congruence.
           ++ split; [exact Hold|].
              intros p [<- | Hin] Hname; [now elim Hne | now apply Hnot].
        -- split; [exact Hold|].
           intros p [<- | Hin] Hname; [exact Hrt | now apply Hnot].
Qed.

(** X13. In the bundle of a run there is a devtools log under a name
    exactly when a pass of the run has that name, and it is one the
    driver's [endDevtoolsLog] handed over during the run; there is a trace
    under a name exactly when a pass of that name records a trace, and it
    is one the driver's [endTrace] handed over during the run. *)
Theorem run_keeps_logs_and_traces_of_the_passes
    (passes : list PassConfig.t) (options : RunOptions)
    (artifacts : Artifacts.t) (s s' : Session) (events : list Event) :
  run passes options s = (Ok artifacts, s') ->
  logged s s' events ->
  forall name,
    match get name (BaseArtifacts.devtoolsLogs (Artifacts.base artifacts)) with
    | Some devtoolsLog =>
        In name (map PassConfig.passName passes)
        /\ In (Called EndDevtoolsLog (Ok devtoolsLog)) events
    | None => ~ In name (map PassConfig.passName passes)
    end
    /\ match get name (BaseArtifacts.traces (Artifacts.base artifacts)) with
       | Some trace =>
           exists passConfig,
             In passConfig passes
             /\ PassConfig.passName passConfig = name
             /\ PassConfig.recordTrace passConfig = true
             /\ In (Called EndTrace (Ok trace)) events
       | None =>
           forall passConfig,
             In passConfig passes ->
             PassConfig.passName passConfig = name ->
             PassConfig.recordTrace passConfig = false
       end.
Proof.
  intros Hrun L name.
  destruct (run_ok_inv _ _ _ _ _ Hrun) as (results & b & Htry & Hcollect).
  destruct (collectArtifacts_base _ _ _ _ _ Hcollect) as (_ & -> & _).
  destruct (run_try_full _ _ _ _ _ _ Htry)
    as (connected & hostUserAgent & base0 & blankUrl & benchmarkIndex & setup & s0
        & passEvents & s1 & teardown & L0 & _ & _ & _ & _ & Hl0 & Ht0 & Hp & L1 & L2 & _).
  destruct (run_passes_logs _ _ _ _ _ _ _ _ _ _ Hp L1) as (Hl & Ht).
  specialize (Hl name). specialize (Ht name).
  cbn [BaseArtifacts.devtoolsLogs BaseArtifacts.traces
         BaseArtifacts.with_BenchmarkIndex BaseArtifacts.with_Timing
         BaseArtifacts.with_warnings] in *.
  rewrite Hl0 in Hl. rewrite Ht0 in Ht.
  rewrite (logged_inj _ _ _ _ L
             (logged_trans _ _ _ _ _ (logged_trans _ _ _ _ _ L0 L1) L2)).
  assert (Hpe : forall e, In e passEvents ->
                          In e (((Called Connect (Ok connected)
                                  :: Called GetBrowserVersion (Ok hostUserAgent)
                                  :: Called (GotoURL defaultBlankPage WaitForNavigated)
                                            (Ok blankUrl)
                                  :: Called GetBenchmarkIndex (Ok benchmarkIndex)
                                  :: setup) ++ passEvents) ++ teardown)).
  { intros e He. rewrite !in_app_iff. tauto. }
  split.
  - destruct (get name (BaseArtifacts.devtoolsLogs b)) as [devtoolsLog|].
    + destruct Hl as [Habs | (Hin & Hev)]; [discriminate|]. auto.
    + tauto.
  - destruct (get name (BaseArtifacts.traces b)) as [trace|].
    + destruct Ht as [Habs | (p & Hin & Hname & Hrt & Hev)]; [discriminate|].
      exists p. auto.
    + tauto.
Qed.






(** One turn of the loop over the passes, step by step. *)
Lemma run_passes_steps (options : RunOptions) (passConfig : PassConfig.t)
    (rest : list PassConfig.t) (isFirstPass : bool)
    (results results' : GathererResults) (b b' : BaseArtifacts.t)
    (s s' : Session) :
  run_passes options (passConfig :: rest) isFirstPass results b s
  = (Ok (results', b'), s') ->
  let passContext :=
    PassContext.mk (requestedUrl options) (settings options) passConfig b None in
  exists s1 final passResults s2 b2 s3,
    when (negb isFirstPass) (loadBlank (PassConfig.blankPage passConfig)) s
    = (Ok tt, s1)
    /\ runPass passContext s1 = (Ok (final, passResults), s2)
    /\ (if isFirstPass
        then firstPassExtras passConfig final (PassContext.baseArtifacts final)
        else ret (PassContext.baseArtifacts final)) s2
       = (Ok b2, s3)
    /\ run_passes options rest false (assign results passResults) b2 s3
       = (Ok (results', b'), s').
Proof.
  intros H passContext. cbn [run_passes] in H. cbv zeta in H.
  fold passContext in H.
  bind_step H E1.
  match type of E1 with _ = (Ok ?x, _) => destruct x end.
  bind_step H E2.
  match type of E2 with _ = (Ok ?x, _) => destruct x as [final passResults] end.
  bind_step H E3.
  repeat eexists; eassumption.
Qed.

Lemma run_passes_navigations (options : RunOptions) (passes : list PassConfig.t) :
  forall isFirstPass results b s results' b' s' events,
    run_passes options passes isFirstPass results b s = (Ok (results', b'), s') ->
    logged s s' events ->
    navigations events = runNavigations options isFirstPass passes.
Proof.
  induction passes as [|passConfig rest IH];
    intros isFirstPass results b s results' b' s' events H L.
  - unfold run_passes, ret in H. injection H as _ _ <-.
    now rewrite (logged_inj _ _ _ _ L (logged_refl s)).
  - destruct (run_passes_steps _ _ _ _ _ _ _ _ _ _ H)
      as (s1 & final & passResults & s2 & b2 & s3 & E1 & E2 & E3 & E4).
    assert (exists blank,
               logged s s1 blank
               /\ navigations blank
                  = if isFirstPass then []
                    else [(match PassConfig.blankPage passConfig with
                           | Some url => url
                           | None => defaultBlankPage
                           end, false)])
      as (blank & L1 & N1).
    { destruct isFirstPass; simpl in E1.
      - unfold ret in E1. injection E1 as <-. exists [].
        split; [apply logged_refl | reflexivity].
      - unfold loadBlank in E1. bind_step E1 E. apply call_ok in E.
        unfold ret in E1. injection E1 as <-.
        eexists. split; [exact E | reflexivity]. }
    destruct (step_logged _ _ _ _ (tidy_runPass _) E2) as (passEvents & L2).
    pose proof (runPass_navigations _ _ _ _ _ _ E2 L2) as N2.
    assert (exists extras, logged s2 s3 extras /\ navigations extras = [])
      as (extras & L3 & N3).
    { destruct isFirstPass.
      - exact (calm_step _ _ _ _ (calm_firstPassExtras _ _ _) E3).
      - unfold ret in E3. injection E3 as _ <-. exists [].
        split; [apply logged_refl | reflexivity]. }
    destruct (tidy_run_passes options rest false (assign results passResults) b2 s3)
      as (restEvents & L4 & _).
    rewrite E4 in L4. simpl in L4.
    rewrite (logged_inj _ _ _ _ L
               (logged_trans _ _ _ _ _
                  (logged_trans _ _ _ _ _ (logged_trans _ _ _ _ _ L1 L2) L3) L4)).
    rewrite !navigations_app, N1, N2, N3, (IH _ _ _ _ _ _ _ _ E4 L4).
    cbn [runNavigations PassContext.url]. now rewrite app_nil_r, <- app_assoc.
Qed.

(** X16. In a run that returns a bundle the driver is sent, in this order
    and nowhere else: to the default blank page at the start; then, for
    each pass, to the blank page of the pass (the default one when the
    pass names none) unless it is the first pass, and to the requested URL
    of the run, whatever URL an earlier pass was redirected to. *)
Theorem run_navigates_pass_by_pass
    (passes : list PassConfig.t) (options : RunOptions)
    (artifacts : Artifacts.t) (s s' : Session) (events : list Event) :
  run passes options s = (Ok artifacts, s') ->
  logged s s' events ->
  navigations events
  = (defaultBlankPage, false) :: runNavigations options true passes.
Proof.
  intros Hrun L.
  destruct (run_ok_inv _ _ _ _ _ Hrun) as (results & b & Htry & _).
  destruct (run_try_full _ _ _ _ _ _ Htry)
    as (connected & hostUserAgent & base0 & blankUrl & benchmarkIndex & setup & s0
        & passEvents & s1 & teardown & L0 & _ & _ & _ & _ & _ & _ & Hp & L1 & L2
        & _ & N0 & N2 & _).
  rewrite (logged_inj _ _ _ _ L
             (logged_trans _ _ _ _ _ (logged_trans _ _ _ _ _ L0 L1) L2)).
  rewrite !navigations_app, N2, (run_passes_navigations _ _ _ _ _ _ _ _ _ _ Hp L1).
  cbn [navigations]. now rewrite N0, app_nil_r.
Qed.

(** What the first pass adds to the base artifacts, and from which
    answers of the driver. *)
Lemma firstPassExtras_exact (passConfig : PassConfig.t) (c : PassContext.t)
    (b b' : BaseArtifacts.t) (devtoolsLog : DevtoolsLog) (s s' : Session) :
  get (PassConfig.passName passConfig) (BaseArtifacts.devtoolsLogs b)
  = Some devtoolsLog ->
  firstPassExtras passConfig c b s = (Ok b', s') ->
  exists response stacks,
    logged s s' [Called GetAppManifest (Ok response);
                 Called StacksGatherer (Ok stacks)]
    /\ b' = firstPassBase devtoolsLog (PassContext.url c)
              (parsedManifest response (PassContext.url c)) stacks b.
Proof.
  intros Hlog H. unfold firstPassExtras in H. cbv zeta in H.
  bind_step H E1.
  match type of E1 with _ = (Ok ?x, _) => rename x into manifest end.
  assert (exists response,
             logged s s0 [Called GetAppManifest (Ok response)]
             /\ manifest = parsedManifest response (PassContext.url c))
    as (response & L1 & ->).
  { unfold getWebAppManifest in E1. bind_step E1 E. apply call_ok in E.
    match type of E with
    | logged _ _ [Called _ (Ok ?x)] => exists x; destruct x
    end; unfold ret in E1; injection E1 as <- <-; now split. }
  bind_step H E2. apply call_ok in E2.
  match type of E2 with
  | logged _ _ [Called _ (Ok ?x)] => rename x into stacks
  end.
  cbn [BaseArtifacts.devtoolsLogs BaseArtifacts.with_Stacks
         BaseArtifacts.with_WebAppManifest BaseArtifacts.with_finalUrl] in H.
  rewrite Hlog in H.
  exists response, stacks. unfold firstPassBase.
  destruct (find isUserAgentEntry devtoolsLog) as [entry|];
    unfold ret in H; injection H as <- <-;
    (split; [exact (logged_trans _ _ _ _ _ L1 E2) | reflexivity]).
Qed.

(** The passes after the first leave the manifest, the stacks and the URLs
    alone. *)
Lemma run_passes_later_keep (options : RunOptions) (passes : list PassConfig.t) :
  forall results b s results' b' s',
    run_passes options passes false results b s = (Ok (results', b'), s') ->
    BaseArtifacts.WebAppManifest b' = BaseArtifacts.WebAppManifest b
    /\ BaseArtifacts.Stacks b' = BaseArtifacts.Stacks b
    /\ BaseArtifacts.URL b' = BaseArtifacts.URL b.
Proof.
  induction passes as [|passConfig rest IH]; intros results b s results' b' s' H.
  - unfold run_passes, ret in H. injection H as _ <- _. now repeat split.
  - destruct (run_passes_cons _ _ _ _ _ _ _ _ _ _ H)
      as (blank & s1 & final & passResults & passEvents & s2 & extras & b2 & s3
          & restEvents & _ & _ & Hpass & L2 & _ & _ & Hb2 & Hrest & _).
    destruct (runPass_base _ _ _ _ _ _ Hpass L2) as (loadData & warnings & Hb & _).
    cbn [PassContext.baseArtifacts PassContext.passConfig] in Hb.
    destruct (IH _ _ _ _ _ _ Hrest) as (-> & -> & ->).
    rewrite Hb2, Hb. unfold recorded.
    destruct (LoadData.trace loadData); now repeat split.
Qed.

(** X18. A run without passes leaves the manifest null and the stacks
    empty.  Otherwise the run asks the driver for the manifest, and right
    after it for the stacks, once the hooks of the first pass have run and
    before any hook of the later passes; the manifest of the bundle is
    null when the driver had none, and else what the manifest parser makes
    of the driver's answer with the final URL of the bundle as document
    URL; the stacks of the bundle are the ones gathered then. *)
Theorem run_fetches_manifest_and_stacks_after_the_first_pass
    (passes : list PassConfig.t) (options : RunOptions)
    (artifacts : Artifacts.t) (s s' : Session) (events : list Event) :
  run passes options s = (Ok artifacts, s') ->
  logged s s' events ->
  let base := Artifacts.base artifacts in
  match passes with
  | [] =>
      BaseArtifacts.WebAppManifest base = None /\ BaseArtifacts.Stacks base = []
  | firstPass :: rest =>
      exists before response stacks after afterPassRan afterPassesRan,
        events
        = before
          ++ Called GetAppManifest (Ok response)
          :: Called StacksGatherer (Ok stacks)
          :: after
        /\ hooks before = passHooks afterPassRan firstPass
        /\ hooks after = runHooks afterPassesRan rest
        /\ List.length afterPassesRan = List.length rest
        /\ BaseArtifacts.WebAppManifest base
           = parsedManifest response
               (ArtifactsURL.finalUrl (BaseArtifacts.URL base))
        /\ BaseArtifacts.Stacks base = stacks
  end.
Proof.
  intros Hrun L base. subst base.
  destruct (run_ok_inv _ _ _ _ _ Hrun) as (results & b & Htry & Hcollect).
  destruct (collectArtifacts_base _ _ _ _ _ Hcollect) as (_ & -> & _).
  cbn [BaseArtifacts.WebAppManifest BaseArtifacts.Stacks BaseArtifacts.URL
         BaseArtifacts.with_Timing BaseArtifacts.with_warnings].
  destruct passes as [|firstPass rest].
  - unfold run_try in Htry. cbv zeta in Htry.
    bind_step Htry E1. bind_step Htry E2. bind_step Htry E3. bind_step Htry E4.
    bind_step Htry E5. unfold bind at 1 in Htry. cbn [run_passes ret] in Htry.
    bind_step Htry E7. bind_step Htry E8.
    unfold ret in Htry. injection Htry as _ <- _.
    unfold getBaseArtifacts in E2. bind_step E2 E.
    unfold bind, ask, ret in E2. injection E2 as <- _. now split.
  - destruct (run_try_full _ _ _ _ _ _ Htry)
      as (connected & hostUserAgent & base0 & blankUrl & benchmarkIndex & setup & s0
          & passEvents & s1 & teardown & L0 & P0 & _ & _ & _ & _ & _ & Hp & L1 & L2
          & K2 & _).
    destruct (run_passes_steps _ _ _ _ _ _ _ _ _ _ Hp)
      as (s2 & final & passResults & s3 & b2 & s4 & E1 & E2 & E3 & E4).
    cbn [negb when] in E1. unfold ret in E1. injection E1 as <-.
    destruct (step_logged _ _ _ _ (tidy_runPass _) E2) as (firstEvents & Lf).
    destruct (runPass_hooks _ _ _ _ _ _ E2 Lf) as (ran & Hran).
    cbn [PassContext.passConfig] in Hran.
    destruct (runPass_ok _ _ _ _ _ E2)
      as (_ & loadData & _ & _ & _ & _ & _ & _ & _ & _ & HD).
    cbn [PassContext.passConfig] in HD.
    destruct (firstPassExtras_exact _ _ _ _ _ _ _ HD E3)
      as (response & stacks & L3 & Hb2).
    destruct (tidy_run_passes options rest false (assign [] passResults) b2 s4)
      as (restEvents & L4 & _).
    rewrite E4 in L4. simpl in L4.
    destruct (run_passes_hooks _ _ _ _ _ _ _ _ _ _ E4 L4) as (rans & Hlen & Hrans).
    destruct (run_passes_later_keep _ _ _ _ _ _ _ _ E4) as (-> & -> & ->).
    match type of L0 with
    | logged _ _ ?prefix =>
        exists (prefix ++ firstEvents), response, stacks, (restEvents ++ teardown),
          ran, rans
    end.
    split.
    { pose proof (logged_trans _ _ _ _ _
                    (logged_trans _ _ _ _ _ (logged_trans _ _ _ _ _ Lf L3) L4) L2)
        as Lp.
      pose proof (logged_trans _ _ _ _ _ L0 Lp) as L'.
      rewrite (logged_inj _ _ _ _ L L').
      repeat (rewrite <- app_assoc || rewrite <- app_comm_cons). reflexivity. }
    split.
    { rewrite hooks_app, Hran. cbn [hooks]. now rewrite (plain_benign_hooks _ P0). }
    split; [rewrite hooks_app, Hrans, K2; apply app_nil_r|].
    split; [exact Hlen|].
    rewrite Hb2. unfold firstPassBase.
    destruct (find isUserAgentEntry (LoadData.devtoolsLog loadData)); now split.
Qed.










End OrchestratorMore.

(* ================================================================== *)
(** * The further properties at work on the concrete environment *)

(** Warnings gathered twice are reported once. *)
Lemma collectArtifacts_warnings_are_unique_witness :
  exists artifacts s',
    collectArtifacts (env := Sample.env) [("A", [Resolved (Object 1)])]
      (BaseArtifacts.with_warnings ["slow"; "slow"] Sample.baseArtifacts)
      Sample.redirecting
    = (Ok artifacts, s')
    /\ NoDup (BaseArtifacts.LighthouseRunWarnings (Artifacts.base artifacts)).
Proof.
  let r := eval vm_compute in
    (collectArtifacts (env := Sample.env) [("A", [Resolved (Object 1)])]
       (BaseArtifacts.with_warnings ["slow"; "slow"] Sample.baseArtifacts)
       Sample.redirecting) in
  match r with
  | (Ok ?artifacts, ?s') =>
      assert (H : collectArtifacts (env := Sample.env)
                    [("A", [Resolved (Object 1)])]
                    (BaseArtifacts.with_warnings ["slow"; "slow"]
                       Sample.baseArtifacts)
                    Sample.redirecting
                  = (Ok artifacts, s'))
        by (vm_compute; reflexivity);
      exists artifacts, s'; split; [exact H|];
      exact (proj1 (collectArtifacts_warnings_are_unique (env := Sample.env)
                      _ _ _ _ _ H))
  end.
Defined.

(** Gatherer B never produced anything: the assembly names it. *)
Lemma collectArtifacts_throws_without_artifact_witness :
  collectArtifacts (env := Sample.env)
    ([("A", [Resolved (Object 1)])]
     ++ ("B", [Resolved Undefined; Resolved Undefined]) :: [])
    Sample.baseArtifacts Sample.redirecting
  = (Throw (Error ("B" ++ " failed to provide an artifact.")), Sample.redirecting).
Proof.
  apply (collectArtifacts_throws_without_artifact (env := Sample.env)).
  - repeat constructor.
  - reflexivity.
  - repeat constructor.
  - constructor; [|constructor]. intros H.
    apply isArtifactOf_artifactOf in H. vm_compute in H. discriminate.
  - simpl. intuition discriminate.
Defined.

(** One artifact per gatherer: a value for A, the rejection for B. *)
Lemma collectArtifacts_gathers_every_artifact_witness :
  exists artifacts,
    collectArtifacts (env := Sample.env)
      [("A", [Resolved (Object 1)]); ("B", [Rejected (Error "failed")])]
      Sample.baseArtifacts Sample.redirecting
    = (Ok artifacts, Sample.redirecting)
    /\ Forall2 (fun entry stored =>
                  fst stored = fst entry
                  /\ isArtifactOf (snd entry) (snd stored))
               [("A", [Resolved (Object 1)]); ("B", [Rejected (Error "failed")])]
               (Artifacts.gathered artifacts).
Proof.
  apply (collectArtifacts_gathers_every_artifact (env := Sample.env)).
  - simpl. repeat constructor; simpl; intuition discriminate.
  - repeat constructor.
  - repeat constructor; intros H; apply isArtifactOf_artifactOf in H;
      vm_compute in H; discriminate.
Defined.



(** The default pass leaves the logs of other passes as they were. *)
Lemma runPass_changes_only_warnings_logs_traces_witness :
  exists final results s',
    runPass (env := Sample.env) Sample.passContext Sample.redirecting
    = (Ok (final, results), s')
    /\ get "offlinePass"
           (BaseArtifacts.devtoolsLogs (PassContext.baseArtifacts final))
       = None.
Proof.
  let r := eval vm_compute in
    (runPass (env := Sample.env) Sample.passContext Sample.redirecting) in
  match r with
  | (Ok (?final, ?results), ?s') =>
      assert (Hrun : runPass (env := Sample.env) Sample.passContext
                       Sample.redirecting
                     = (Ok (final, results), s'))
        by (vm_compute; reflexivity);
      destruct (runPass_changes_only_warnings_logs_traces (env := Sample.env)
                  Sample.passContext final results Sample.redirecting s'
                  (calls (env := Sample.env) s') Hrun eq_refl)
        as (loadData & warnings & _ & _ & Hother);
      exists final, results, s'; split; [exact Hrun|];
      exact (proj1 (Hother "offlinePass" ltac:(discriminate)))
  end.
Defined.

(** The default pass records a trace and keeps it under its name. *)
Lemma runPass_keeps_trace_iff_recorded_witness :
  exists final results s' trace,
    runPass (env := Sample.env) Sample.passContext Sample.redirecting
    = (Ok (final, results), s')
    /\ get "defaultPass"
           (BaseArtifacts.traces (PassContext.baseArtifacts final))
       = Some trace.
Proof.
  let r := eval vm_compute in
    (runPass (env := Sample.env) Sample.passContext Sample.redirecting) in
  match r with
  | (Ok (?final, ?results), ?s') =>
      assert (Hrun : runPass (env := Sample.env) Sample.passContext
                       Sample.redirecting
                     = (Ok (final, results), s'))
        by (vm_compute; reflexivity);
      destruct (proj1 (runPass_keeps_trace_iff_recorded (env := Sample.env)
                         Sample.passContext final results Sample.redirecting s'
                         (calls (env := Sample.env) s') Hrun eq_refl)
                      eq_refl)
        as (trace & _ & Hget);
      exists final, results, s', trace; split; [exact Hrun | exact Hget]
  end.
Defined.

(** A run that keeps the storage, on two passes. *)
Lemma run_leaves_storage_alone_when_reset_is_disabled_witness :
  exists events,
    logged Sample.redirecting
      (snd (run (env := Sample.env) [Sample.defaultPass; Sample.offlinePass]
                Sample.keepStorage Sample.redirecting))
      events
    /\ Forall (never clearsStorage) events.
Proof.
  exact (run_leaves_storage_alone_when_reset_is_disabled (env := Sample.env)
           [Sample.defaultPass; Sample.offlinePass] Sample.keepStorage
           Sample.redirecting eq_refl).
Defined.

(** A run against a driver whose disconnect rejects with [undefined]: the
    disposal at the end of the [try] fails on reading the message, [run]
    throws that error, and the driver has been asked to disconnect
    twice. *)
Example run_with_failing_disposal :
  let ran := run (env := Sample.stuckEnv) [Sample.defaultPass] Sample.options
                 Sample.stuck in
  fst ran = Throw (Error "Cannot read property 'message' of undefined")
  /\ filter (fun e => match e with
                      | Called c _ => disconnects c
                      | Hooked _ _ _ => false
                      end)
            (calls (snd ran))
     = [Called Disconnect (Throw Undefined); Called Disconnect (Throw Undefined)].
Proof. vm_compute. split; reflexivity. Qed.

Lemma run_disconnects_exactly_once_witness :
  exists err s' events,
    run (env := Sample.stuckEnv) [Sample.defaultPass] Sample.options Sample.stuck
    = (Throw err, s')
    /\ err = propertyOfNothing "message" Undefined
    /\ logged Sample.stuck s' events
    /\ (disconnectedOnce events \/ disconnectedTwice err events).
Proof.
  let r := eval vm_compute in
    (run (env := Sample.stuckEnv) [Sample.defaultPass] Sample.options
         Sample.stuck) in
  match r with
  | (Throw ?err, ?s') =>
      assert (Hrun : run (env := Sample.stuckEnv) [Sample.defaultPass]
                       Sample.options Sample.stuck
                     = (Throw err, s'))
        by (vm_compute; reflexivity);
      destruct (run_disconnects_exactly_once (env := Sample.stuckEnv)
                  [Sample.defaultPass] Sample.options Sample.stuck)
        as (events & L & D);
      rewrite Hrun in L, D;
      exists err, s', events
  end.
  split; [exact Hrun|]. split; [reflexivity|]. split; [exact L | exact D].
Defined.

(** The offline pass records no trace. *)
Lemma runPass_never_traces_unless_asked_witness :
  exists events,
    logged Sample.redirecting
      (snd (runPass (env := Sample.env) Sample.offlineContext Sample.redirecting))
      events
    /\ Forall (never tracing) events.
Proof.
  exact (runPass_never_traces_unless_asked (env := Sample.env)
           Sample.offlineContext Sample.redirecting eq_refl).
Defined.

(** The first request of the first pass carries the user agent. *)
Lemma run_takes_network_user_agent_from_first_request_witness :
  exists artifacts s',
    run (env := Sample.env) [Sample.defaultPass; Sample.offlinePass]
        Sample.options Sample.redirecting
    = (Ok artifacts, s')
    /\ BaseArtifacts.NetworkUserAgent (Artifacts.base artifacts)
       = "Chrome-Lighthouse".
Proof.
  let r := eval vm_compute in
    (run (env := Sample.env) [Sample.defaultPass; Sample.offlinePass]
         Sample.options Sample.redirecting) in
  match r with
  | (Ok ?artifacts, ?s') =>
      assert (Hrun : run (env := Sample.env)
                       [Sample.defaultPass; Sample.offlinePass]
                       Sample.options Sample.redirecting
                     = (Ok artifacts, s'))
        by (vm_compute; reflexivity);
      destruct (run_takes_network_user_agent_from_first_request
                  (env := Sample.env)
                  Sample.defaultPass [Sample.offlinePass] Sample.options
                  artifacts Sample.redirecting s'
                  (calls (env := Sample.env) s') Hrun eq_refl)
        as (before & devtoolsLog & after & _ & Hfirst & Hua);
      exists artifacts, s'
  end.
  split; [exact Hrun|].
  assert (Hlog : devtoolsLog = [] ++ Sample.request "http://a.test/b" :: []).
  { vm_compute in Hfirst. injection Hfirst as <-. reflexivity. }
  apply (Hua [] (Sample.request "http://a.test/b") [] "Chrome-Lighthouse" Hlog).
  - constructor.
  - reflexivity.
  - reflexivity.
  - discriminate.
Defined.

(** The settings of the bundle are those of the run. *)
Lemma run_settles_host_metadata_before_the_passes_witness :
  exists artifacts s',
    run (env := Sample.env) [Sample.defaultPass; Sample.offlinePass]
        Sample.options Sample.redirecting
    = (Ok artifacts, s')
    /\ BaseArtifacts.settings (Artifacts.base artifacts) = Sample.settings.
Proof.
  let r := eval vm_compute in
    (run (env := Sample.env) [Sample.defaultPass; Sample.offlinePass]
         Sample.options Sample.redirecting) in
  match r with
  | (Ok ?artifacts, ?s') =>
      assert (Hrun : run (env := Sample.env)
                       [Sample.defaultPass; Sample.offlinePass]
                       Sample.options Sample.redirecting
                     = (Ok artifacts, s'))
        by (vm_compute; reflexivity);
      destruct (run_settles_host_metadata_before_the_passes (env := Sample.env)
                  [Sample.defaultPass; Sample.offlinePass] Sample.options
                  artifacts Sample.redirecting s'
                  (calls (env := Sample.env) s') Hrun eq_refl)
        as (connected & hostUserAgent & blankUrl & benchmarkIndex & rest
            & _ & _ & _ & Hsettings & _);
      exists artifacts, s'
  end.
  split; [exact Hrun | exact Hsettings].
Defined.

(** The log kept for the default pass is one the driver handed over. *)
Lemma run_keeps_logs_and_traces_of_the_passes_witness :
  exists artifacts s',
    run (env := Sample.env) [Sample.defaultPass; Sample.offlinePass]
        Sample.options Sample.redirecting
    = (Ok artifacts, s')
    /\ match get "defaultPass"
                (BaseArtifacts.devtoolsLogs (Artifacts.base artifacts)) with
       | Some devtoolsLog =>
           In (Called EndDevtoolsLog (Ok devtoolsLog))
              (calls (env := Sample.env) s')
       | None => False
       end.
Proof.
  let r := eval vm_compute in
    (run (env := Sample.env) [Sample.defaultPass; Sample.offlinePass]
         Sample.options Sample.redirecting) in
  match r with
  | (Ok ?artifacts, ?s') =>
      assert (Hrun : run (env := Sample.env)
                       [Sample.defaultPass; Sample.offlinePass]
                       Sample.options Sample.redirecting
                     = (Ok artifacts, s'))
        by (vm_compute; reflexivity);
      pose proof (proj1 (run_keeps_logs_and_traces_of_the_passes
                           (env := Sample.env)
                           [Sample.defaultPass; Sample.offlinePass] Sample.options
                           artifacts Sample.redirecting s'
                           (calls (env := Sample.env) s') Hrun eq_refl
                           "defaultPass")) as Hlogs;
      exists artifacts, s'
  end.
  split; [exact Hrun | exact (proj2 Hlogs)].
Defined.



(** A gatherer named [constructor] leaves nothing in the bundle. *)
Lemma collectArtifacts_passes_over_inherited_names_witness :
  exists artifacts,
    collectArtifacts (env := Sample.env)
      [("constructor", [Resolved (Object 1)]); ("A", [Resolved (Object 2)])]
      Sample.baseArtifacts Sample.redirecting
    = (Ok artifacts, Sample.redirecting)
    /\ get "constructor" (Artifacts.gathered artifacts) = None
    /\ get "A" (Artifacts.gathered artifacts) = Some (Object 2).
Proof.
  let r := eval vm_compute in
    (collectArtifacts (env := Sample.env)
       [("constructor", [Resolved (Object 1)]); ("A", [Resolved (Object 2)])]
       Sample.baseArtifacts Sample.redirecting) in
  match r with
  | (Ok ?artifacts, _) =>
      assert (H : collectArtifacts (env := Sample.env)
                    [("constructor", [Resolved (Object 1)]);
                     ("A", [Resolved (Object 2)])]
                    Sample.baseArtifacts Sample.redirecting
                  = (Ok artifacts, Sample.redirecting))
        by (vm_compute; reflexivity);
      pose proof (collectArtifacts_passes_over_inherited_names
                    (env := Sample.env) "constructor"
                    [("constructor", [Resolved (Object 1)]);
                     ("A", [Resolved (Object 2)])]
                    Sample.baseArtifacts Sample.redirecting eq_refl) as Hnone;
      rewrite H in Hnone;
      exists artifacts
  end.
  split; [exact H|]. split; [exact Hnone | reflexivity].
Defined.

(** The places the driver is sent to in a run of two passes. *)
Lemma run_navigates_pass_by_pass_witness :
  exists artifacts s',
    run (env := Sample.env) [Sample.defaultPass; Sample.offlinePass]
        Sample.options Sample.redirecting
    = (Ok artifacts, s')
    /\ navigations (calls (env := Sample.env) s')
       = [("about:blank", false); ("http://a.test/", true);
          ("about:blank", false); ("http://a.test/", true)].
Proof.
  let r := eval vm_compute in
    (run (env := Sample.env) [Sample.defaultPass; Sample.offlinePass]
         Sample.options Sample.redirecting) in
  match r with
  | (Ok ?artifacts, ?s') =>
      assert (Hrun : run (env := Sample.env)
                       [Sample.defaultPass; Sample.offlinePass]
                       Sample.options Sample.redirecting
                     = (Ok artifacts, s'))
        by (vm_compute; reflexivity);
      exists artifacts, s'; split; [exact Hrun|];
      exact (run_navigates_pass_by_pass (env := Sample.env)
               [Sample.defaultPass; Sample.offlinePass] Sample.options
               artifacts Sample.redirecting s'
               (calls (env := Sample.env) s') Hrun eq_refl)
  end.
Defined.

(** The default pass is a performance pass, the offline pass is not. *)
Lemma runPass_cleans_caches_exactly_in_a_perf_pass_witness :
  (exists events,
      logged Sample.redirecting
        (snd (runPass (env := Sample.env) Sample.offlineContext
                      Sample.redirecting))
        events
      /\ Forall (never cleansCaches) events)
  /\ exists final results s' setup cleaned rest,
      runPass (env := Sample.env) Sample.passContext Sample.redirecting
      = (Ok (final, results), s')
      /\ calls (env := Sample.env) s'
         = setup ++ Called CleanBrowserCaches (Ok cleaned) :: rest
      /\ Forall (never cleansCaches) rest.
Proof.
  split.
  - exact (proj1 (runPass_cleans_caches_exactly_in_a_perf_pass
                    (env := Sample.env) Sample.offlineContext Sample.redirecting)
                 eq_refl).
  - let r := eval vm_compute in
      (runPass (env := Sample.env) Sample.passContext Sample.redirecting) in
    match r with
    | (Ok (?final, ?results), ?s') =>
        assert (Hrun : runPass (env := Sample.env) Sample.passContext
                         Sample.redirecting
                       = (Ok (final, results), s'))
          by (vm_compute; reflexivity);
        destruct (proj2 (runPass_cleans_caches_exactly_in_a_perf_pass
                           (env := Sample.env) Sample.passContext
                           Sample.redirecting)
                        eq_refl final results s'
                        (calls (env := Sample.env) s') Hrun eq_refl)
          as (setup & cleaned & rest & Hevents & _ & _ & Hrest);
        exists final, results, s', setup, cleaned, rest
    end.
    split; [exact Hrun|]. split; [exact Hevents | exact Hrest].
Defined.

(** The driver has no manifest: the bundle holds none. *)
Lemma run_fetches_manifest_and_stacks_after_the_first_pass_witness :
  exists artifacts s' before response stacks after,
    run (env := Sample.env) [Sample.defaultPass; Sample.offlinePass]
        Sample.options Sample.redirecting
    = (Ok artifacts, s')
    /\ calls (env := Sample.env) s'
       = before
         ++ Called GetAppManifest (Ok response)
         :: Called StacksGatherer (Ok stacks)
         :: after
    /\ BaseArtifacts.Stacks (Artifacts.base artifacts) = stacks.
Proof.
  let r := eval vm_compute in
    (run (env := Sample.env) [Sample.defaultPass; Sample.offlinePass]
         Sample.options Sample.redirecting) in
  match r with
  | (Ok ?artifacts, ?s') =>
      assert (Hrun : run (env := Sample.env)
                       [Sample.defaultPass; Sample.offlinePass]
                       Sample.options Sample.redirecting
                     = (Ok artifacts, s'))
        by (vm_compute; reflexivity);
      destruct (run_fetches_manifest_and_stacks_after_the_first_pass
                  (env := Sample.env)
                  [Sample.defaultPass; Sample.offlinePass] Sample.options
                  artifacts Sample.redirecting s'
                  (calls (env := Sample.env) s') Hrun eq_refl)
        as (before & response & stacks & after & ran & rans
            & Hevents & _ & _ & _ & _ & Hstacks);
      exists artifacts, s', before, response, stacks, after
  end.
  split; [exact Hrun|]. split; [exact Hevents | exact Hstacks].
Defined.
